(** * Panorama do Stricto Sensu: the normalizer and the aggregator of [app.py]

    A shallow embedding of the data pipeline of [src/app.py]:
    - [carregar_dados]: the schema reconciliation run on the frame read from
      the parquet file (lines 47-100);
    - [calcular_cagr] (lines 33-43);
    - the filter / group / rank pipeline of the script body (lines 126-234).

    Modelling conventions.
    - A pandas [DataFrame] is a row count and an ordered association list of
      named columns (column order decides which fuzzy-named column is adopted).
      Column labels are strings and are taken to be distinct in the raw frame.
    - A cell is a null ([NaN] or [None]), a number or a string.  Numbers are
      integers ([Z]): fractional floats and the wrap-around of [int64] sums are
      outside the model (enrollment counts are far below 2^63); the conversion
      [astype(int)] raises on a numeral outside [int64].
    - The conversions of the Python runtime between strings and numbers
      ([pd.to_numeric] and [int] on a string, [str] on a number) are not code of
      this file: they are taken as an interface, [PyConv].
    - Floating point: the growth rate is a symbolic [growth] value standing
      for the expression of line 43; a market share is the integer number of
      hundredths of a percent that line 190 produces in double precision, taken
      as an interface, [RoundPct], with the facts used of it. *)

From Stdlib Require Import ZArith List String Ascii Bool Lia DecimalString.
From Stdlib Require Import Permutation Sorted.
Import ListNotations.

Local Open Scope string_scope.
Local Open Scope Z_scope.

(* ================================================================= *)
(** ** Exceptions and the error monad *)

Inductive exn : Type :=
| KeyError (label : string)
| ValueError
| IndexError
| OverflowError
| StreamlitAPIException.

Inductive result (A : Type) : Type :=
| Ok (a : A)
| Raise (e : exn).
Arguments Ok {A} a.
Arguments Raise {A} e.

Definition bind {A B : Type} (m : result A) (k : A -> result B) : result B :=
  match m with
  | Ok a => k a
  | Raise e => Raise e
  end.

Notation "x <- m ;; k" := (bind m (fun x => k))
  (at level 61, m at next level, right associativity).

Fixpoint mapM {A B : Type} (f : A -> result B) (l : list A) : result (list B) :=
  match l with
  | [] => Ok []
  | a :: t => b <- f a ;; bs <- mapM f t ;; Ok (b :: bs)
  end.

(* ================================================================= *)
(** ** Cells, columns and frames *)

Inductive cell : Type :=
| NaN
| PyNone
| Num (z : Z)
| Str (s : string).

Definition column := list cell.

Record DataFrame : Type := mkDataFrame {
  nrows : nat;
  columns : list (string * column)
}.

(** The runtime's conversions between strings and numbers. *)
Class PyConv : Type := {
  to_numeric_str : string -> option Z;   (* pd.to_numeric on a string *)
  int_str : string -> option Z;          (* int(s) *)
  str_num : Z -> string                  (* str(x) on a number *)
}.

(** The range of [int64]. *)
Definition in_int64 (z : Z) : bool := (- 2 ^ 63 <=? z) && (z <? 2 ^ 63).

Definition isna (c : cell) : bool :=
  match c with
  | NaN | PyNone => true
  | _ => false
  end.

Definition fillna (v : cell) (col : column) : column :=
  map (fun c => if isna c then v else c) col.

(** [x in s] on strings. *)
Fixpoint contains (sub s : string) : bool :=
  prefix sub s ||
  match s with
  | EmptyString => false
  | String _ s' => contains sub s'
  end.

Fixpoint find_col (label : string) (cols : list (string * column)) : option column :=
  match cols with
  | [] => None
  | (n, c) :: t => if String.eqb n label then Some c else find_col label t
  end.

(** [df[label] = col]: replaces the column in place, or appends it. *)
Fixpoint set_col (label : string) (col : column) (cols : list (string * column))
  : list (string * column) :=
  match cols with
  | [] => [(label, col)]
  | (n, c) :: t =>
      if String.eqb n label then (n, col) :: t else (n, c) :: set_col label col t
  end.

Definition labels (df : DataFrame) : list string := map fst (columns df).

Definition has_col (label : string) (df : DataFrame) : bool :=
  existsb (String.eqb label) (labels df).

Definition getitem (df : DataFrame) (label : string) : result column :=
  match find_col label (columns df) with
  | Some c => Ok c
  | None => Raise (KeyError label)
  end.

Definition setitem (df : DataFrame) (label : string) (col : column) : DataFrame :=
  {| nrows := nrows df; columns := set_col label col (columns df) |}.

(** [df[label] = v] with a scalar: the value is broadcast over the index. *)
Definition setitem_scalar (df : DataFrame) (label : string) (v : cell) : DataFrame :=
  setitem df label (repeat v (nrows df)).

Fixpoint lookup_label (n : string) (m : list (string * string)) : option string :=
  match m with
  | [] => None
  | (k, v) :: t => if String.eqb k n then Some v else lookup_label n t
  end.

Definition rename (m : list (string * string)) (df : DataFrame) : DataFrame :=
  {| nrows := nrows df;
     columns := map (fun nc => (match lookup_label (fst nc) m with
                                | Some n' => n'
                                | None => fst nc
                                end, snd nc)) (columns df) |}.

Section Normalizer.
Context {py : PyConv}.

(** [pd.to_numeric(col, errors='coerce')]. *)
Definition to_numeric_coerce (c : cell) : cell :=
  match c with
  | NaN | PyNone => NaN
  | Num z => Num z
  | Str s => match to_numeric_str s with
             | Some z => Num z
             | None => NaN
             end
  end.

(** [.astype(str)]: nulls are printed, not kept. *)
Definition astype_str (c : cell) : cell :=
  match c with
  | NaN => Str "nan"
  | PyNone => Str "None"
  | Num z => Str (str_num z)
  | Str s => Str s
  end.

(** [.astype(int)]: the target is [int64]; a null or a string that [int]
    rejects raises a ValueError, an integer outside [int64] an
    OverflowError. *)
Definition to_int64 (z : Z) : result cell :=
  if in_int64 z then Ok (Num z) else Raise OverflowError.

Definition astype_int (c : cell) : result cell :=
  match c with
  | NaN | PyNone => Raise ValueError
  | Num z => to_int64 z
  | Str s => match int_str s with
             | Some z => to_int64 z
             | None => Raise ValueError
             end
  end.

Definition mapa_colunas : list (string * string) :=
  [ ("UF", "Estado");
    ("Área Avaliação", "Área de Avaliação");
    ("Área Conhecimento", "Área de Conhecimento") ].

Definition colunas_matriculados : list string :=
  [ "Doutorado - Matriculado"; "Doutorado Profissional - Matriculado";
    "Mestrado - Matriculado"; "Mestrado Profissional - Matriculado" ].

Definition corede_cols (df : DataFrame) : list string :=
  filter (fun col => contains "COREDE" col) (labels df).

Definition ies_cols (df : DataFrame) : list string :=
  filter (fun col => contains "IES" col || contains "Instituição" col) (labels df).

Definition status_cols (df : DataFrame) : list string :=
  filter (fun col => contains "Status" col || contains "Jurídico" col
                     || contains "Categoria" col) (labels df).

(** Lines 61-69. *)
Definition garantir_corede (df : DataFrame) : result DataFrame :=
  if negb (has_col "COREDE" df) then
    match corede_cols df with
    | c0 :: _ => col <- getitem df c0 ;; Ok (setitem df "COREDE" (map astype_str col))
    | [] => Ok (setitem_scalar df "COREDE" (Str "NA"))
    end
  else
    col <- getitem df "COREDE" ;;
    Ok (setitem df "COREDE" (map astype_str (fillna (Str "NA") col))).

(** Lines 76-77, one turn of the loop. *)
Definition converter_matriculados (df : DataFrame) (coluna : string) : result DataFrame :=
  col <- getitem df coluna ;;
  ints <- mapM astype_int (fillna (Num 0) col) ;;
  Ok (setitem df coluna ints).

Fixpoint foldM (f : DataFrame -> string -> result DataFrame)
  (l : list string) (df : DataFrame) : result DataFrame :=
  match l with
  | [] => Ok df
  | x :: t => df' <- f df x ;; foldM f t df'
  end.

(** Lines 80-94: the column is adopted from a similar label or synthesized. *)
Definition garantir_coluna (label : string) (similares : DataFrame -> list string)
  (df : DataFrame) : result DataFrame :=
  if negb (has_col label df) then
    match similares df with
    | c0 :: _ => col <- getitem df c0 ;; Ok (setitem df label col)
    | [] => Ok (setitem_scalar df label (Str "Não informado"))
    end
  else Ok df.

(** Lines 97-98. *)
Definition tratar_nulos (label : string) (df : DataFrame) : result DataFrame :=
  col <- getitem df label ;;
  Ok (setitem df label (fillna (Str "Não informado") col)).

Definition carregar_dados (raw : DataFrame) : result DataFrame :=
  ano <- getitem raw "Ano" ;;
  let df := setitem raw "Ano" (map to_numeric_coerce ano) in
  let df := rename mapa_colunas df in
  df <- garantir_corede df ;;
  df <- foldM converter_matriculados colunas_matriculados df ;;
  df <- garantir_coluna "IES" ies_cols df ;;
  df <- garantir_coluna "Status Jurídico" status_cols df ;;
  df <- tratar_nulos "IES" df ;;
  df <- tratar_nulos "Status Jurídico" df ;;
  Ok df.

End Normalizer.

(* ================================================================= *)
(** ** The canonical record set seen by the script body *)

(** One row of the frame returned by [carregar_dados], restricted to the
    columns the script reads.  [None] is a null.  [COREDE], [IES] and
    [Status Jurídico] are the columns the normalizer fills. *)
Record registro : Type := mkRegistro {
  Ano : option Z;
  Estado : option string;
  Municipio : option string;
  COREDE : string;
  IES : string;
  Status_Juridico : string;
  Programa : option string;
  Area_de_Avaliacao : option string;
  Area_de_Conhecimento : option string;
  Doutorado : Z;
  Doutorado_Profissional : Z;
  Mestrado : Z;
  Mestrado_Profissional : Z
}.

Inductive Dimensao : Type :=
| DimPrograma
| DimAreaAvaliacao
| DimAreaConhecimento.

Inductive Metrica : Type :=
| MDoutorado
| MDoutoradoProfissional
| MMestrado
| MMestradoProfissional
| MTotalMatriculados.

(** The widgets' values for one run of the script. *)
Record Filtros : Type := mkFiltros {
  dimensao : Dimensao;
  metrica : Metrica;
  estados : list (option string);
  municipios : list (option string);
  coredes : list string;
  ies_list : list string;
  status_juridico : list string;
  ano_range : Z * Z
}.

Definition coluna_dimensao (d : Dimensao) (r : registro) : option string :=
  match d with
  | DimPrograma => Programa r
  | DimAreaAvaliacao => Area_de_Avaliacao r
  | DimAreaConhecimento => Area_de_Conhecimento r
  end.

(** Line 141: the derived column is the row-wise sum of the four counts. *)
Definition coluna_metrica (m : Metrica) (r : registro) : Z :=
  match m with
  | MDoutorado => Doutorado r
  | MDoutoradoProfissional => Doutorado_Profissional r
  | MMestrado => Mestrado r
  | MMestradoProfissional => Mestrado_Profissional r
  | MTotalMatriculados =>
      Doutorado r + Doutorado_Profissional r + Mestrado r + Mestrado_Profissional r
  end.

Definition opt_eqb (a b : option string) : bool :=
  match a, b with
  | Some x, Some y => String.eqb x y
  | None, None => true
  | _, _ => false
  end.

(** [Series.isin(values)]; a null matches a null. *)
Definition isin (x : string) (values : list string) : bool :=
  existsb (String.eqb x) values.

Definition isin_opt (x : option string) (values : list (option string)) : bool :=
  existsb (opt_eqb x) values.

(** Truth value of a Python list. *)
Definition truthy {A : Type} (l : list A) : bool :=
  match l with
  | [] => false
  | _ :: _ => true
  end.

Definition ano_no_intervalo (f : Filtros) (r : registro) : bool :=
  match Ano r with
  | Some a => (fst (ano_range f) <=? a) && (a <=? snd (ano_range f))
  | None => false
  end.

(** Lines 126-137. *)
Definition filtered_df (f : Filtros) (df : list registro) : list registro :=
  let fd := filter (ano_no_intervalo f) df in
  let fd := if truthy (estados f)
            then filter (fun r => isin_opt (Estado r) (estados f)) fd else fd in
  let fd := if truthy (municipios f)
            then filter (fun r => isin_opt (Municipio r) (municipios f)) fd else fd in
  let fd := if truthy (coredes f)
            then filter (fun r => isin (COREDE r) (coredes f)) fd else fd in
  let fd := if truthy (ies_list f)
            then filter (fun r => isin (IES r) (ies_list f)) fd else fd in
  let fd := if truthy (status_juridico f)
            then filter (fun r => isin (Status_Juridico r) (status_juridico f)) fd else fd in
  fd.

(** The filter as the specification words it: the year constraint and, for
    each categorical filter, membership in the allowed set unless that set is
    empty; all of them conjoined. *)
Definition permitido {A : Type} (mem : A -> list A -> bool) (x : A) (allowed : list A) : bool :=
  negb (truthy allowed) || mem x allowed.

Definition passa (f : Filtros) (r : registro) : bool :=
  ano_no_intervalo f r
  && permitido isin_opt (Estado r) (estados f)
  && permitido isin_opt (Municipio r) (municipios f)
  && permitido isin (COREDE r) (coredes f)
  && permitido isin (IES r) (ies_list f)
  && permitido isin (Status_Juridico r) (status_juridico f).

(** The same filter spec with the five categorical selections emptied. *)
Definition sem_categoricos (f : Filtros) : Filtros :=
  {| dimensao := dimensao f; metrica := metrica f;
     estados := []; municipios := []; coredes := []; ies_list := [];
     status_juridico := []; ano_range := ano_range f |}.

(* ================================================================= *)
(** ** [groupby(...)[col].sum().reset_index()] *)

(** Group keys are compared to sort the groups. *)
Class KeyCmp (K : Type) : Type := kcmp : K -> K -> comparison.

#[global] Instance Z_KeyCmp : KeyCmp Z := Z.compare.
#[global] Instance string_KeyCmp : KeyCmp string := String.compare.
#[global] Instance pair_KeyCmp {A B : Type} `{KeyCmp A} `{KeyCmp B} : KeyCmp (A * B) :=
  fun x y =>
    match kcmp (fst x) (fst y) with
    | Eq => kcmp (snd x) (snd y)
    | c => c
    end.

(** The comparison is a strict total order. *)
Class KeyOrder (K : Type) `{KeyCmp K} : Prop := {
  kcmp_eq : forall a b, kcmp a b = Eq -> a = b;
  kcmp_refl : forall a, kcmp a a = Eq;
  kcmp_antisym : forall a b, kcmp a b = CompOpp (kcmp b a);
  kcmp_trans : forall a b c, kcmp a b = Lt -> kcmp b c = Lt -> kcmp a c = Lt
}.

Section GroupBy.
Context {K : Type} `{KeyCmp K}.

(** Adds [v] to the group of [k] in a table sorted by key. *)
Fixpoint add_group (k : K) (v : Z) (g : list (K * Z)) : list (K * Z) :=
  match g with
  | [] => [(k, v)]
  | (k', v') :: t =>
      match kcmp k k' with
      | Lt => (k, v) :: g
      | Eq => (k', v' + v) :: t
      | Gt => (k', v') :: add_group k v t
      end
  end.

(** One row per key observed, sorted by key; rows with a null key are
    dropped (pandas' [dropna=True]). *)
Definition groupby_sum {R : Type} (key : R -> option K) (val : R -> Z) (rows : list R)
  : list (K * Z) :=
  fold_right (fun r g => match key r with
                         | Some k => add_group k (val r) g
                         | None => g
                         end) [] rows.

(** The rows that have a group: those whose key is not null. *)
Definition has_key {R : Type} (key : R -> option K) (r : R) : bool :=
  match key r with
  | Some _ => true
  | None => false
  end.

(** The rows of group [k]. *)
Definition is_key {R : Type} (key : R -> option K) (k : K) (r : R) : bool :=
  match key r with
  | Some k' => match kcmp k k' with Eq => true | _ => false end
  | None => false
  end.

(** The value recorded for group [k], if the group is in the table. *)
Fixpoint lookup_group (k : K) (g : list (K * Z)) : option Z :=
  match g with
  | [] => None
  | (k', v') :: t =>
      match kcmp k k' with
      | Eq => Some v'
      | _ => lookup_group k t
      end
  end.

(** Tables are sorted by strictly increasing key. *)
Definition key_lt (a b : K * Z) : Prop := kcmp (fst a) (fst b) = Lt.

End GroupBy.

Definition soma (l : list Z) : Z := fold_right Z.add 0 l.

(** Line 143. *)
Definition chave_serie (d : Dimensao) (r : registro) : option (Z * string) :=
  match Ano r, coluna_dimensao d r with
  | Some a, Some v => Some (a, v)
  | _, _ => None
  end.

Definition grouped_df (f : Filtros) (df : list registro) : list ((Z * string) * Z) :=
  groupby_sum (chave_serie (dimensao f)) (coluna_metrica (metrica f)) (filtered_df f df).

(* ================================================================= *)
(** ** [calcular_cagr] *)

(** The value returned by [calcular_cagr]: the integer [0], or the float
    [(ultimo / primeiro) ** (1 / num_anos) - 1], kept symbolic, or a float
    NaN when the last value is null. *)
Inductive growth : Type :=
| GZero
| GRate (ultimo_valor primeiro_valor num_anos : Z)
| GNaN.

(** [s.iloc[0]] and [s.iloc[-1]] raise on an empty series. *)
Definition iloc_first {A : Type} (s : list A) : result A :=
  match s with
  | [] => Raise IndexError
  | x :: _ => Ok x
  end.

Fixpoint iloc_last {A : Type} (s : list A) : result A :=
  match s with
  | [] => Raise IndexError
  | [x] => Ok x
  | _ :: t => iloc_last t
  end.

(** Lines 33-43.  [valores] may hold nulls ([None]). *)
Definition calcular_cagr (valores : list (option Z)) (anos : list Z) : result growth :=
  if (List.length valores <? 2)%nat then Ok GZero
  else
    primeiro_valor <- iloc_first valores ;;
    ultimo_valor <- iloc_last valores ;;
    match primeiro_valor with
    | None => Ok GZero
    | Some p =>
        if p =? 0 then Ok GZero
        else
          a_ultimo <- iloc_last anos ;;
          a_primeiro <- iloc_first anos ;;
          let num_anos := a_ultimo - a_primeiro in
          if num_anos =? 0 then Ok GZero
          else match ultimo_valor with
               | None => Ok GNaN
               | Some u => Ok (GRate u p num_anos)
               end
    end.

(** Lines 176-177: the rate is computed only for a non-empty table. *)
Definition cagr_exibido (f : Filtros) (df : list registro) : result (option growth) :=
  let g := grouped_df f df in
  if truthy g then
    c <- calcular_cagr (map (fun kv => Some (snd kv)) g) (map (fun kv => fst (fst kv)) g) ;;
    Ok (Some c)
  else Ok None.

(** The growth rate as the specification words it: the time series is first
    collapsed to one total per year, ordered by year. *)
Definition serie_anual (f : Filtros) (df : list registro) : list (Z * Z) :=
  groupby_sum (fun kv : (Z * string) * Z => Some (fst (fst kv))) snd (grouped_df f df).

Definition cagr_spec (f : Filtros) (df : list registro) : result growth :=
  let s := serie_anual f df in
  calcular_cagr (map (fun kv => Some (snd kv)) s) (map fst s).

(* ================================================================= *)
(** ** The ranking of institutions *)

(** A row of [ies_stats].  The market share is a number of hundredths of a
    percent ([7500] is 75.00); it is [None] (NaN or an infinity) when the
    grand total is 0. *)
Record linha_ies : Type := mkLinha {
  ies_nome : string;
  ies_valor : Z;
  market_share : option Z
}.

(** The integer nearest to [n / d], ties to the even one ([d <> 0]): the
    share that exact arithmetic would give, used to run the ranking on
    examples. *)
Definition round_half_even (n d : Z) : Z :=
  let n' := if d <? 0 then - n else n in
  let d' := Z.abs d in
  let q := n' / d' in
  let r := n' mod d' in
  if 2 * r <? d' then q
  else if d' <? 2 * r then q + 1
  else if Z.even q then q else q + 1.

(** Line 190 computes [(v / total_geral * 100).round(2)] in double
    precision: the two integers are converted, the quotient, the product by
    100 and the scaling by 100 inside [round] are each rounded to the nearest
    double, and [rint] takes the nearest integer number of hundredths.  That
    number of hundredths is an interface, with the two facts used of it:
    - it is within half a hundredth of the exact value [10000 * v / total], up
      to the relative error of the five double roundings (less than 2^-50);
    - it does not decrease when [v] grows (each operation is monotone). *)
Class RoundPct : Type := {
  round_pct : Z -> Z -> Z;
  round_pct_near :
    forall v total, total <> 0 ->
      2 ^ 50 * Z.abs (round_pct v total * total - 10000 * v)
      <= 2 ^ 49 * Z.abs total + 10000 * Z.abs v;
  round_pct_mono :
    forall v v' total, 0 < total -> v <= v' -> round_pct v total <= round_pct v' total
}.

(** Line 190, in hundredths; a grand total of 0 gives NaN or an infinity. *)
Definition market_share_pct {rp : RoundPct} (v total : Z) : option Z :=
  if total =? 0 then None else Some (round_pct v total).

(** [sort_values(metrica, ascending=False)].  pandas sorts with an unstable
    quicksort: the order of rows with equal values is not fixed, so the sort
    is any function that returns the rows in descending order. *)
Class SortValues : Type := {
  sort_values_desc : list linha_ies -> list linha_ies;
  sort_values_perm : forall l, Permutation l (sort_values_desc l);
  sort_values_sorted :
    forall l, Sorted (fun a b => ies_valor b <= ies_valor a) (sort_values_desc l)
}.

(** An insertion sort, used to run the pipeline on examples. *)
Fixpoint insert_desc (x : linha_ies) (l : list linha_ies) : list linha_ies :=
  match l with
  | [] => [x]
  | y :: t => if ies_valor y <=? ies_valor x then x :: l else y :: insert_desc x t
  end.

Definition insertion_sort_desc (l : list linha_ies) : list linha_ies :=
  fold_right insert_desc [] l.

Section Ranking.
Context {srt : SortValues} {rp : RoundPct}.

(** Line 184. *)
Definition ies_agrupado (f : Filtros) (df : list registro) : list (string * Z) :=
  groupby_sum (fun r => Some (IES r)) (coluna_metrica (metrica f)) (filtered_df f df).

(** Line 187. *)
Definition total_geral (f : Filtros) (df : list registro) : Z :=
  soma (map snd (ies_agrupado f df)).

(** Line 190. *)
Definition ies_com_share (f : Filtros) (df : list registro) : list linha_ies :=
  map (fun kv => mkLinha (fst kv) (snd kv) (market_share_pct (snd kv) (total_geral f df)))
      (ies_agrupado f df).

(** Line 193. *)
Definition ies_stats (f : Filtros) (df : list registro) : list linha_ies :=
  sort_values_desc (ies_com_share f df).

(** Line 196. *)
Definition top_ies (f : Filtros) (df : list registro) : list linha_ies :=
  firstn 15 (ies_stats f df).

(** Lines 233-234: the full table with its [Ranking] column. *)
Definition ies_stats_ranking (f : Filtros) (df : list registro) : list (Z * linha_ies) :=
  combine (map Z.of_nat (seq 1 (List.length (ies_stats f df)))) (ies_stats f df).

(** Lines 182-234: nothing is computed for an empty selection. *)
Definition ranking_exibido (f : Filtros) (df : list registro)
  : option (list linha_ies * list (Z * linha_ies)) :=
  if truthy (filtered_df f df) then Some (top_ies f df, ies_stats_ranking f df)
  else None.

End Ranking.

(** The sum of the defined shares of a table (pandas' [sum] skips NaN). *)
Definition soma_shares (l : list linha_ies) : Z :=
  soma (map (fun r => match market_share r with Some s => s | None => 0 end) l).

(* ================================================================= *)
(** ** Tightening a filter *)

(** The total of the time-series table. *)
Definition total_serie (f : Filtros) (df : list registro) : Z :=
  soma (map snd (grouped_df f df)).

(** Unselecting a value in a multiselect. *)
Definition remover (v : string) (l : list string) : list string :=
  filter (fun x => negb (String.eqb x v)) l.

Definition remover_opt (v : option string) (l : list (option string))
  : list (option string) :=
  filter (fun x => negb (opt_eqb x v)) l.

(** [remove_um f f']: [f'] is [f] with one value removed from the allowed
    set of one of the five categorical filters. *)
Inductive remove_um (f : Filtros) : Filtros -> Prop :=
| remove_estado (v : option string) :
    remove_um f (mkFiltros (dimensao f) (metrica f) (remover_opt v (estados f))
                   (municipios f) (coredes f) (ies_list f) (status_juridico f)
                   (ano_range f))
| remove_municipio (v : option string) :
    remove_um f (mkFiltros (dimensao f) (metrica f) (estados f)
                   (remover_opt v (municipios f)) (coredes f) (ies_list f)
                   (status_juridico f) (ano_range f))
| remove_corede (v : string) :
    remove_um f (mkFiltros (dimensao f) (metrica f) (estados f) (municipios f)
                   (remover v (coredes f)) (ies_list f) (status_juridico f)
                   (ano_range f))
| remove_ies (v : string) :
    remove_um f (mkFiltros (dimensao f) (metrica f) (estados f) (municipios f)
                   (coredes f) (remover v (ies_list f)) (status_juridico f)
                   (ano_range f))
| remove_status (v : string) :
    remove_um f (mkFiltros (dimensao f) (metrica f) (estados f) (municipios f)
                   (coredes f) (ies_list f) (remover v (status_juridico f))
                   (ano_range f)).

(** No allowed set of [f] has been emptied in [f']. *)
Definition nao_esvazia (f f' : Filtros) : Prop :=
  truthy (estados f') = truthy (estados f)
  /\ truthy (municipios f') = truthy (municipios f)
  /\ truthy (coredes f') = truthy (coredes f)
  /\ truthy (ies_list f') = truthy (ies_list f)
  /\ truthy (status_juridico f') = truthy (status_juridico f).

(** Example data: one program in two states. *)
Definition reg (ano : Z) (uf ies prog : string) (d dp m mp : Z) : registro :=
  {| Ano := Some ano; Estado := Some uf; Municipio := Some "Porto Alegre";
     COREDE := "NA"; IES := ies; Status_Juridico := "Pública";
     Programa := Some prog; Area_de_Avaliacao := Some "Química";
     Area_de_Conhecimento := Some "Química";
     Doutorado := d; Doutorado_Profissional := dp;
     Mestrado := m; Mestrado_Profissional := mp |}.

Definition sem_filtros (d : Dimensao) (m : Metrica) (lo hi : Z) : Filtros :=
  mkFiltros d m [] [] [] [] [] (lo, hi).

Definition df_dois_estados : list registro :=
  [ reg 2020 "RS" "UFRGS" "Física" 10 0 20 0;
    reg 2020 "SC" "UFSC" "Física" 7 0 5 0;
    reg 2021 "RS" "UFRGS" "Física" 12 0 25 0 ].

Definition so_RS : Filtros :=
  mkFiltros DimPrograma MTotalMatriculados [Some "RS"] [] [] [] [] (2020, 2021).

Definition RS_e_SC : Filtros :=
  mkFiltros DimPrograma MTotalMatriculados [Some "RS"; Some "SC"] [] [] [] [] (2020, 2021).

(* ================================================================= *)
(** ** Example data for the ranking *)

(** Institutions A, B and C with 300, 100 and 0 doctoral enrollments. *)
Definition df_ABC : list registro :=
  [ reg 2020 "RS" "A" "Física" 100 0 0 0;
    reg 2021 "RS" "A" "Física" 200 0 0 0;
    reg 2020 "RS" "B" "Física" 100 0 0 0;
    reg 2020 "RS" "C" "Física" 0 0 0 0 ].

Definition f_doutorado : Filtros := sem_filtros DimPrograma MDoutorado 2018 2023.

(** Thirty-one institutions ("A", "B", ...) with one doctoral enrollment each. *)
Definition df_31_ies : list registro :=
  map (fun i => reg 2020 "RS" (String (ascii_of_nat (65 + i)) EmptyString) "Física" 1 0 0 0)
      (seq 0 31).

(** Sixteen institutions with ten doctoral enrollments each. *)
Definition df_16_ies : list registro :=
  map (fun i => reg 2020 "RS" (String (ascii_of_nat (65 + i)) EmptyString) "Física" 10 0 0 0)
      (seq 0 16).

(* ================================================================= *)
(** ** Example data for the growth rate *)

(** Two programs observed in 2019 and 2020. *)
Definition df_dois_programas : list registro :=
  [ reg 2019 "RS" "UFRGS" "Física" 100 0 0 0;
    reg 2019 "RS" "UFRGS" "Química" 50 0 0 0;
    reg 2020 "RS" "UFRGS" "Física" 121 0 0 0;
    reg 2020 "RS" "UFRGS" "Química" 30 0 0 0 ].

(** One program: 100 enrollments in 2019 and 121 in 2020. *)
Definition df_um_programa : list registro :=
  [ reg 2019 "RS" "UFRGS" "Física" 100 0 0 0;
    reg 2020 "RS" "UFRGS" "Física" 121 0 0 0 ].

(** A year range that selects nothing in the example data. *)
Definition f_vazio : Filtros := sem_filtros DimPrograma MDoutorado 1990 1991.

(** The year of a row of the time-series table. *)
Definition ano_linha (kv : (Z * string) * Z) : Z := fst (fst kv).

(* ================================================================= *)
(** ** Canonical frames *)

Definition is_numero (c : cell) : Prop := exists z, c = Num z.
Definition is_int64 (c : cell) : Prop := exists z, c = Num z /\ in_int64 z = true.
Definition is_texto (c : cell) : Prop := exists s, c = Str s.
Definition nao_nulo (c : cell) : Prop := isna c = false.
Definition numero_ou_nan (c : cell) : Prop := c = NaN \/ is_numero c.

(** The frame has a column [label] whose cells all satisfy [P]. *)
Definition coluna_tal (P : cell -> Prop) (label : string) (df : DataFrame) : Prop :=
  exists col, find_col label (columns df) = Some col /\ Forall P col.

(** What [carregar_dados] establishes. *)
Definition canonico (df : DataFrame) : Prop :=
  coluna_tal numero_ou_nan "Ano" df
  /\ Forall (fun l => lookup_label l mapa_colunas = None) (labels df)
  /\ coluna_tal is_texto "COREDE" df
  /\ Forall (fun l => coluna_tal is_int64 l df) colunas_matriculados
  /\ coluna_tal nao_nulo "IES" df
  /\ coluna_tal nao_nulo "Status Jurídico" df.

(** How [fillna(0).astype(int)] turns a source cell into a count. *)
Definition convertido {py : PyConv} (src out : cell) : Prop :=
  match src with
  | NaN | PyNone => out = Num 0
  | Num z => out = Num z
  | Str s => exists z, int_str s = Some z /\ out = Num z
  end.

(** A source cell that converts to a count that is not negative. *)
Definition fonte_nao_negativa {py : PyConv} (src : cell) : Prop :=
  match src with
  | NaN | PyNone => True
  | Num z => 0 <= z
  | Str s => forall z, int_str s = Some z -> 0 <= z
  end.

(** Conversions for plain signed decimal numerals, to run the normalizer on
    examples. *)
Definition decimal_of_string (s : string) : option Z :=
  option_map Z.of_int (NilZero.int_of_string s).

#[global] Instance py_decimal : PyConv := {|
  to_numeric_str := decimal_of_string;
  int_str := decimal_of_string;
  str_num := fun z => NilZero.string_of_int (Z.to_int z)
|}.

(** A raw frame of two rows with the expected columns and no nulls. *)
Definition raw_base : list (string * column) :=
  [ ("Ano", [Str "2020"; Num 2021]);
    ("UF", [Str "RS"; Str "SC"]);
    ("Doutorado - Matriculado", [Num 10; Num 12]);
    ("Doutorado Profissional - Matriculado", [NaN; Num 1]);
    ("Mestrado - Matriculado", [Num 20; PyNone]);
    ("Mestrado Profissional - Matriculado", [Num 0; Num 3]) ].

Definition raw_completo : DataFrame :=
  mkDataFrame 2 (raw_base ++ [ ("COREDE", [Str "Sul"; NaN]);
                               ("IES", [Str "UFRGS"; PyNone]);
                               ("Status Jurídico", [NaN; Str "Pública"]) ]).

(** The regional zone is under a similar label and has a null. *)
Definition raw_corede_similar : DataFrame :=
  mkDataFrame 2 (raw_base ++ [ ("Nome COREDE", [Str "Sul"; NaN]) ]).

(** A negative count in the source. *)
Definition raw_negativo : DataFrame :=
  mkDataFrame 1 [ ("Ano", [Num 2020]);
                  ("Doutorado - Matriculado", [Num (-5)]);
                  ("Doutorado Profissional - Matriculado", [Num 0]);
                  ("Mestrado - Matriculado", [Num 0]);
                  ("Mestrado Profissional - Matriculado", [Num 0]) ].

(** A source without the professional master's column. *)
Definition raw_sem_coluna : DataFrame :=
  mkDataFrame 1 [ ("Ano", [Num 2020]);
                  ("Doutorado - Matriculado", [Num 5]);
                  ("Doutorado Profissional - Matriculado", [Num 0]);
                  ("Mestrado - Matriculado", [Num 0]) ].

(* ================================================================= *)
(** ** The widgets: options, slider bounds and the first run *)

(** [Series.unique()]: the distinct values in order of first appearance. *)
Fixpoint unique {A : Type} (eqb : A -> A -> bool) (l : list A) : list A :=
  match l with
  | [] => []
  | x :: t => x :: filter (fun y => negb (eqb y x)) (unique eqb t)
  end.

(** [sorted(...)] on strings. *)
Fixpoint insert_str (x : string) (l : list string) : list string :=
  match l with
  | [] => [x]
  | y :: t => if String.leb x y then x :: l else y :: insert_str x t
  end.

Definition sorted_str (l : list string) : list string := fold_right insert_str [] l.

(** Lines 114-120: what each multiselect offers. *)
Definition opcoes_estados (df : list registro) : list (option string) :=
  unique opt_eqb (map Estado df).

Definition opcoes_municipios (df : list registro) : list (option string) :=
  unique opt_eqb (map Municipio df).

Definition opcoes_coredes (df : list registro) : list string :=
  unique String.eqb (map COREDE df).

Definition opcoes_ies (df : list registro) : list string :=
  sorted_str (unique String.eqb (map IES df)).

Definition opcoes_status (df : list registro) : list string :=
  sorted_str (unique String.eqb (map Status_Juridico df)).

(** [Series.min()] and [Series.max()] skip nulls; the result is NaN ([None])
    when no value is left. *)
Fixpoint serie_min (s : list (option Z)) : option Z :=
  match s with
  | [] => None
  | x :: t =>
      match x, serie_min t with
      | Some a, Some b => Some (Z.min a b)
      | Some a, None => Some a
      | None, m => m
      end
  end.

Fixpoint serie_max (s : list (option Z)) : option Z :=
  match s with
  | [] => None
  | x :: t =>
      match x, serie_max t with
      | Some a, Some b => Some (Z.max a b)
      | Some a, None => Some a
      | None, m => m
      end
  end.

(** [int(x)] on a float raises on NaN. *)
Definition int_float (x : option Z) : result Z :=
  match x with
  | Some z => Ok z
  | None => Raise ValueError
  end.

(** [st.sidebar.slider(label, min_value, max_value, value)] on its first
    run: Streamlit refuses bounds that are not in increasing order, and
    otherwise returns the initial value. *)
Definition slider (min_value max_value : Z) (value : Z * Z) : result (Z * Z) :=
  if min_value <? max_value then Ok value else Raise StreamlitAPIException.

(** Line 123: the bounds of the year slider, which are also its initial
    value. *)
Definition ano_limites (df : list registro) : result (Z * Z) :=
  lo <- int_float (serie_min (map Ano df)) ;;
  hi <- int_float (serie_max (map Ano df)) ;;
  slider lo hi (lo, hi).

(** Lines 107-123 with the widgets at their initial values: nothing is
    selected in the multiselects and the slider is given its two bounds as
    value. *)
Definition filtros_iniciais (d : Dimensao) (m : Metrica) (df : list registro)
  : result Filtros :=
  lim <- ano_limites df ;;
  Ok (mkFiltros d m [] [] [] [] [] lim).

(** A record of year [a] and dimension value [v]. *)
Definition na_celula (d : Dimensao) (a : Z) (v : string) (r : registro) : bool :=
  match chave_serie d r with
  | Some (a', v') => (a' =? a) && String.eqb v' v
  | None => false
  end.

Definition tem_ano (r : registro) : bool :=
  match Ano r with
  | Some _ => true
  | None => false
  end.

(** The same filter spec with another metric. *)
Definition com_metrica (f : Filtros) (m : Metrica) : Filtros :=
  mkFiltros (dimensao f) m (estados f) (municipios f) (coredes f) (ies_list f)
            (status_juridico f) (ano_range f).

(** Example data with a null program and a null year. *)
Definition df_com_nulos : list registro :=
  [ reg 2020 "RS" "UFRGS" "Física" 10 1 20 2;
    mkRegistro (Some 2021) (Some "RS") None "NA" "UFSC" "Privada" None
               (Some "Química") None 5 0 7 0;
    mkRegistro None None None "NA" "UFSC" "Privada" (Some "Física")
               None None 3 0 0 0 ].

(* ================================================================= *)
(** ** The normalizer seen from the source frame *)

(** A cell that [fillna(0).astype(int)] converts without raising: a null,
    an [int64] number, or a string that [int] reads as one. *)
Definition conversivel {py : PyConv} (c : cell) : Prop :=
  match c with
  | NaN | PyNone => True
  | Num z => in_int64 z = true
  | Str s => exists z, int_str s = Some z /\ in_int64 z = true
  end.

(** A string that [int] rejects, and an integer outside [int64]. *)
Definition nao_numeral {py : PyConv} (c : cell) : Prop :=
  match c with
  | Str s => int_str s = None
  | _ => False
  end.

Definition fora_de_int64 {py : PyConv} (c : cell) : Prop :=
  match c with
  | Num z => in_int64 z = false
  | Str s => exists z, int_str s = Some z /\ in_int64 z = false
  | _ => False
  end.

(** A source as a parquet file gives it: the labels of the columns are
    distinct, and the numbers of the enrollment columns are [int64] values
    (a float column is converted by [astype(int)] without a range check). *)
Definition numero_em_int64 (c : cell) : Prop :=
  match c with
  | Num z => in_int64 z = true
  | _ => True
  end.

Definition fonte_int64 (raw : DataFrame) : Prop :=
  Forall (fun l => forall src, find_col l (columns raw) = Some src ->
                               Forall numero_em_int64 src)
         colunas_matriculados.

(** A source with a numeral that [int] reads and [int64] cannot hold. *)
Definition raw_estouro : DataFrame :=
  mkDataFrame 1 [ ("Ano", [Num 2020]);
                  ("Doutorado - Matriculado", [Str "9223372036854775808"]);
                  ("Doutorado Profissional - Matriculado", [Num 0]);
                  ("Mestrado - Matriculado", [Num 0]);
                  ("Mestrado Profissional - Matriculado", [Num 0]) ].

(** Every column has one cell per row. *)
Definition bem_formado (df : DataFrame) : Prop :=
  Forall (fun nc => List.length (snd nc) = nrows df) (columns df).

(** The label a column bears after [rename(columns=mapa_colunas)]. *)
Definition renomeado (l : string) : string :=
  match lookup_label l mapa_colunas with
  | Some n => n
  | None => l
  end.

(** The tests of lines 63, 82 and 90 on a label. *)
Definition parece_corede (col : string) : bool := contains "COREDE" col.

Definition parece_ies (col : string) : bool :=
  contains "IES" col || contains "Instituição" col.

Definition parece_status (col : string) : bool :=
  contains "Status" col || contains "Jurídico" col || contains "Categoria" col.

(** The [COREDE] column of lines 61-69, read off a frame: the column of that
    name with its nulls filled, else the first column whose label contains
    "COREDE", else the default; always printed as strings. *)
Definition coluna_corede {py : PyConv} (df : DataFrame) : column :=
  match find_col "COREDE" (columns df) with
  | Some src => map astype_str (fillna (Str "NA") src)
  | None =>
      match filter parece_corede (labels df) with
      | c0 :: _ =>
          match find_col c0 (columns df) with
          | Some src => map astype_str src
          | None => []
          end
      | [] => repeat (Str "NA") (nrows df)
      end
  end.

(** The column of lines 80-94, read off a frame: the column of that name,
    else the first column whose label passes the test, else the default. *)
Definition coluna_garantida (label : string) (parece : string -> bool) (df : DataFrame)
  : column :=
  match find_col label (columns df) with
  | Some src => src
  | None =>
      match filter parece (labels df) with
      | c0 :: _ =>
          match find_col c0 (columns df) with
          | Some src => src
          | None => []
          end
      | [] => repeat (Str "Não informado") (nrows df)
      end
  end.

(** [deriva parece raw d]: [d] is the source frame [raw] after the year
    conversion and the renaming, followed by assignments to columns whose
    labels do not pass the test [parece]. *)
Inductive deriva {py : PyConv} (parece : string -> bool) (raw : DataFrame)
  : DataFrame -> Prop :=
| deriva_base (ano : column) :
    find_col "Ano" (columns raw) = Some ano ->
    deriva parece raw (rename mapa_colunas (setitem raw "Ano" (map to_numeric_coerce ano)))
| deriva_setitem (d : DataFrame) (l : string) (c : column) :
    deriva parece raw d -> parece l = false -> deriva parece raw (setitem d l c).

(** The labels that the renaming consumes or produces do not pass the test. *)
Definition alheio_ao_mapa (parece : string -> bool) : Prop :=
  Forall (fun kv => parece (fst kv) = false /\ parece (snd kv) = false) mapa_colunas.

(** A well-formed source whose institution is under a similar label. *)
Definition raw_ies_similar : DataFrame :=
  mkDataFrame 2 (raw_base ++ [ ("Nome da Instituição", [PyNone; Str "UFSC"]);
                               ("Categoria Administrativa", [Str "Pública"; NaN]) ]).

(** The labels the normalizer assigns to after the renaming. *)
Definition rotulos_atribuidos : list string :=
  ("COREDE" :: colunas_matriculados ++ ["IES"; "Status Jurídico"])%list.

(** The columns the normalizer appends: those of [COREDE], [IES] and
    [Status Jurídico] that the source lacks. *)
Definition novas_colunas (raw : DataFrame) : list string :=
  filter (fun l => negb (has_col l raw)) ["COREDE"; "IES"; "Status Jurídico"].

(** Fifteen institutions with ten doctoral enrollments each and one whose
    count is -140 (a negative count of the source is kept by the normalizer). *)
Definition df_15_e_negativo : list registro :=
  (map (fun i => reg 2020 "RS" (String (ascii_of_nat (65 + i)) EmptyString) "Física" 10 0 0 0)
       (seq 0 15)
   ++ [ reg 2020 "RS" "P" "Física" (-140) 0 0 0 ])%list.

(* ================================================================= *)
(** * Properties *)

(** ** The filter step *)

Lemma filter_filter_andb {A : Type} (p q : A -> bool) (l : list A) :
  filter q (filter p l) = filter (fun x => p x && q x) l.
Proof.
  induction l as [|a l IH]; simpl; [reflexivity|].
  destruct (p a); simpl; [destruct (q a)|]; now rewrite IH.
Qed.

Lemma filter_ext_in_list {A : Type} (p q : A -> bool) (l : list A) :
  (forall x, In x l -> p x = q x) -> filter p l = filter q l.
Proof.
  induction l as [|a l IH]; intros E; simpl; [reflexivity|].
  rewrite (E a (or_introl eq_refl)), IH; [reflexivity|].
  intros x Hx. apply E. now right.
Qed.

Lemma opt_eqb_eq (a b : option string) : opt_eqb a b = true <-> a = b.
Proof.
  destruct a as [x|], b as [y|]; simpl; try (split; congruence).
  rewrite String.eqb_eq. split; congruence.
Qed.

Lemma isin_In (x : string) (l : list string) : isin x l = true <-> In x l.
Proof.
  unfold isin. rewrite existsb_exists. split.
  - intros [y [Hy E]]. apply String.eqb_eq in E. now subst.
  - intros Hx. exists x. split; [assumption | apply String.eqb_refl].
Qed.

Lemma isin_opt_In (x : option string) (l : list (option string)) :
  isin_opt x l = true <-> In x l.
Proof.
  unfold isin_opt. rewrite existsb_exists. split.
  - intros [y [Hy E]]. apply opt_eqb_eq in E. now subst.
  - intros Hx. exists x. split; [assumption | now apply opt_eqb_eq].
Qed.

Lemma filter_if_truthy {A B : Type} (mem : B -> list B -> bool) (proj : A -> B)
  (allowed : list B) (l : list A) :
  (if truthy allowed then filter (fun r => mem (proj r) allowed) l else l)
  = filter (fun r => permitido mem (proj r) allowed) l.
Proof.
  unfold permitido. destruct allowed as [|b allowed]; simpl.
  - induction l as [|a l IH]; simpl; congruence.
  - reflexivity.
Qed.

Lemma filtered_df_passa (f : Filtros) (df : list registro) :
  filtered_df f df = filter (passa f) df.
Proof.
  unfold filtered_df, passa. cbv zeta.
  rewrite (filter_if_truthy isin Status_Juridico), (filter_if_truthy isin IES),
    (filter_if_truthy isin COREDE), (filter_if_truthy isin_opt Municipio),
    (filter_if_truthy isin_opt Estado).
  rewrite !filter_filter_andb.
  apply filter_ext_in_list. intros r _. now rewrite !andb_assoc.
Qed.

Lemma permitido_spec {A : Type} (mem : A -> list A -> bool) (x : A) (allowed : list A) :
  (forall y l, mem y l = true <-> In y l) ->
  permitido mem x allowed = true <-> (allowed = [] \/ In x allowed).
Proof.
  intros Hmem. unfold permitido. destruct allowed as [|a allowed]; simpl.
  - split; [now left | reflexivity].
  - rewrite Hmem. split; [now right | intros [E|E]; [discriminate | assumption]].
Qed.

Lemma ano_no_intervalo_spec (f : Filtros) (r : registro) :
  ano_no_intervalo f r = true
  <-> exists a, Ano r = Some a /\ fst (ano_range f) <= a <= snd (ano_range f).
Proof.
  unfold ano_no_intervalo. destruct (Ano r) as [a|].
  - rewrite andb_true_iff, !Z.leb_le. split.
    + intros [H1 H2]. exists a. auto.
    + intros [a' [E H]]. injection E as ->. exact H.
  - split; [discriminate | intros [a [E _]]; discriminate].
Qed.

(** C2.  The filter retains exactly the records whose year lies in the
    inclusive range and whose state, municipality, COREDE, institution and
    legal status are each in the allowed set, a constraint with an empty set
    being skipped; the constraints are conjoined, the order of the records is
    kept, and emptying the five categorical selections leaves the year
    constraint alone. *)
Theorem filtered_df_retains_exactly (f : Filtros) (df : list registro) :
  filtered_df f df = filter (passa f) df
  /\ (forall r, In r (filtered_df f df) <->
        In r df
        /\ (exists a, Ano r = Some a /\ fst (ano_range f) <= a <= snd (ano_range f))
        /\ (estados f = [] \/ In (Estado r) (estados f))
        /\ (municipios f = [] \/ In (Municipio r) (municipios f))
        /\ (coredes f = [] \/ In (COREDE r) (coredes f))
        /\ (ies_list f = [] \/ In (IES r) (ies_list f))
        /\ (status_juridico f = [] \/ In (Status_Juridico r) (status_juridico f)))
  /\ filtered_df (sem_categoricos f) df = filter (ano_no_intervalo f) df.
Proof.
  split; [apply filtered_df_passa | split].
  - intros r. rewrite filtered_df_passa, filter_In. unfold passa.
    rewrite !andb_true_iff, ano_no_intervalo_spec.
    rewrite !(permitido_spec isin_opt) by apply isin_opt_In.
    rewrite !(permitido_spec isin) by apply isin_In.
    tauto.
  - reflexivity.
Qed.

(* ================================================================= *)
(** ** Group keys are totally ordered *)

Lemma ascii_compare_refl (a : ascii) : Ascii.compare a a = Eq.
Proof. unfold Ascii.compare. apply N.compare_refl. Qed.

Lemma ascii_compare_trans (a b c : ascii) :
  Ascii.compare a b = Lt -> Ascii.compare b c = Lt -> Ascii.compare a c = Lt.
Proof.
  unfold Ascii.compare. rewrite !N.compare_lt_iff. apply N.lt_trans.
Qed.

Lemma string_compare_refl (s : string) : String.compare s s = Eq.
Proof.
  induction s as [|a s IH]; simpl; [reflexivity|].
  now rewrite ascii_compare_refl.
Qed.

Lemma string_compare_trans (s1 s2 s3 : string) :
  String.compare s1 s2 = Lt -> String.compare s2 s3 = Lt -> String.compare s1 s3 = Lt.
Proof.
  revert s2 s3.
  induction s1 as [|a s1 IH]; intros [|b s2] [|c s3]; simpl; try congruence.
  destruct (Ascii.compare a b) eqn:Eab; try discriminate;
    destruct (Ascii.compare b c) eqn:Ebc; try discriminate; intros H1 H2.
  - apply Ascii.compare_eq_iff in Eab, Ebc. subst.
    rewrite ascii_compare_refl. eapply IH; eassumption.
  - apply Ascii.compare_eq_iff in Eab. subst. now rewrite Ebc.
  - apply Ascii.compare_eq_iff in Ebc. subst. now rewrite Eab.
  - now rewrite (ascii_compare_trans a b c).
Qed.

#[global] Instance Z_KeyOrder : KeyOrder Z.
Proof.
  split; unfold kcmp, Z_KeyCmp.
  - apply Z.compare_eq.
  - apply Z.compare_refl.
  - intros a b. apply Z.compare_antisym.
  - intros a b c. rewrite !Z.compare_lt_iff. apply Z.lt_trans.
Qed.

#[global] Instance string_KeyOrder : KeyOrder string.
Proof.
  split; unfold kcmp, string_KeyCmp.
  - apply String.compare_eq_iff.
  - apply string_compare_refl.
  - apply String.compare_antisym.
  - apply string_compare_trans.
Qed.

#[global] Instance pair_KeyOrder {A B : Type} `{KeyOrder A} `{KeyOrder B} : KeyOrder (A * B).
Proof.
  split; unfold kcmp, pair_KeyCmp.
  - intros [a1 b1] [a2 b2]; simpl.
    destruct (kcmp a1 a2) eqn:E1; try discriminate.
    intros E2. apply kcmp_eq in E1, E2. now subst.
  - intros [a b]; simpl. now rewrite !kcmp_refl.
  - intros [a1 b1] [a2 b2]; simpl.
    rewrite (kcmp_antisym a1 a2).
    destruct (kcmp a2 a1); simpl; auto using kcmp_antisym.
  - intros [a1 b1] [a2 b2] [a3 b3]; simpl.
    destruct (kcmp a1 a2) eqn:E12; try discriminate;
      destruct (kcmp a2 a3) eqn:E23; try discriminate; intros H12 H23.
    + apply kcmp_eq in E12, E23. subst. rewrite kcmp_refl.
      eapply kcmp_trans; eassumption.
    + apply kcmp_eq in E12. subst. now rewrite E23.
    + apply kcmp_eq in E23. subst. now rewrite E12.
    + now rewrite (kcmp_trans a1 a2 a3).
Qed.

(* ================================================================= *)
(** ** What [groupby(...).sum()] returns *)

Lemma soma_perm (l1 l2 : list Z) : Permutation l1 l2 -> soma l1 = soma l2.
Proof. induction 1; simpl; lia. Qed.

Lemma soma_nonneg (l : list Z) : Forall (fun z => 0 <= z) l -> 0 <= soma l.
Proof. induction 1; simpl; lia. Qed.

Section GroupByFacts.
Context {K : Type} `{KeyOrder K}.

Lemma kcmp_Gt_Lt (a b : K) : kcmp a b = Gt <-> kcmp b a = Lt.
Proof.
  rewrite (kcmp_antisym a b). destruct (kcmp b a); simpl; split; congruence.
Qed.

Lemma soma_add_group (k : K) (v : Z) (g : list (K * Z)) :
  soma (map snd (add_group k v g)) = soma (map snd g) + v.
Proof.
  induction g as [|[k' v'] g IH]; simpl; [lia|].
  destruct (kcmp k k'); simpl; lia.
Qed.

Lemma soma_groupby_sum {R : Type} (key : R -> option K) (val : R -> Z) (rows : list R) :
  soma (map snd (groupby_sum key val rows)) = soma (map val (filter (has_key key) rows)).
Proof.
  induction rows as [|r rows IH]; simpl; [reflexivity|].
  unfold has_key. destruct (key r) as [k|]; simpl; [|exact IH].
  rewrite soma_add_group. fold (groupby_sum key val rows). unfold has_key in IH. lia.
Qed.

Lemma keys_add_group (k : K) (v : Z) (g : list (K * Z)) (x : K) :
  In x (map fst (add_group k v g)) <-> x = k \/ In x (map fst g).
Proof.
  induction g as [|[k' v'] g IH]; simpl; [intuition congruence|].
  destruct (kcmp k k') eqn:E; simpl.
  - apply kcmp_eq in E. subst. intuition congruence.
  - intuition congruence.
  - rewrite IH. intuition congruence.
Qed.

Lemma add_group_sorted (k : K) (v : Z) (g : list (K * Z)) :
  StronglySorted key_lt g -> StronglySorted key_lt (add_group k v g).
Proof.
  induction 1 as [|[k' v'] g Hs IH Hall]; simpl.
  - repeat constructor.
  - destruct (kcmp k k') eqn:E.
    + apply kcmp_eq in E. subst. constructor; [assumption|].
      eapply Forall_impl; [|exact Hall]. intros a Ha. exact Ha.
    + constructor; [now constructor|]. constructor; [exact E|].
      eapply Forall_impl; [|exact Hall]. intros a Ha.
      unfold key_lt in *. simpl in *. eapply kcmp_trans; eassumption.
    + constructor; [exact IH|].
      apply Forall_forall. intros [k2 v2] Hin.
      assert (Hk : In k2 (map fst (add_group k v g)))
        by (apply in_map_iff; exists (k2, v2); auto).
      apply keys_add_group in Hk. unfold key_lt; simpl.
      destruct Hk as [->|Hk]; [now apply kcmp_Gt_Lt|].
      rewrite Forall_forall in Hall. apply in_map_iff in Hk.
      destruct Hk as [[k3 v3] [E3 Hin3]]. simpl in E3. subst k3.
      exact (Hall _ Hin3).
Qed.

Lemma groupby_sum_sorted {R : Type} (key : R -> option K) (val : R -> Z) (rows : list R) :
  StronglySorted key_lt (groupby_sum key val rows).
Proof.
  induction rows as [|r rows IH]; simpl; [constructor|].
  destruct (key r); [now apply add_group_sorted | exact IH].
Qed.

Lemma sorted_lookup_none (k : K) (g : list (K * Z)) :
  Forall (fun a => kcmp k (fst a) = Lt) g -> lookup_group k g = None.
Proof.
  induction 1 as [|[k' v'] g Hk _ IH]; simpl; [reflexivity|].
  simpl in Hk. now rewrite Hk.
Qed.

Lemma lookup_add_group_same (k : K) (v : Z) (g : list (K * Z)) :
  StronglySorted key_lt g ->
  lookup_group k (add_group k v g)
  = Some (match lookup_group k g with Some w => w + v | None => v end).
Proof.
  induction 1 as [|[k' v'] g Hs IH Hall]; simpl.
  - now rewrite kcmp_refl.
  - destruct (kcmp k k') eqn:E; simpl.
    + now rewrite E.
    + rewrite kcmp_refl. rewrite sorted_lookup_none; [reflexivity|].
      eapply Forall_impl; [|exact Hall]. intros a Ha.
      unfold key_lt in Ha. simpl in Ha. eapply kcmp_trans; eassumption.
    + rewrite E. exact IH.
Qed.

Lemma lookup_add_group_other (k k' : K) (v : Z) (g : list (K * Z)) :
  k' <> k -> lookup_group k' (add_group k v g) = lookup_group k' g.
Proof.
  intros N. induction g as [|[k2 v2] g IH]; simpl.
  - destruct (kcmp k' k) eqn:E; try reflexivity. now apply kcmp_eq in E.
  - destruct (kcmp k k2) eqn:E; simpl.
    + apply kcmp_eq in E. subst k2.
      destruct (kcmp k' k) eqn:E'; try reflexivity. now apply kcmp_eq in E'.
    + destruct (kcmp k' k) eqn:E'; try reflexivity. now apply kcmp_eq in E'.
    + now rewrite IH.
Qed.

(** Each group's value is the sum of the rows of that group, and there is a
    group for each key observed. *)
Lemma lookup_groupby_sum {R : Type} (key : R -> option K) (val : R -> Z)
  (rows : list R) (k : K) :
  lookup_group k (groupby_sum key val rows)
  = if existsb (is_key key k) rows
    then Some (soma (map val (filter (is_key key k) rows)))
    else None.
Proof.
  induction rows as [|r rows IH]; simpl; [reflexivity|].
  unfold is_key at 1 3. destruct (key r) as [k'|] eqn:Ek; simpl; [|exact IH].
  fold (groupby_sum key val rows).
  destruct (kcmp k k') eqn:E.
  - apply kcmp_eq in E. subst k'. simpl.
    rewrite lookup_add_group_same by apply groupby_sum_sorted.
    rewrite IH. destruct (existsb (is_key key k) rows) eqn:Ex.
    + f_equal. lia.
    + f_equal.
      assert (Hf : filter (is_key key k) rows = []).
      { clear -Ex. induction rows as [|a rows IH]; simpl in *; [reflexivity|].
        apply orb_false_iff in Ex. destruct Ex as [-> Ex]. auto. }
      rewrite Hf. simpl. lia.
  - rewrite lookup_add_group_other; [exact IH|].
    intros ->. now rewrite kcmp_refl in E.
  - rewrite lookup_add_group_other; [exact IH|].
    intros ->. now rewrite kcmp_refl in E.
Qed.

Lemma sorted_keys_NoDup (g : list (K * Z)) :
  StronglySorted key_lt g -> NoDup (map fst g).
Proof.
  induction 1 as [|[k v] g Hs IH Hall]; simpl; constructor; [|exact IH].
  intros Hin. apply in_map_iff in Hin. destruct Hin as [[k' v'] [E Hin]].
  simpl in E. subst k'. rewrite Forall_forall in Hall.
  specialize (Hall _ Hin). unfold key_lt in Hall. simpl in Hall.
  now rewrite kcmp_refl in Hall.
Qed.

Lemma sorted_In_lookup (g : list (K * Z)) (k : K) (v : Z) :
  StronglySorted key_lt g -> (In (k, v) g <-> lookup_group k g = Some v).
Proof.
  induction 1 as [|[k' v'] g Hs IH Hall]; simpl; [split; [tauto | discriminate]|].
  rewrite Forall_forall in Hall. destruct (kcmp k k') eqn:E.
  - apply kcmp_eq in E. subst k'. split.
    + intros [E|Hin]; [congruence|].
      specialize (Hall _ Hin). unfold key_lt in Hall. simpl in Hall.
      now rewrite kcmp_refl in Hall.
    + intros E. left. congruence.
  - rewrite <- IH. split; [|tauto].
    intros [E'|Hin]; [|assumption]. injection E' as -> ->. now rewrite kcmp_refl in E.
  - rewrite <- IH. split; [|tauto].
    intros [E'|Hin]; [|assumption]. injection E' as -> ->. now rewrite kcmp_refl in E.
Qed.

End GroupByFacts.

(* ================================================================= *)
(** ** Monotonicity of the time-series total *)

Lemma total_serie_filter (f : Filtros) (df : list registro) :
  total_serie f df
  = soma (map (coluna_metrica (metrica f))
            (filter (fun r => passa f r && has_key (chave_serie (dimensao f)) r) df)).
Proof.
  unfold total_serie, grouped_df.
  now rewrite soma_groupby_sum, filtered_df_passa, filter_filter_andb.
Qed.

Lemma soma_filter_mono {A : Type} (val : A -> Z) (p q : A -> bool) (l : list A) :
  (forall x, In x l -> 0 <= val x) ->
  (forall x, In x l -> p x = true -> q x = true) ->
  soma (map val (filter p l)) <= soma (map val (filter q l)).
Proof.
  induction l as [|a l IH]; intros Hpos Himp; simpl; [lia|].
  assert (IH' : soma (map val (filter p l)) <= soma (map val (filter q l))).
  { apply IH; intros x Hx; [apply Hpos | apply Himp]; now right. }
  specialize (Hpos a (or_introl eq_refl)). specialize (Himp a (or_introl eq_refl)).
  destruct (p a); simpl.
  - rewrite Himp by reflexivity. simpl. lia.
  - destruct (q a); simpl; lia.
Qed.

Lemma permitido_remove {A : Type} (mem : A -> list A -> bool) (eqb : A -> A -> bool)
  (x v : A) (l : list A) :
  (forall y l', mem y l' = true <-> In y l') ->
  truthy (filter (fun y => negb (eqb y v)) l) = truthy l ->
  permitido mem x (filter (fun y => negb (eqb y v)) l) = true ->
  permitido mem x l = true.
Proof.
  intros Hmem Ht. unfold permitido. rewrite Ht.
  destruct (truthy l); simpl; [|reflexivity].
  rewrite !Hmem, filter_In. tauto.
Qed.

Lemma remove_um_passa (f f' : Filtros) (r : registro) :
  remove_um f f' -> nao_esvazia f f' -> passa f' r = true -> passa f r = true.
Proof.
  intros Hr (He & Hm & Hc & Hi & Hs). unfold passa, ano_no_intervalo.
  destruct Hr; simpl in *; rewrite !andb_true_iff; intros H;
    repeat match goal with H : _ /\ _ |- _ => destruct H end;
    repeat split; try assumption.
  - eapply (permitido_remove isin_opt opt_eqb); eauto using isin_opt_In.
  - eapply (permitido_remove isin_opt opt_eqb); eauto using isin_opt_In.
  - eapply (permitido_remove isin String.eqb); eauto using isin_In.
  - eapply (permitido_remove isin String.eqb); eauto using isin_In.
  - eapply (permitido_remove isin String.eqb); eauto using isin_In.
Qed.

Lemma remove_um_same_choice (f f' : Filtros) :
  remove_um f f' -> dimensao f' = dimensao f /\ metrica f' = metrica f.
Proof. now destruct 1. Qed.

(** C7, as amended.  With enrollment counts that are not negative, removing
    one value from the allowed set of a single filter never increases the
    total of the time-series table, provided the removal does not empty that
    set (an empty set lifts the constraint). *)
Theorem total_serie_monotonic (f f' : Filtros) (df : list registro) :
  remove_um f f' ->
  nao_esvazia f f' ->
  (forall r, In r df -> 0 <= coluna_metrica (metrica f) r) ->
  total_serie f' df <= total_serie f df.
Proof.
  intros Hr Hne Hpos. rewrite !total_serie_filter.
  destruct (remove_um_same_choice f f' Hr) as [-> ->].
  apply soma_filter_mono; [exact Hpos|].
  intros r _. rewrite !andb_true_iff. intros [Hp Hk].
  split; [|exact Hk]. eapply remove_um_passa; eassumption.
Qed.

Lemma total_serie_monotonic_witness :
  total_serie so_RS df_dois_estados <= total_serie RS_e_SC df_dois_estados.
Proof.
  apply (total_serie_monotonic RS_e_SC so_RS df_dois_estados).
  - exact (remove_estado RS_e_SC (Some "SC")).
  - repeat split.
  - intros r Hr. simpl in Hr.
    repeat (destruct Hr as [<-|Hr]; [vm_compute; discriminate|]). contradiction.
Defined.

(** C7, as stated, fails: unselecting the only selected state empties the
    allowed set, which lifts the constraint, and the total grows from 67 to 79. *)
Lemma total_serie_grows_when_emptied :
  remove_um so_RS (sem_filtros DimPrograma MTotalMatriculados 2020 2021)
  /\ total_serie so_RS df_dois_estados = 67
  /\ total_serie (sem_filtros DimPrograma MTotalMatriculados 2020 2021) df_dois_estados = 79
  /\ ~ (forall f f' df, remove_um f f' -> total_serie f' df <= total_serie f df).
Proof.
  assert (Hr : remove_um so_RS (sem_filtros DimPrograma MTotalMatriculados 2020 2021))
    by exact (remove_estado so_RS (Some "RS")).
  repeat split; try assumption; try reflexivity.
  intros Hall. specialize (Hall _ _ df_dois_estados Hr). vm_compute in Hall.
  now apply Hall.
Qed.

(* ================================================================= *)
(** ** Sorting and rounding *)

Lemma insert_desc_perm (x : linha_ies) (l : list linha_ies) :
  Permutation (x :: l) (insert_desc x l).
Proof.
  induction l as [|y l IH]; simpl; [apply Permutation_refl|].
  destruct (ies_valor y <=? ies_valor x); [apply Permutation_refl|].
  eapply perm_trans; [apply perm_swap | apply perm_skip, IH].
Qed.

Lemma insert_desc_sorted (x : linha_ies) (l : list linha_ies) :
  Sorted (fun a b => ies_valor b <= ies_valor a) l ->
  Sorted (fun a b => ies_valor b <= ies_valor a) (insert_desc x l).
Proof.
  induction 1 as [|y l Hs IH Hhd]; simpl; [repeat constructor|].
  destruct (ies_valor y <=? ies_valor x) eqn:E.
  - apply Z.leb_le in E. repeat constructor; assumption.
  - apply Z.leb_gt in E. constructor; [exact IH|].
    destruct Hhd as [|z l Hz]; simpl.
    + constructor. lia.
    + destruct (ies_valor z <=? ies_valor x); constructor; lia.
Qed.

Lemma insertion_sort_desc_perm (l : list linha_ies) :
  Permutation l (insertion_sort_desc l).
Proof.
  induction l as [|x l IH]; simpl; [constructor|].
  eapply perm_trans; [apply perm_skip, IH | apply insert_desc_perm].
Qed.

Lemma insertion_sort_desc_sorted (l : list linha_ies) :
  Sorted (fun a b => ies_valor b <= ies_valor a) (insertion_sort_desc l).
Proof.
  induction l as [|x l IH]; simpl; [constructor|].
  now apply insert_desc_sorted.
Qed.

#[global] Instance insertion_SortValues : SortValues := {|
  sort_values_desc := insertion_sort_desc;
  sort_values_perm := insertion_sort_desc_perm;
  sort_values_sorted := insertion_sort_desc_sorted
|}.

(** [round_half_even n d] is an integer nearest to [n / d]. *)
Lemma round_half_even_nearest (n d : Z) :
  d <> 0 ->
  - Z.abs d <= 2 * (round_half_even n d * d - n) <= Z.abs d.
Proof.
  intros Hd. unfold round_half_even.
  set (n' := if d <? 0 then - n else n).
  assert (Hpos : 0 < Z.abs d) by lia.
  pose proof (Z.div_mod n' (Z.abs d) ltac:(lia)) as Hdm.
  pose proof (Z.mod_pos_bound n' (Z.abs d) Hpos) as Hb.
  set (q := n' / Z.abs d) in *. set (r := n' mod Z.abs d) in *.
  assert (Hn : n' * Z.sgn d = n).
  { unfold n'. destruct (Z.ltb_spec d 0); lia. }
  assert (Hq : forall k, 2 * (k * d - n) = 2 * Z.sgn d * (k * Z.abs d - n')).
  { intros k. rewrite <- Hn. destruct (Z.ltb_spec d 0).
    - rewrite (Z.sgn_neg d), (Z.abs_neq d) by lia. ring.
    - rewrite (Z.sgn_pos d), (Z.abs_eq d) by lia. ring. }
  assert (Hsg : Z.sgn d = 1 \/ Z.sgn d = -1) by lia.
  destruct (Z.ltb_spec (2 * r) (Z.abs d)); [|destruct (Z.ltb_spec (Z.abs d) (2 * r));
    [|destruct (Z.even q)]]; rewrite Hq; destruct Hsg as [-> | ->]; nia.
Qed.

Lemma round_half_even_mono (n n' d : Z) :
  0 < d -> n <= n' -> round_half_even n d <= round_half_even n' d.
Proof.
  intros Hd Hn. destruct (Z.eq_dec n n') as [->|Hne]; [lia|].
  pose proof (round_half_even_nearest n d ltac:(lia)) as H1.
  pose proof (round_half_even_nearest n' d ltac:(lia)) as H2.
  rewrite Z.abs_eq in H1, H2 by lia.
  set (r := round_half_even n d) in *. set (r' := round_half_even n' d) in *.
  destruct (Z_le_gt_dec r r') as [Hle|Hgt]; [exact Hle|]. exfalso. nia.
Qed.

Ltac potencias :=
  change (2 ^ 50) with 1125899906842624 in *;
  change (2 ^ 49) with 562949953421312 in *.

Lemma round_half_even_near (v total : Z) :
  total <> 0 ->
  2 ^ 50 * Z.abs (round_half_even (10000 * v) total * total - 10000 * v)
  <= 2 ^ 49 * Z.abs total + 10000 * Z.abs v.
Proof.
  intros HT. pose proof (round_half_even_nearest (10000 * v) total HT) as H.
  potencias. lia.
Qed.

Lemma round_half_even_mono_pct (v v' total : Z) :
  0 < total -> v <= v' ->
  round_half_even (10000 * v) total <= round_half_even (10000 * v') total.
Proof. intros HT Hv. apply round_half_even_mono; lia. Qed.

(** Exact arithmetic has the two facts asked of the double computation. *)
#[global] Instance exact_RoundPct : RoundPct := {|
  round_pct := fun v total => round_half_even (10000 * v) total;
  round_pct_near := round_half_even_near;
  round_pct_mono := round_half_even_mono_pct
|}.

Section RoundPctFacts.
Context {rp : RoundPct}.

Lemma round_pct_sum (T : Z) (vs : list Z) :
  T <> 0 ->
  2 ^ 50 * Z.abs (soma (map (fun v => round_pct v T) vs) * T - 10000 * soma vs)
  <= 2 ^ 49 * (Z.of_nat (List.length vs) * Z.abs T) + 10000 * soma (map Z.abs vs).
Proof.
  intros HT. induction vs as [|v vs IH]; [simpl; lia|].
  pose proof (round_pct_near v T HT) as Hv.
  cbn [List.length map soma fold_right]. fold (soma vs). fold (soma (map Z.abs vs)).
  fold (soma (map (fun v => round_pct v T) vs)).
  rewrite Nat2Z.inj_succ. potencias. lia.
Qed.

Lemma soma_abs_nonneg (vs : list Z) :
  Forall (fun z => 0 <= z) vs -> soma (map Z.abs vs) = soma vs.
Proof. induction 1 as [|v vs Hv _ IH]; simpl; [reflexivity|]. rewrite IH. lia. Qed.

Lemma round_pct_range (v T : Z) :
  0 < T -> 0 <= v <= T -> 0 <= round_pct v T <= 10000.
Proof.
  intros HT Hv. pose proof (round_pct_near v T ltac:(lia)) as H.
  rewrite (Z.abs_eq T), (Z.abs_eq v) in H by lia.
  set (s := round_pct v T) in *. potencias. split.
  - destruct (Z_lt_le_dec s 0) as [Hneg|]; [exfalso|assumption].
    assert (s * T <= - T) by nia. lia.
  - destruct (Z_le_gt_dec s 10000) as [|Hbig]; [assumption|exfalso].
    assert (10001 * T <= s * T) by nia. lia.
Qed.

(** Where the exact value is far enough from a tie, the share is known. *)
Lemma round_pct_determined (v T s : Z) :
  T <> 0 ->
  2 ^ 50 * Z.abs (s * T - 10000 * v) + 2 ^ 49 * Z.abs T + 10000 * Z.abs v
  < 2 ^ 50 * Z.abs T ->
  round_pct v T = s.
Proof.
  intros HT Hs. pose proof (round_pct_near v T HT) as H.
  set (r := round_pct v T) in *. potencias.
  destruct (Z.eq_dec r s) as [E|N]; [exact E|exfalso].
  assert (Hd : Z.abs T <= Z.abs ((r - s) * T)).
  { rewrite Z.abs_mul. assert (1 <= Z.abs (r - s)) by lia. nia. }
  replace ((r - s) * T) with ((r * T - 10000 * v) - (s * T - 10000 * v)) in Hd by ring.
  lia.
Qed.

End RoundPctFacts.

(* ================================================================= *)
(** ** The institutional ranking *)

Lemma is_key_IES (k : string) (r : registro) :
  is_key (fun r => Some (IES r)) k r = String.eqb (IES r) k.
Proof.
  unfold is_key, kcmp, string_KeyCmp.
  destruct (String.compare k (IES r)) eqn:E.
  - apply String.compare_eq_iff in E. subst. now rewrite String.eqb_refl.
  - destruct (String.eqb_spec (IES r) k) as [Heq|]; [|reflexivity].
    rewrite Heq, string_compare_refl in E. discriminate.
  - destruct (String.eqb_spec (IES r) k) as [Heq|]; [|reflexivity].
    rewrite Heq, string_compare_refl in E. discriminate.
Qed.

Lemma filter_true {A : Type} (p : A -> bool) (l : list A) :
  (forall x, p x = true) -> filter p l = l.
Proof.
  intros Hp. induction l as [|a l IH]; simpl; [reflexivity|].
  now rewrite Hp, IH.
Qed.

Lemma soma_firstn_le (n : nat) (l : list Z) :
  Forall (fun z => 0 <= z) l -> soma (firstn n l) <= soma l.
Proof.
  intros H. revert n. induction H as [|z l Hz Hl IH]; intros [|n]; simpl; try lia.
  - pose proof (soma_nonneg l Hl). lia.
  - specialize (IH n). lia.
Qed.

Lemma seq_ranking {A : Type} (l : list A) :
  map fst (combine (map Z.of_nat (seq 1 (List.length l))) l)
  = map Z.of_nat (seq 1 (List.length l))
  /\ map snd (combine (map Z.of_nat (seq 1 (List.length l))) l) = l.
Proof.
  generalize 1%nat. induction l as [|a l IH]; intros n; simpl; [auto|].
  destruct (IH (S n)) as [-> ->]. auto.
Qed.

Section RankingFacts.
Context {srt : SortValues} {rp : RoundPct}.
Variables (f : Filtros) (df : list registro).

Lemma ies_stats_perm : Permutation (ies_com_share f df) (ies_stats f df).
Proof. apply sort_values_perm. Qed.

Lemma ies_agrupado_sorted : StronglySorted key_lt (ies_agrupado f df).
Proof. apply groupby_sum_sorted. Qed.

Lemma total_geral_filtered :
  total_geral f df = soma (map (coluna_metrica (metrica f)) (filtered_df f df)).
Proof.
  unfold total_geral, ies_agrupado. rewrite soma_groupby_sum.
  now rewrite filter_true by reflexivity.
Qed.

Lemma ies_com_share_nomes : map ies_nome (ies_com_share f df) = map fst (ies_agrupado f df).
Proof. unfold ies_com_share. rewrite map_map. reflexivity. Qed.

Lemma ies_com_share_valores : map ies_valor (ies_com_share f df) = map snd (ies_agrupado f df).
Proof. unfold ies_com_share. rewrite map_map. reflexivity. Qed.

Lemma ies_stats_NoDup : NoDup (map ies_nome (ies_stats f df)).
Proof.
  eapply Permutation_NoDup; [apply Permutation_map, ies_stats_perm|].
  rewrite ies_com_share_nomes. apply sorted_keys_NoDup, ies_agrupado_sorted.
Qed.

Lemma ies_stats_total : soma (map ies_valor (ies_stats f df)) = total_geral f df.
Proof.
  rewrite <- (soma_perm _ _ (Permutation_map ies_valor ies_stats_perm)).
  now rewrite ies_com_share_valores.
Qed.

(** Every row of the ranked table is a group of the filtered records. *)
Lemma ies_stats_row (row : linha_ies) :
  In row (ies_stats f df) ->
  (exists r, In r (filtered_df f df) /\ IES r = ies_nome row)
  /\ ies_valor row
     = soma (map (coluna_metrica (metrica f))
               (filter (fun r => String.eqb (IES r) (ies_nome row)) (filtered_df f df)))
  /\ market_share row = market_share_pct (ies_valor row) (total_geral f df).
Proof.
  intros Hin.
  apply (Permutation_in _ (Permutation_sym ies_stats_perm)) in Hin.
  unfold ies_com_share in Hin. apply in_map_iff in Hin.
  destruct Hin as [[k v] [<- Hkv]]. simpl.
  apply (sorted_In_lookup _ _ _ ies_agrupado_sorted) in Hkv.
  unfold ies_agrupado in Hkv. rewrite lookup_groupby_sum in Hkv.
  destruct (existsb _ _) eqn:Ex; [|discriminate].
  injection Hkv as <-. apply existsb_exists in Ex. destruct Ex as [r [Hr Hk]].
  rewrite is_key_IES in Hk. apply String.eqb_eq in Hk.
  repeat split; [now exists r|].
  f_equal. f_equal. apply filter_ext_in_list. intros x _. apply is_key_IES.
Qed.

(** Every institution of the filtered records has a row. *)
Lemma ies_stats_covers (r : registro) :
  In r (filtered_df f df) -> In (IES r) (map ies_nome (ies_stats f df)).
Proof.
  intros Hr.
  apply (Permutation_in _ (Permutation_map ies_nome ies_stats_perm)).
  rewrite ies_com_share_nomes.
  assert (Hl : lookup_group (IES r) (ies_agrupado f df) <> None).
  { unfold ies_agrupado. rewrite lookup_groupby_sum.
    assert (Ex : existsb (is_key (fun r => Some (IES r)) (IES r)) (filtered_df f df) = true).
    { apply existsb_exists. exists r. split; [exact Hr|].
      rewrite is_key_IES. apply String.eqb_refl. }
    now rewrite Ex. }
  destruct (lookup_group _ _) as [v|] eqn:E; [|congruence].
  apply (sorted_In_lookup _ _ _ ies_agrupado_sorted) in E.
  apply in_map_iff. now exists (IES r, v).
Qed.

Lemma ies_stats_desc :
  StronglySorted (fun a b => ies_valor b <= ies_valor a) (ies_stats f df).
Proof.
  apply Sorted_StronglySorted; [|apply sort_values_sorted].
  intros a b c Hab Hbc. lia.
Qed.

Lemma ies_stats_nonneg :
  (forall r, In r df -> 0 <= coluna_metrica (metrica f) r) ->
  Forall (fun z => 0 <= z) (map ies_valor (ies_stats f df)).
Proof.
  intros Hpos. apply Forall_forall. intros z Hz. apply in_map_iff in Hz.
  destruct Hz as [row [<- Hrow]].
  destruct (ies_stats_row row Hrow) as (_ & -> & _).
  apply soma_nonneg, Forall_forall. intros v Hv. apply in_map_iff in Hv.
  destruct Hv as [r [<- Hr]]. apply Hpos.
  apply filter_In in Hr. destruct Hr as [Hr _].
  rewrite filtered_df_passa in Hr. apply filter_In in Hr. tauto.
Qed.

(** The shares of any rows of the table, when the grand total is not 0. *)
Lemma soma_shares_rows (rows : list linha_ies) :
  total_geral f df <> 0 ->
  (forall row, In row rows -> In row (ies_stats f df)) ->
  soma_shares rows
  = soma (map (fun v => round_pct v (total_geral f df)) (map ies_valor rows)).
Proof.
  intros HT Hsub. unfold soma_shares. rewrite map_map. f_equal.
  apply map_ext_in. intros row Hrow.
  destruct (ies_stats_row row (Hsub row Hrow)) as (_ & _ & ->).
  unfold market_share_pct. destruct (Z.eqb_spec (total_geral f df) 0); [contradiction|].
  reflexivity.
Qed.

Lemma soma_shares_zero_total (rows : list linha_ies) :
  total_geral f df = 0 ->
  (forall row, In row rows -> In row (ies_stats f df)) ->
  soma_shares rows = 0.
Proof.
  intros HT Hsub. unfold soma_shares.
  induction rows as [|row rows IH]; simpl; [reflexivity|].
  destruct (ies_stats_row row (Hsub row (or_introl eq_refl))) as (_ & _ & ->).
  unfold market_share_pct. rewrite HT. simpl.
  apply IH. intros x Hx. apply Hsub. now right.
Qed.

End RankingFacts.

Lemma In_firstn {A : Type} (n : nat) (l : list A) (x : A) :
  In x (firstn n l) -> In x l.
Proof.
  revert n. induction l as [|a l IH]; intros [|n]; simpl; try tauto.
  intros [E|H]; [now left | right; eapply IH; eassumption].
Qed.

Lemma NoDup_map_eq {A B : Type} (g : A -> B) (l : list A) (a b : A) :
  NoDup (map g l) -> In a l -> In b l -> g a = g b -> a = b.
Proof.
  induction l as [|x l IH]; simpl; [tauto|].
  intros Hnd. apply NoDup_cons_iff in Hnd. destruct Hnd as [Hx Hnd].
  intros [->|Ha] [->|Hb] E; auto.
  - exfalso. apply Hx. rewrite E. now apply in_map.
  - exfalso. apply Hx. rewrite <- E. now apply in_map.
Qed.

Lemma soma_shares_const (c : Z) (l : list linha_ies) :
  (forall row, In row l -> market_share row = Some c) ->
  soma_shares l = Z.of_nat (List.length l) * c.
Proof.
  unfold soma_shares. induction l as [|a l IH]; intros H; [reflexivity|].
  cbn [map soma fold_right List.length]. fold (soma (map (fun r => match market_share r with
    | Some s => s | None => 0 end) l)).
  rewrite (H a (or_introl eq_refl)), IH by (intros; apply H; now right). lia.
Qed.

(** The rows of the ranking are the groups with their shares, in some order. *)
Lemma ies_stats_In {srt : SortValues} {rp : RoundPct} (f : Filtros) (df : list registro)
  (row : linha_ies) :
  In row (ies_stats f df) ->
  exists k v, In (k, v) (ies_agrupado f df)
              /\ row = mkLinha k v (market_share_pct v (total_geral f df)).
Proof.
  intros Hin. apply (Permutation_in _ (Permutation_sym (ies_stats_perm f df))) in Hin.
  unfold ies_com_share in Hin. apply in_map_iff in Hin.
  destruct Hin as [[k v] [<- Hkv]]. exists k, v. auto.
Qed.

Lemma ies_stats_length {srt : SortValues} {rp : RoundPct} (f : Filtros) (df : list registro) :
  List.length (ies_stats f df) = List.length (ies_agrupado f df).
Proof.
  rewrite <- (Permutation_length (ies_stats_perm f df)).
  unfold ies_com_share. apply length_map.
Qed.




(** C6.  The ranking has one row per institution of the filtered records,
    carrying the sum of the metric over that institution's records; the rows
    are in descending order of that sum; the ranks are 1..K in that order; the
    display view is the first 15 rows and the full table is kept beside it. *)
Theorem ies_stats_ranked {srt : SortValues} {rp : RoundPct}
  (f : Filtros) (df : list registro) :
  NoDup (map ies_nome (ies_stats f df))
  /\ (forall i, In i (map ies_nome (ies_stats f df))
                <-> exists r, In r (filtered_df f df) /\ IES r = i)
  /\ (forall row, In row (ies_stats f df) ->
        ies_valor row
        = soma (map (coluna_metrica (metrica f))
                  (filter (fun r => String.eqb (IES r) (ies_nome row)) (filtered_df f df))))
  /\ StronglySorted (fun a b => ies_valor b <= ies_valor a) (ies_stats f df)
  /\ map fst (ies_stats_ranking f df)
     = map Z.of_nat (seq 1 (List.length (ies_stats f df)))
  /\ map snd (ies_stats_ranking f df) = ies_stats f df
  /\ top_ies f df = firstn 15 (ies_stats f df)
  /\ List.length (top_ies f df) = Nat.min 15 (List.length (ies_stats f df)).
Proof.
  split; [apply ies_stats_NoDup|].
  split.
  { intros i. split.
    - intros Hi. apply in_map_iff in Hi. destruct Hi as [row [<- Hrow]].
      now destruct (ies_stats_row f df row Hrow) as (Hr & _).
    - intros [r [Hr <-]]. now apply ies_stats_covers. }
  split.
  { intros row Hrow. now destruct (ies_stats_row f df row Hrow) as (_ & Hv & _). }
  split; [apply ies_stats_desc|].
  unfold ies_stats_ranking, top_ies.
  destruct (seq_ranking (ies_stats f df)) as [H1 H2].
  repeat split; try assumption. apply length_firstn.
Qed.

(** The scenario of the specification: A=300, B=100, C=0. *)
Example ies_stats_ABC :
  ies_stats_ranking f_doutorado df_ABC
  = [ (1, mkLinha "A" 300 (Some 7500));
      (2, mkLinha "B" 100 (Some 2500));
      (3, mkLinha "C" 0 (Some 0)) ]
  /\ map ies_nome (top_ies f_doutorado df_ABC) = ["A"; "B"; "C"].
Proof. split; reflexivity. Qed.



Lemma sorted_firstn_skipn {A : Type} (R : A -> A -> Prop) (n : nat) (l : list A) :
  StronglySorted R l ->
  forall x y, In x (firstn n l) -> In y (skipn n l) -> R x y.
Proof.
  intros Hs. revert n. induction Hs as [|a l Hs IH Hall]; intros n x y Hx Hy.
  - destruct n; contradiction.
  - destruct n as [|n]; [contradiction|]. simpl in Hx, Hy.
    destruct Hx as [<-|Hx].
    + rewrite Forall_forall in Hall. apply Hall.
      rewrite <- (firstn_skipn n l). apply in_or_app. now right.
    + eapply IH; eassumption.
Qed.

Lemma NoDup_firstn_skipn {A : Type} (n : nat) (l : list A) (x : A) :
  NoDup l -> In x (firstn n l) -> In x (skipn n l) -> False.
Proof.
  intros Hnd. revert n. induction Hnd as [|a l Ha Hnd IH]; intros [|n]; simpl; try tauto.
  intros [->|Hx] Hy; [|eapply IH; eassumption].
  apply Ha. rewrite <- (firstn_skipn n l). apply in_or_app. now right.
Qed.


(* ================================================================= *)
(** ** The growth rate *)

Lemma last_cons_default {A : Type} (a b : A) (t : list A) :
  last (b :: t) a = last t b.
Proof.
  revert a b. induction t as [|c t IH]; intros a b; [reflexivity|].
  change (last (b :: c :: t) a) with (last (c :: t) a).
  now rewrite (IH a c), (IH b c).
Qed.

Lemma iloc_last_map {A B : Type} (h : A -> B) (a : A) (t : list A) :
  iloc_last (map h (a :: t)) = Ok (h (last t a)).
Proof.
  revert a. induction t as [|b t IH]; intros a; [reflexivity|].
  change (iloc_last (map h (a :: b :: t))) with (iloc_last (map h (b :: t))).
  now rewrite IH, last_cons_default.
Qed.

Lemma last_In {A : Type} (a : A) (t : list A) : In (last t a) (a :: t).
Proof.
  revert a. induction t as [|b t IH]; intros a; [now left|].
  right. rewrite last_cons_default. apply IH.
Qed.

(** What [calcular_cagr] returns on the two columns of a table. *)
Lemma calcular_cagr_table (k0 : Z * string) (v0 : Z) (t : list ((Z * string) * Z)) :
  calcular_cagr (map (fun kv => Some (snd kv)) ((k0, v0) :: t))
                (map ano_linha ((k0, v0) :: t))
  = Ok (if (List.length t =? 0)%nat || (v0 =? 0)
           || (ano_linha (last t (k0, v0)) - fst k0 =? 0)
        then GZero
        else GRate (snd (last t (k0, v0))) v0 (ano_linha (last t (k0, v0)) - fst k0)).
Proof.
  unfold calcular_cagr. rewrite !iloc_last_map.
  destruct t as [|kv t]; [reflexivity|].
  cbn [map List.length Nat.ltb Nat.leb Nat.eqb orb iloc_first bind snd].
  destruct (v0 =? 0); [reflexivity|].
  cbn [orb ano_linha fst]. destruct (_ =? 0); reflexivity.
Qed.

Lemma key_lt_ano (a b : (Z * string) * Z) : key_lt a b -> ano_linha a <= ano_linha b.
Proof.
  unfold key_lt, kcmp, pair_KeyCmp, ano_linha.
  destruct (kcmp (fst (fst a)) (fst (fst b))) eqn:E; try discriminate; intros _.
  - apply kcmp_eq in E. lia.
  - assert (Hlt : fst (fst a) < fst (fst b)) by exact E. lia.
Qed.

Lemma key_lt_ano_strict (a b : (Z * string) * Z) :
  key_lt a b -> ano_linha a <> ano_linha b -> kcmp (ano_linha a) (ano_linha b) = Lt.
Proof.
  intros Hlt Hne. pose proof (key_lt_ano a b Hlt).
  unfold kcmp, Z_KeyCmp. apply Z.compare_lt_iff. lia.
Qed.

(** The table is ordered by year. *)
Lemma grouped_df_years (f : Filtros) (df : list registro) (k0 : Z * string) (v0 : Z)
  (t : list ((Z * string) * Z)) :
  grouped_df f df = (k0, v0) :: t ->
  forall kv, In kv t -> fst k0 <= ano_linha kv.
Proof.
  intros Eg kv Hkv.
  pose proof (groupby_sum_sorted (chave_serie (dimensao f)) (coluna_metrica (metrica f))
                (filtered_df f df)) as Hs.
  fold (grouped_df f df) in Hs. rewrite Eg in Hs.
  apply StronglySorted_inv in Hs. destruct Hs as [_ Hall].
  rewrite Forall_forall in Hall. exact (key_lt_ano _ _ (Hall kv Hkv)).
Qed.

(** Grouping rows whose keys already increase strictly changes nothing. *)
Lemma groupby_sum_sorted_rows {K R : Type} `{KeyOrder K} (key : R -> K) (val : R -> Z)
  (rows : list R) :
  StronglySorted (fun a b => kcmp (key a) (key b) = Lt) rows ->
  groupby_sum (fun r => Some (key r)) val rows = map (fun r => (key r, val r)) rows.
Proof.
  induction 1 as [|r rows Hs IH Hall]; simpl; [reflexivity|].
  fold (groupby_sum (fun r => Some (key r)) val rows). rewrite IH.
  destruct rows as [|r' rows]; [reflexivity|]. simpl.
  apply Forall_inv in Hall. now rewrite Hall.
Qed.

Lemma strict_years (g : list ((Z * string) * Z)) :
  StronglySorted key_lt g -> NoDup (map ano_linha g) ->
  StronglySorted (fun a b => kcmp (ano_linha a) (ano_linha b) = Lt) g.
Proof.
  induction 1 as [|a g Hs IH Hall]; simpl; intros Hnd; constructor.
  - apply IH. now apply NoDup_cons_iff in Hnd.
  - apply NoDup_cons_iff in Hnd. destruct Hnd as [Hnotin _].
    rewrite Forall_forall in Hall |- *. intros b Hb.
    apply key_lt_ano_strict; [now apply Hall|].
    intros E. apply Hnotin. rewrite E. now apply in_map.
Qed.

(** With one row per year the table is its own per-year collapse. *)
Lemma serie_anual_one_row_per_year (f : Filtros) (df : list registro) :
  NoDup (map ano_linha (grouped_df f df)) ->
  serie_anual f df = map (fun kv => (ano_linha kv, snd kv)) (grouped_df f df).
Proof.
  intros Hnd. unfold serie_anual.
  apply (groupby_sum_sorted_rows ano_linha snd).
  apply strict_years; [apply groupby_sum_sorted | exact Hnd].
Qed.

Lemma cagr_exibido_cons (f : Filtros) (df : list registro) (k0 : Z * string) (v0 : Z)
  (t : list ((Z * string) * Z)) :
  grouped_df f df = (k0, v0) :: t ->
  cagr_exibido f df
  = Ok (Some (if (List.length t =? 0)%nat || (v0 =? 0)
                 || (ano_linha (last t (k0, v0)) - fst k0 =? 0)
              then GZero
              else GRate (snd (last t (k0, v0))) v0
                         (ano_linha (last t (k0, v0)) - fst k0))).
Proof.
  intros Eg. unfold cagr_exibido. rewrite Eg. cbn [truthy].
  change (fun kv : Z * string * Z => fst (fst kv)) with ano_linha.
  now rewrite calcular_cagr_table.
Qed.

(** X23.  What the script reports as growth rate.  The rate is reported only
    for a non-empty time series and never raises.  It is computed from the rows
    of the time-series table (one row per year and dimension value, ordered by
    year): with the metric of the first and of the last row and their years it
    is (last/first)^(1/(last_year - first_year)) - 1, and exactly 0 when the
    table has one row, when the first row's value is 0 or when the two years
    are equal; so it is 0 whenever fewer than two distinct years are present,
    and it is the rate of the per-year totals whenever each year has one
    row. *)
Theorem cagr_exibido_rows (f : Filtros) (df : list registro) :
  (exists o, cagr_exibido f df = Ok o)
  /\ match grouped_df f df with
     | [] => cagr_exibido f df = Ok None
     | (k0, v0) :: t =>
         fst k0 <= ano_linha (last t (k0, v0))
         /\ cagr_exibido f df
            = Ok (Some (if (List.length t =? 0)%nat || (v0 =? 0)
                           || (ano_linha (last t (k0, v0)) - fst k0 =? 0)
                        then GZero
                        else GRate (snd (last t (k0, v0))) v0
                                   (ano_linha (last t (k0, v0)) - fst k0)))
     end
  /\ (grouped_df f df <> [] ->
      (forall kv kv', In kv (grouped_df f df) -> In kv' (grouped_df f df) ->
                      ano_linha kv = ano_linha kv') ->
      cagr_exibido f df = Ok (Some GZero))
  /\ (grouped_df f df <> [] ->
      NoDup (map ano_linha (grouped_df f df)) ->
      exists c, cagr_spec f df = Ok c /\ cagr_exibido f df = Ok (Some c)).
Proof.
  destruct (grouped_df f df) as [|[k0 v0] t] eqn:Eg.
  - assert (E : cagr_exibido f df = Ok None)
      by (unfold cagr_exibido; now rewrite Eg).
    repeat split; try (intros; congruence). now exists None.
  - pose proof (cagr_exibido_cons f df k0 v0 t Eg) as Hc.
    split; [eexists; exact Hc | split; [split; [|exact Hc] | split]].
    + destruct (last_In (k0, v0) t) as [<-|Hin]; [unfold ano_linha; simpl; lia|].
      exact (grouped_df_years f df k0 v0 t Eg _ Hin).
    + intros _ Hsame. rewrite Hc.
      rewrite (Hsame (last t (k0, v0)) (k0, v0)) by (try apply last_In; now left).
      unfold ano_linha at 1. cbn [fst]. rewrite Z.sub_diag. cbn [Z.eqb].
      now rewrite !orb_true_r.
    + intros _ Hnd. eexists. split; [|exact Hc].
      unfold cagr_spec. rewrite serie_anual_one_row_per_year by now rewrite Eg.
      rewrite Eg, !map_map. cbn [fst snd].
      change (fun x : Z * string * Z => ano_linha x) with ano_linha.
      apply calcular_cagr_table.
Qed.

Lemma cagr_exibido_rows_witness :
  exists c, cagr_spec f_doutorado df_um_programa = Ok c
            /\ cagr_exibido f_doutorado df_um_programa = Ok (Some c).
Proof.
  apply (cagr_exibido_rows f_doutorado df_um_programa).
  - vm_compute. discriminate.
  - vm_compute. repeat constructor; simpl; intuition discriminate.
Defined.

(** The scenario of the specification: 100 in 2019 and 121 in 2020 is a
    growth of 21%. *)
Example cagr_um_programa :
  cagr_exibido f_doutorado df_um_programa = Ok (Some (GRate 121 100 1)).
Proof. reflexivity. Qed.

(** C1 fails on the code: the series handed to [calcular_cagr] is the table
    grouped by year and dimension value, never collapsed to one total per year.
    With two programs the rate is taken between the first program of the first
    year (100) and the last program of the last year (30), a fall of 70%, not
    between the yearly totals 150 and 151. *)
Lemma cagr_not_from_yearly_totals :
  grouped_df f_doutorado df_dois_programas
  = [ ((2019, "Física"), 100); ((2019, "Química"), 50);
      ((2020, "Física"), 121); ((2020, "Química"), 30) ]
  /\ serie_anual f_doutorado df_dois_programas = [ (2019, 150); (2020, 151) ]
  /\ cagr_spec f_doutorado df_dois_programas = Ok (GRate 151 150 1)
  /\ cagr_exibido f_doutorado df_dois_programas = Ok (Some (GRate 30 100 1))
  /\ ~ (forall f df c, cagr_spec f df = Ok c -> cagr_exibido f df = Ok (Some c)).
Proof.
  repeat split; try reflexivity.
  intros H. specialize (H f_doutorado df_dois_programas _ eq_refl). discriminate H.
Qed.

(* ================================================================= *)
(** ** The empty selection *)

(** C8, as amended.  When the filters exclude every record, the time series
    is empty and its total is the integer 0, no growth rate is reported (the
    guard skips [calcular_cagr], which would return 0 on an empty series), no
    ranking is produced (the table would be empty, with grand total 0), and
    nothing raises. *)
Theorem empty_selection {srt : SortValues} {rp : RoundPct}
  (f : Filtros) (df : list registro) :
  filtered_df f df = [] ->
  grouped_df f df = []
  /\ total_serie f df = 0
  /\ cagr_exibido f df = Ok None
  /\ calcular_cagr [] [] = Ok GZero
  /\ ranking_exibido f df = None
  /\ ies_stats f df = []
  /\ total_geral f df = 0.
Proof.
  intros He.
  assert (Hg : grouped_df f df = []) by (unfold grouped_df; now rewrite He).
  assert (Ha : ies_agrupado f df = []) by (unfold ies_agrupado; now rewrite He).
  repeat split.
  - exact Hg.
  - unfold total_serie. now rewrite Hg.
  - unfold cagr_exibido. now rewrite Hg.
  - unfold ranking_exibido. now rewrite He.
  - unfold ies_stats, ies_com_share. rewrite Ha. simpl.
    apply Permutation_nil, sort_values_perm.
  - unfold total_geral. now rewrite Ha.
Qed.

Lemma empty_selection_witness :
  filtered_df f_vazio df_ABC = []
  /\ grouped_df f_vazio df_ABC = []
  /\ ranking_exibido f_vazio df_ABC = None.
Proof.
  split; [reflexivity|].
  pose proof (empty_selection f_vazio df_ABC eq_refl) as H.
  split; apply H.
Defined.

(** C8, as stated, fails on the growth rate: for an empty selection the script
    reports no rate at all, not the rate 0. *)
Lemma empty_selection_reports_no_rate :
  filtered_df f_vazio df_ABC = []
  /\ cagr_exibido f_vazio df_ABC = Ok None
  /\ cagr_exibido f_vazio df_ABC <> Ok (Some GZero).
Proof. repeat split; try reflexivity. discriminate. Qed.

(* ================================================================= *)
(** ** The normalizer on examples *)

Example carregar_dados_completo :
  carregar_dados raw_completo
  = Ok (mkDataFrame 2
          [ ("Ano", [Num 2020; Num 2021]);
            ("Estado", [Str "RS"; Str "SC"]);
            ("Doutorado - Matriculado", [Num 10; Num 12]);
            ("Doutorado Profissional - Matriculado", [Num 0; Num 1]);
            ("Mestrado - Matriculado", [Num 20; Num 0]);
            ("Mestrado Profissional - Matriculado", [Num 0; Num 3]);
            ("COREDE", [Str "Sul"; Str "NA"]);
            ("IES", [Str "UFRGS"; Str "Não informado"]);
            ("Status Jurídico", [Str "Não informado"; Str "Pública"]) ]).
Proof. vm_compute. reflexivity. Qed.

(* ================================================================= *)
(** ** Reading and writing columns *)

Lemma result_bind_Ok {A B : Type} (m : result A) (k : A -> result B) (b : B) :
  bind m k = Ok b -> exists a, m = Ok a /\ k a = Ok b.
Proof. destruct m as [a|e]; simpl; [eauto | discriminate]. Qed.

Lemma find_set_same (l : string) (c : column) (cols : list (string * column)) :
  find_col l (set_col l c cols) = Some c.
Proof.
  induction cols as [|[n c'] cols IH]; simpl.
  - now rewrite String.eqb_refl.
  - destruct (String.eqb n l) eqn:E; simpl; now rewrite E.
Qed.

Lemma find_set_other (l l' : string) (c : column) (cols : list (string * column)) :
  l' <> l -> find_col l' (set_col l c cols) = find_col l' cols.
Proof.
  intros N. induction cols as [|[n c'] cols IH]; simpl.
  - apply String.eqb_neq in N. rewrite String.eqb_sym in N. now rewrite N.
  - destruct (String.eqb n l) eqn:E; simpl.
    + apply String.eqb_eq in E. subst n.
      assert (E' : String.eqb l l' = false) by (apply String.eqb_neq; congruence).
      now rewrite E'.
    + now rewrite IH.
Qed.

Lemma set_col_id (l : string) (c : column) (cols : list (string * column)) :
  find_col l cols = Some c -> set_col l c cols = cols.
Proof.
  induction cols as [|[n c'] cols IH]; simpl; [discriminate|].
  destruct (String.eqb n l); [congruence|].
  intros Hf. now rewrite IH.
Qed.

Lemma setitem_id (df : DataFrame) (l : string) (c : column) :
  find_col l (columns df) = Some c -> setitem df l c = df.
Proof.
  intros Hf. destruct df as [n cols]. unfold setitem. simpl in *.
  now rewrite set_col_id.
Qed.

Lemma labels_set_col (Q : string -> Prop) (l : string) (c : column)
  (cols : list (string * column)) :
  Forall Q (map fst cols) -> Q l -> Forall Q (map fst (set_col l c cols)).
Proof.
  intros Hall Hl. induction cols as [|[n c'] cols IH]; simpl in *.
  - now constructor.
  - inversion Hall; subst. destruct (String.eqb n l); simpl; constructor; auto.
Qed.

Lemma has_col_find (l : string) (df : DataFrame) :
  has_col l df = true <-> exists c, find_col l (columns df) = Some c.
Proof.
  unfold has_col, labels. induction (columns df) as [|[n c] cols IH]; simpl.
  - split; [discriminate | intros [c H]; discriminate].
  - rewrite String.eqb_sym. destruct (String.eqb n l); simpl; [|exact IH].
    split; eauto.
Qed.

Lemma getitem_Ok (df : DataFrame) (l : string) (c : column) :
  getitem df l = Ok c <-> find_col l (columns df) = Some c.
Proof.
  unfold getitem. destruct (find_col l (columns df)); split; congruence.
Qed.

(** A renaming leaves alone the columns it neither renames nor produces. *)
Lemma find_col_rename (m : list (string * string)) (df : DataFrame) (l : string) :
  lookup_label l m = None ->
  (forall k v, lookup_label k m = Some v -> v <> l) ->
  find_col l (columns (rename m df)) = find_col l (columns df).
Proof.
  intros Hk Hv. unfold rename. simpl.
  induction (columns df) as [|[n c] cols IH]; simpl; [reflexivity|].
  destruct (lookup_label n m) as [n'|] eqn:E.
  - assert (E1 : String.eqb n' l = false) by (apply String.eqb_neq; eapply Hv; eauto).
    assert (E2 : String.eqb n l = false).
    { apply String.eqb_neq. intros ->. congruence. }
    now rewrite E1, E2.
  - destruct (String.eqb n l); [reflexivity | exact IH].
Qed.

Lemma rename_id (m : list (string * string)) (df : DataFrame) :
  Forall (fun l => lookup_label l m = None) (labels df) -> rename m df = df.
Proof.
  destruct df as [n cols]. unfold rename, labels. simpl. intros Hall. f_equal.
  induction cols as [|[l c] cols IH]; simpl in *; [reflexivity|].
  inversion Hall as [|? ? Hl Hrest]; subst. now rewrite Hl, IH.
Qed.

Lemma labels_rename (m : list (string * string)) (df : DataFrame) :
  (forall k v, lookup_label k m = Some v -> lookup_label v m = None) ->
  Forall (fun l => lookup_label l m = None) (labels (rename m df)).
Proof.
  intros Hm. unfold rename, labels. simpl. rewrite map_map. simpl.
  apply Forall_forall. intros l Hl. apply in_map_iff in Hl.
  destruct Hl as [[n c] [<- _]]. simpl.
  destruct (lookup_label n m) eqn:E; [eapply Hm; eassumption | exact E].
Qed.

(** ** Updating one column of a frame *)

Lemma coluna_tal_setitem (P : cell -> Prop) (df : DataFrame) (l : string) (c : column) :
  Forall P c -> coluna_tal P l (setitem df l c).
Proof. intros Hc. exists c. split; [apply find_set_same | exact Hc]. Qed.

Lemma coluna_tal_other (P : cell -> Prop) (df : DataFrame) (l l' : string) (c : column) :
  l' <> l -> coluna_tal P l' df -> coluna_tal P l' (setitem df l c).
Proof.
  intros N [c' [Hf Hc']]. exists c'. split; [|exact Hc'].
  unfold setitem. simpl. now rewrite find_set_other.
Qed.

Lemma labels_setitem (Q : string -> Prop) (df : DataFrame) (l : string) (c : column) :
  Forall Q (labels df) -> Q l -> Forall Q (labels (setitem df l c)).
Proof. apply labels_set_col. Qed.

Lemma fillna_nao_nulo (v : cell) (col : column) :
  isna v = false -> Forall nao_nulo (fillna v col).
Proof.
  intros Hv. unfold fillna. apply Forall_forall. intros c Hc.
  apply in_map_iff in Hc. destruct Hc as [c' [<- _]].
  unfold nao_nulo. destruct (isna c') eqn:E; assumption.
Qed.

Lemma fillna_id (v : cell) (col : column) :
  Forall nao_nulo col -> fillna v col = col.
Proof.
  unfold fillna. induction 1 as [|c col Hc _ IH]; simpl; [reflexivity|].
  unfold nao_nulo in Hc. now rewrite Hc, IH.
Qed.

Lemma is_numero_nao_nulo (c : cell) : is_numero c -> nao_nulo c.
Proof. intros [z ->]. reflexivity. Qed.

Lemma is_texto_nao_nulo (c : cell) : is_texto c -> nao_nulo c.
Proof. intros [s ->]. reflexivity. Qed.

(** Two distinct labels; a column other than the one updated. *)
Ltac neq_label := apply String.eqb_neq; reflexivity.
Ltac outra_coluna := repeat (apply coluna_tal_other; [neq_label|]).

(* ================================================================= *)
(** ** The steps of [carregar_dados] *)

Section NormalizerFacts.
Context {py : PyConv}.

Lemma to_numeric_coerce_numero_ou_nan (col : column) :
  Forall numero_ou_nan (map to_numeric_coerce col).
Proof.
  apply Forall_forall. intros c Hc. apply in_map_iff in Hc.
  destruct Hc as [c' [<- _]]. unfold numero_ou_nan, is_numero.
  destruct c' as [| |z|s]; simpl; eauto.
  destruct (to_numeric_str s); eauto.
Qed.

Lemma to_numeric_coerce_id (col : column) :
  Forall numero_ou_nan col -> map to_numeric_coerce col = col.
Proof.
  induction 1 as [|c col Hc _ IH]; simpl; [reflexivity|].
  rewrite IH. now destruct Hc as [->|[z ->]].
Qed.

Lemma astype_str_is_texto (col : column) : Forall is_texto (map astype_str col).
Proof.
  apply Forall_forall. intros c Hc. apply in_map_iff in Hc.
  destruct Hc as [c' [<- _]]. unfold is_texto. destruct c'; simpl; eauto.
Qed.

Lemma astype_str_id (col : column) :
  Forall is_texto col -> map astype_str col = col.
Proof.
  induction 1 as [|c col [s ->] _ IH]; simpl; [reflexivity|]. now rewrite IH.
Qed.

Lemma to_int64_Ok (z : Z) (c : cell) :
  to_int64 z = Ok c -> c = Num z /\ in_int64 z = true.
Proof.
  unfold to_int64. destruct (in_int64 z); [|intros E; discriminate E].
  intros E. injection E as <-. now split.
Qed.

Lemma to_int64_in (z : Z) : in_int64 z = true -> to_int64 z = Ok (Num z).
Proof. unfold to_int64. now intros ->. Qed.

Lemma to_int64_out (z : Z) : in_int64 z = false -> to_int64 z = Raise OverflowError.
Proof. unfold to_int64. now intros ->. Qed.

Lemma astype_int_Ok (c b : cell) :
  astype_int (if isna c then Num 0 else c) = Ok b -> convertido c b /\ is_int64 b.
Proof.
  destruct c as [| |z|s]; simpl.
  - intros E. injection E as <-. split; [reflexivity | now exists 0].
  - intros E. injection E as <-. split; [reflexivity | now exists 0].
  - intros E. apply to_int64_Ok in E. destruct E as [-> Hz].
    split; [reflexivity | now exists z].
  - destruct (int_str s) as [z|]; [|intros E; discriminate E].
    intros E. apply to_int64_Ok in E. destruct E as [-> Hz].
    split; [now exists z | now exists z].
Qed.

Lemma astype_int_convertido (src ints : column) :
  mapM astype_int (fillna (Num 0) src) = Ok ints ->
  Forall2 convertido src ints /\ Forall is_int64 ints.
Proof.
  revert ints. induction src as [|c src IH]; simpl; intros ints Hm.
  - injection Hm as <-. split; constructor.
  - apply result_bind_Ok in Hm. destruct Hm as [b [Hb Hm]].
    apply result_bind_Ok in Hm. destruct Hm as [bs [Hbs Hm]].
    injection Hm as <-. apply astype_int_Ok in Hb. destruct Hb as [Hb Hb'].
    destruct (IH _ Hbs) as [H1 H2]. split; constructor; assumption.
Qed.

Lemma astype_int_id (col : column) :
  Forall is_int64 col -> mapM astype_int (fillna (Num 0) col) = Ok col.
Proof.
  induction 1 as [|c col [z [-> Hz]] _ IH]; simpl; [reflexivity|].
  simpl in IH. rewrite (to_int64_in z Hz). cbn [bind]. now rewrite IH.
Qed.

Lemma is_int64_is_numero (c : cell) : is_int64 c -> is_numero c.
Proof. intros [z [-> _]]. now exists z. Qed.

Lemma convertido_is_numero (src out : column) :
  Forall2 convertido src out -> Forall is_numero out.
Proof.
  induction 1 as [|s o src out Hso _ IH]; constructor; [|exact IH].
  unfold is_numero. destruct s; simpl in Hso; try (now eauto).
  destruct Hso as [z [_ ->]]. eauto.
Qed.

Lemma convertido_nao_negativo (src out : column) :
  Forall2 convertido src out ->
  Forall fonte_nao_negativa src ->
  Forall (fun c => exists z, c = Num z /\ 0 <= z) out.
Proof.
  induction 1 as [|s o src out Hso _ IH]; intros Hsrc; constructor.
  - apply Forall_inv in Hsrc. destruct s as [| |z|t]; simpl in *.
    + exists 0. split; [assumption | lia].
    + exists 0. split; [assumption | lia].
    + eauto.
    + destruct Hso as [z [Hz ->]]. eauto.
  - apply IH. now apply Forall_inv_tail in Hsrc.
Qed.

Lemma garantir_corede_Ok (df df' : DataFrame) :
  garantir_corede df = Ok df' ->
  exists col, df' = setitem df "COREDE" col /\ Forall is_texto col.
Proof.
  unfold garantir_corede. destruct (negb (has_col "COREDE" df)).
  - destruct (corede_cols df) as [|c0 cs].
    + intros E. injection E as <-. eexists. split; [reflexivity|].
      apply Forall_forall. intros c Hc. apply repeat_spec in Hc. subst. now exists "NA"%string.
    + intros E. apply result_bind_Ok in E. destruct E as [col [_ E]].
      injection E as <-. eexists. split; [reflexivity | apply astype_str_is_texto].
  - intros E. apply result_bind_Ok in E. destruct E as [col [_ E]].
    injection E as <-. eexists. split; [reflexivity | apply astype_str_is_texto].
Qed.

Lemma converter_matriculados_Ok (df df' : DataFrame) (coluna : string) :
  converter_matriculados df coluna = Ok df' ->
  exists src col, find_col coluna (columns df) = Some src
                  /\ df' = setitem df coluna col
                  /\ Forall2 convertido src col
                  /\ Forall is_int64 col.
Proof.
  unfold converter_matriculados. intros E.
  apply result_bind_Ok in E. destruct E as [src [Hsrc E]].
  apply result_bind_Ok in E. destruct E as [ints [Hints E]].
  injection E as <-. apply getitem_Ok in Hsrc.
  apply astype_int_convertido in Hints. destruct Hints as [H1 H2].
  exists src, ints. auto.
Qed.

Lemma garantir_coluna_Ok (label : string) (similares : DataFrame -> list string)
  (df df' : DataFrame) :
  garantir_coluna label similares df = Ok df' ->
  df' = df \/ exists col, df' = setitem df label col.
Proof.
  unfold garantir_coluna. destruct (negb (has_col label df)).
  - destruct (similares df) as [|c0 cs].
    + intros E. injection E as <-. right. eexists. reflexivity.
    + intros E. apply result_bind_Ok in E. destruct E as [col [_ E]].
      injection E as <-. right. eexists. reflexivity.
  - intros E. injection E as <-. now left.
Qed.

Lemma tratar_nulos_Ok (label : string) (df df' : DataFrame) :
  tratar_nulos label df = Ok df' ->
  exists col, df' = setitem df label col /\ Forall nao_nulo col.
Proof.
  unfold tratar_nulos. intros E.
  apply result_bind_Ok in E. destruct E as [col [_ E]]. injection E as <-.
  eexists. split; [reflexivity | now apply fillna_nao_nulo].
Qed.

End NormalizerFacts.

Section NormalizerChain.
Context {py : PyConv}.

Lemma carregar_dados_Ok (raw df : DataFrame) :
  carregar_dados raw = Ok df ->
  exists ano d3 d4 d5 d6 d7 d8 d9 d10,
    getitem raw "Ano" = Ok ano
    /\ garantir_corede
         (rename mapa_colunas (setitem raw "Ano" (map to_numeric_coerce ano))) = Ok d3
    /\ converter_matriculados d3 "Doutorado - Matriculado" = Ok d4
    /\ converter_matriculados d4 "Doutorado Profissional - Matriculado" = Ok d5
    /\ converter_matriculados d5 "Mestrado - Matriculado" = Ok d6
    /\ converter_matriculados d6 "Mestrado Profissional - Matriculado" = Ok d7
    /\ garantir_coluna "IES" ies_cols d7 = Ok d8
    /\ garantir_coluna "Status Jurídico" status_cols d8 = Ok d9
    /\ tratar_nulos "IES" d9 = Ok d10
    /\ tratar_nulos "Status Jurídico" d10 = Ok df.
Proof.
  unfold carregar_dados. cbn [foldM colunas_matriculados]. intros H.
  apply result_bind_Ok in H. destruct H as [ano [Hano H]].
  apply result_bind_Ok in H. destruct H as [d3 [H3 H]].
  apply result_bind_Ok in H. destruct H as [d7 [Hf H]].
  apply result_bind_Ok in Hf. destruct Hf as [d4 [H4 Hf]].
  apply result_bind_Ok in Hf. destruct Hf as [d5 [H5 Hf]].
  apply result_bind_Ok in Hf. destruct Hf as [d6 [H6 Hf]].
  apply result_bind_Ok in Hf. destruct Hf as [d7' [H7 Hf]]. injection Hf as ->.
  apply result_bind_Ok in H. destruct H as [d8 [H8 H]].
  apply result_bind_Ok in H. destruct H as [d9 [H9 H]].
  apply result_bind_Ok in H. destruct H as [d10 [H10 H]].
  apply result_bind_Ok in H. destruct H as [d11 [H11 H]]. injection H as <-.
  exists ano, d3, d4, d5, d6, d7, d8, d9, d10. repeat split; assumption.
Qed.

Lemma mapa_colunas_alvos (k v : string) :
  lookup_label k mapa_colunas = Some v -> lookup_label v mapa_colunas = None.
Proof.
  unfold mapa_colunas. cbn [lookup_label].
  repeat (destruct (String.eqb _ k); [intros E; injection E as <-; reflexivity|]).
  intros E. discriminate E.
Qed.

Lemma find_col_rename_mapa (df : DataFrame) (l : string) :
  lookup_label l mapa_colunas = None ->
  l <> "Estado"%string -> l <> "Área de Avaliação"%string ->
  l <> "Área de Conhecimento"%string ->
  find_col l (columns (rename mapa_colunas df)) = find_col l (columns df).
Proof.
  intros Hk N1 N2 N3. apply find_col_rename; [exact Hk|].
  intros k v. unfold mapa_colunas. cbn [lookup_label].
  repeat (destruct (String.eqb _ k); [intros E; injection E as <-; congruence|]).
  intros E. discriminate E.
Qed.

(** The frame returned by [carregar_dados] is canonical. *)
Lemma carregar_dados_canonico (raw df : DataFrame) :
  carregar_dados raw = Ok df -> canonico df.
Proof.
  intros H. apply carregar_dados_Ok in H.
  destruct H as (ano & d3 & d4 & d5 & d6 & d7 & d8 & d9 & d10
                 & Hano & H3 & H4 & H5 & H6 & H7 & H8 & H9 & H10 & H11).
  apply garantir_corede_Ok in H3. destruct H3 as [cc [-> Hcc]].
  apply converter_matriculados_Ok in H4. destruct H4 as (s1 & c1 & _ & -> & _ & Hc1).
  apply converter_matriculados_Ok in H5. destruct H5 as (s2 & c2 & _ & -> & _ & Hc2).
  apply converter_matriculados_Ok in H6. destruct H6 as (s3 & c3 & _ & -> & _ & Hc3).
  apply converter_matriculados_Ok in H7. destruct H7 as (s4 & c4 & _ & -> & _ & Hc4).
  apply tratar_nulos_Ok in H10. destruct H10 as [ci [-> Hci]].
  apply tratar_nulos_Ok in H11. destruct H11 as [cs [-> Hcs]].
  apply garantir_coluna_Ok in H8, H9.
  assert (Hano' : coluna_tal numero_ou_nan "Ano"
            (rename mapa_colunas (setitem raw "Ano" (map to_numeric_coerce ano)))).
  { exists (map to_numeric_coerce ano). split; [|apply to_numeric_coerce_numero_ou_nan].
    rewrite find_col_rename_mapa by (reflexivity || discriminate).
    apply find_set_same. }
  pose proof (labels_rename mapa_colunas
                (setitem raw "Ano" (map to_numeric_coerce ano)) mapa_colunas_alvos) as Hlab.
  destruct H8 as [->|[c8 ->]]; destruct H9 as [->|[c9 ->]];
    (split; [outra_coluna; exact Hano'|]);
    (split; [repeat (apply labels_setitem; [|reflexivity]); exact Hlab|]);
    (split; [outra_coluna; now apply coluna_tal_setitem|]);
    (split; [repeat constructor; outra_coluna; now apply coluna_tal_setitem|]);
    (split; [outra_coluna; now apply coluna_tal_setitem|]);
    now apply coluna_tal_setitem.
Qed.

(** A canonical frame is a fixed point of [carregar_dados]. *)
Lemma canonico_carregar_dados (df : DataFrame) :
  canonico df -> carregar_dados df = Ok df.
Proof.
  intros ([ano [Hano Hano']] & Hlab & [cc [Hcc Hcc']] & Hm
          & [ci [Hci Hci']] & [cs [Hcs Hcs']]).
  unfold carregar_dados.
  rewrite (proj2 (getitem_Ok df "Ano" ano) Hano). cbn [bind].
  rewrite to_numeric_coerce_id, setitem_id, rename_id by assumption.
  assert (H3 : garantir_corede df = Ok df).
  { unfold garantir_corede.
    rewrite (proj2 (has_col_find "COREDE" df)) by eauto. cbn [negb].
    rewrite (proj2 (getitem_Ok df "COREDE" cc) Hcc). cbn [bind].
    rewrite fillna_id by (eapply Forall_impl; [apply is_texto_nao_nulo | exact Hcc']).
    now rewrite astype_str_id, setitem_id. }
  rewrite H3. cbn [bind].
  assert (H4 : forall l, coluna_tal is_int64 l df -> converter_matriculados df l = Ok df).
  { intros l [c [Hc Hc']]. unfold converter_matriculados.
    rewrite (proj2 (getitem_Ok df l c) Hc). cbn [bind].
    rewrite astype_int_id by assumption. cbn [bind]. now rewrite setitem_id. }
  assert (H5 : foldM converter_matriculados colunas_matriculados df = Ok df).
  { induction Hm as [|l ls Hl _ IH]; simpl; [reflexivity|].
    rewrite (H4 l Hl). exact IH. }
  rewrite H5. cbn [bind].
  assert (H6 : forall l sim, (exists c, find_col l (columns df) = Some c) ->
                             garantir_coluna l sim df = Ok df).
  { intros l sim Hl. unfold garantir_coluna.
    now rewrite (proj2 (has_col_find l df) Hl). }
  rewrite H6 by eauto. cbn [bind]. rewrite H6 by eauto. cbn [bind].
  assert (H7 : forall l c, find_col l (columns df) = Some c -> Forall nao_nulo c ->
                           tratar_nulos l df = Ok df).
  { intros l c Hc Hc'. unfold tratar_nulos.
    rewrite (proj2 (getitem_Ok df l c) Hc). cbn [bind].
    now rewrite fillna_id, setitem_id. }
  rewrite (H7 _ _ Hci Hci'). cbn [bind]. rewrite (H7 _ _ Hcs Hcs'). reflexivity.
Qed.

End NormalizerChain.

Lemma find_col_setitem_other (df : DataFrame) (l l' : string) (c : column) :
  l' <> l -> find_col l' (columns (setitem df l c)) = find_col l' (columns df).
Proof. intros N. unfold setitem. simpl. now apply find_set_other. Qed.

Lemma find_col_setitem_same (df : DataFrame) (l : string) (c : column) :
  find_col l (columns (setitem df l c)) = Some c.
Proof. unfold setitem. simpl. apply find_set_same. Qed.

(* ================================================================= *)
(** ** The normalizer: counts, defaults and idempotence *)

Section NormalizerClaims.
Context {py : PyConv}.


Ltac busca_coluna :=
  repeat first [ rewrite find_col_setitem_other by neq_label
               | rewrite find_col_rename_mapa by (reflexivity || neq_label) ].
Ltac busca_coluna_em H :=
  repeat first [ rewrite find_col_setitem_other in H by neq_label
               | rewrite find_col_rename_mapa in H by (reflexivity || neq_label) ].

(** C3, as amended.  When the normalization succeeds (it raises a KeyError
    if one of the four columns is absent from the source), each of the four
    enrollment columns is present with an integer in every record: 0 where the
    source is null and the source's number otherwise; the counts are greater
    than or equal to 0 whenever the source's numbers are. *)
Theorem matriculados_convertidos (raw df : DataFrame) :
  carregar_dados raw = Ok df ->
  Forall (fun coluna =>
            exists src col,
              find_col coluna (columns raw) = Some src
              /\ find_col coluna (columns df) = Some col
              /\ Forall2 convertido src col
              /\ Forall is_numero col
              /\ (Forall fonte_nao_negativa src ->
                  Forall (fun c => exists z, c = Num z /\ 0 <= z) col))
         colunas_matriculados.
Proof.
  intros H. apply carregar_dados_Ok in H.
  destruct H as (ano & d3 & d4 & d5 & d6 & d7 & d8 & d9 & d10
                 & Hano & H3 & H4 & H5 & H6 & H7 & H8 & H9 & H10 & H11).
  apply garantir_corede_Ok in H3. destruct H3 as [cc [-> Hcc]].
  apply converter_matriculados_Ok in H4. destruct H4 as (s1 & c1 & Hs1 & -> & Hc1 & _).
  apply converter_matriculados_Ok in H5. destruct H5 as (s2 & c2 & Hs2 & -> & Hc2 & _).
  apply converter_matriculados_Ok in H6. destruct H6 as (s3 & c3 & Hs3 & -> & Hc3 & _).
  apply converter_matriculados_Ok in H7. destruct H7 as (s4 & c4 & Hs4 & -> & Hc4 & _).
  apply tratar_nulos_Ok in H10. destruct H10 as [ci [-> Hci]].
  apply tratar_nulos_Ok in H11. destruct H11 as [cs [-> Hcs]].
  apply garantir_coluna_Ok in H8, H9.
  busca_coluna_em Hs1. busca_coluna_em Hs2. busca_coluna_em Hs3. busca_coluna_em Hs4.
  assert (Hout : forall src col, Forall2 convertido src col ->
            Forall2 convertido src col /\ Forall is_numero col
            /\ (Forall fonte_nao_negativa src ->
                Forall (fun c => exists z, c = Num z /\ 0 <= z) col)).
  { intros src col Hc. split; [exact Hc | split].
    - eapply convertido_is_numero; eassumption.
    - now apply convertido_nao_negativo. }
  destruct H8 as [->|[c8 ->]]; destruct H9 as [->|[c9 ->]];
    repeat constructor.
  all: first [ exists s1, c1; split; [exact Hs1 | split; [|now apply Hout]]
             | exists s2, c2; split; [exact Hs2 | split; [|now apply Hout]]
             | exists s3, c3; split; [exact Hs3 | split; [|now apply Hout]]
             | exists s4, c4; split; [exact Hs4 | split; [|now apply Hout]] ];
       busca_coluna; apply find_col_setitem_same.
Qed.

(** C9.  Normalizing the output of the normalizer gives that output again
    (and a normalization that raises, raises). *)
Theorem carregar_dados_idempotent (raw : DataFrame) :
  (df <- carregar_dados raw ;; carregar_dados df) = carregar_dados raw.
Proof.
  destruct (carregar_dados raw) as [df|e] eqn:E; simpl; [|reflexivity].
  now apply canonico_carregar_dados, (carregar_dados_canonico raw).
Qed.

(** What holds of the three categorical columns on every source: they are
    present, [COREDE] holds strings, [IES] and [Status Jurídico] hold no null. *)
Lemma categoricas_presentes (raw df : DataFrame) :
  carregar_dados raw = Ok df ->
  coluna_tal is_texto "COREDE" df
  /\ coluna_tal nao_nulo "IES" df
  /\ coluna_tal nao_nulo "Status Jurídico" df.
Proof.
  intros H. apply carregar_dados_canonico in H.
  destruct H as (_ & _ & Hc & _ & Hi & Hs). auto.
Qed.

End NormalizerClaims.

Lemma matriculados_convertidos_witness :
  exists src col,
    find_col "Mestrado - Matriculado" (columns raw_completo) = Some src
    /\ Forall2 convertido src col
    /\ col = [Num 20; Num 0].
Proof.
  pose proof (matriculados_convertidos raw_completo _ carregar_dados_completo) as H.
  apply Forall_inv_tail, Forall_inv_tail, Forall_inv in H.
  destruct H as (src & col & Hsrc & Hcol & Hconv & _).
  exists src, col. split; [exact Hsrc | split; [exact Hconv|]].
  vm_compute in Hcol. now injection Hcol as <-.
Defined.

(** C3, as stated, fails: a negative count of the source is kept, and a
    source that lacks one of the four columns makes the normalizer raise. *)
Lemma matriculados_negativo_mantido :
  (exists df, carregar_dados raw_negativo = Ok df
              /\ find_col "Doutorado - Matriculado" (columns df) = Some [Num (-5)])
  /\ carregar_dados raw_sem_coluna
     = Raise (KeyError "Mestrado Profissional - Matriculado").
Proof.
  split; [eexists; split|]; vm_compute; reflexivity.
Qed.

Example carregar_dados_duas_vezes :
  exists df, carregar_dados raw_corede_similar = Ok df /\ carregar_dados df = Ok df.
Proof. eexists. split; [vm_compute; reflexivity|]. vm_compute. reflexivity. Qed.

(** C4 fails on the code: when the regional zone is adopted from a column
    with a similar label, its nulls are printed by [astype(str)] as the string
    "nan" instead of being replaced by "NA", as they are when the column is
    named [COREDE] (and as they are for [IES] and [Status Jurídico], which
    are synthesized here with their default). *)
Lemma corede_similar_null_printed :
  exists df,
    carregar_dados raw_corede_similar = Ok df
    /\ find_col "COREDE" (columns df) = Some [Str "Sul"; Str "nan"]
    /\ find_col "IES" (columns df) = Some [Str "Não informado"; Str "Não informado"]
    /\ find_col "Status Jurídico" (columns df)
       = Some [Str "Não informado"; Str "Não informado"].
Proof.
  eexists. split; [vm_compute; reflexivity|]. repeat split.
Qed.

(* ================================================================= *)
(** * Further properties of the code *)

(** ** [calcular_cagr] on arbitrary series *)

Lemma iloc_last_cons_Ok {A : Type} (a : A) (t : list A) : iloc_last (a :: t) = Ok (last t a).
Proof. rewrite <- (map_id (a :: t)). apply (iloc_last_map (fun x => x)). Qed.

(** X1.  [calcular_cagr] never raises on two series of the same length, as
    the two columns of one table are. *)
Theorem calcular_cagr_same_length (valores : list (option Z)) (anos : list Z) :
  List.length valores = List.length anos ->
  exists g, calcular_cagr valores anos = Ok g.
Proof.
  intros Hlen. unfold calcular_cagr.
  destruct valores as [|v0 [|v1 vs]]; try (eexists; reflexivity).
  destruct anos as [|a0 [|a1 ans]]; try discriminate.
  rewrite !iloc_last_cons_Ok.
  cbn [List.length Nat.ltb Nat.leb iloc_first bind].
  destruct v0 as [p|]; [|eexists; reflexivity].
  destruct (p =? 0); [eexists; reflexivity|].
  destruct (_ - a0 =? 0); [eexists; reflexivity|].
  destruct (last (v1 :: vs) (Some p)); eexists; reflexivity.
Qed.

Lemma calcular_cagr_same_length_witness :
  exists g, calcular_cagr [Some 100; Some 110; Some 121] [2019; 2020; 2021] = Ok g.
Proof. apply calcular_cagr_same_length. reflexivity. Defined.

(** X2.  The rate depends on the two ends of the series only: the values and
    years in between are ignored. *)
Theorem calcular_cagr_ends_only (v0 v1 : option Z) (a0 a1 : Z)
  (vmid : list (option Z)) (amid : list Z) :
  calcular_cagr (v0 :: vmid ++ [v1]) (a0 :: amid ++ [a1])
  = calcular_cagr [v0; v1] [a0; a1].
Proof.
  unfold calcular_cagr. rewrite !iloc_last_cons_Ok, !last_last.
  assert (Hl : (List.length (v0 :: vmid ++ [v1]) <? 2)%nat = false).
  { apply Nat.ltb_ge. simpl. rewrite length_app. simpl. lia. }
  rewrite Hl. reflexivity.
Qed.

(** X3.  With the years missing, a series of two or more values whose first
    value is a number other than 0 makes [calcular_cagr] raise an IndexError;
    the guards on the values come first, so one value, a null first value or a
    first value of 0 still give 0. *)
Theorem calcular_cagr_sem_anos (v0 : option Z) (vs : list (option Z)) :
  calcular_cagr (v0 :: vs) []
  = match vs, v0 with
    | [], _ => Ok GZero
    | _ :: _, None => Ok GZero
    | _ :: _, Some p => if p =? 0 then Ok GZero else Raise IndexError
    end.
Proof.
  unfold calcular_cagr. destruct vs as [|v1 vs]; [reflexivity|].
  rewrite iloc_last_cons_Ok. cbn [List.length Nat.ltb Nat.leb iloc_first bind].
  destruct v0 as [p|]; [|reflexivity]. destruct (p =? 0); reflexivity.
Qed.


(* ================================================================= *)
(** ** Grouping does not depend on the order of the records *)

Lemma filter_perm {A : Type} (p : A -> bool) (l l' : list A) :
  Permutation l l' -> Permutation (filter p l) (filter p l').
Proof.
  induction 1 as [|x l l' _ IH|x y l|l l' l'' _ IH1 _ IH2]; simpl.
  - constructor.
  - destruct (p x); [now constructor | exact IH].
  - destruct (p x), (p y); try apply Permutation_refl. apply perm_swap.
  - eapply perm_trans; eassumption.
Qed.

Lemma existsb_perm {A : Type} (p : A -> bool) (l l' : list A) :
  Permutation l l' -> existsb p l = existsb p l'.
Proof.
  intros HP. destruct (existsb p l) eqn:E; symmetry.
  - apply existsb_exists in E. destruct E as [x [Hx Hp]].
    apply existsb_exists. exists x. split; [|exact Hp].
    eapply Permutation_in; eassumption.
  - destruct (existsb p l') eqn:E'; [|reflexivity].
    apply existsb_exists in E'. destruct E' as [x [Hx Hp]].
    rewrite <- E. symmetry. apply existsb_exists. exists x. split; [|exact Hp].
    eapply Permutation_in; [apply Permutation_sym|]; eassumption.
Qed.

Section GroupByOrder.
Context {K : Type} `{KeyOrder K}.

Lemma lookup_head (k : K) (v : Z) (t : list (K * Z)) :
  lookup_group k ((k, v) :: t) = Some v.
Proof. simpl. now rewrite kcmp_refl. Qed.

(** Two sorted tables that give every key the same value are equal. *)
Lemma sorted_lookup_ext (g1 g2 : list (K * Z)) :
  StronglySorted key_lt g1 -> StronglySorted key_lt g2 ->
  (forall k, lookup_group k g1 = lookup_group k g2) -> g1 = g2.
Proof.
  intros H1. revert g2.
  induction H1 as [|[k1 v1] t1 Hs1 IH Hall1]; intros g2 H2 Hext.
  - destruct g2 as [|[k2 v2] t2]; [reflexivity|].
    specialize (Hext k2). rewrite lookup_head in Hext. discriminate.
  - destruct H2 as [|[k2 v2] t2 Hs2 Hall2].
    + specialize (Hext k1). rewrite lookup_head in Hext. discriminate.
    + assert (Hnone1 : lookup_group k1 t1 = None).
      { destruct (lookup_group k1 t1) as [w|] eqn:E; [|reflexivity].
        apply (sorted_In_lookup _ _ _ Hs1) in E. rewrite Forall_forall in Hall1.
        specialize (Hall1 _ E). unfold key_lt in Hall1. simpl in Hall1.
        now rewrite kcmp_refl in Hall1. }
      assert (Hnone2 : lookup_group k2 t2 = None).
      { destruct (lookup_group k2 t2) as [w|] eqn:E; [|reflexivity].
        apply (sorted_In_lookup _ _ _ Hs2) in E. rewrite Forall_forall in Hall2.
        specialize (Hall2 _ E). unfold key_lt in Hall2. simpl in Hall2.
        now rewrite kcmp_refl in Hall2. }
      destruct (kcmp k1 k2) eqn:E.
      * apply kcmp_eq in E. subst k2.
        pose proof (Hext k1) as Hk. rewrite !lookup_head in Hk. injection Hk as <-.
        f_equal. apply IH; [exact Hs2|]. intros k.
        specialize (Hext k). simpl in Hext.
        destruct (kcmp k k1) eqn:Ek; try exact Hext.
        apply kcmp_eq in Ek. subst k. congruence.
      * exfalso. specialize (Hext k1). rewrite lookup_head in Hext.
        simpl in Hext. rewrite E in Hext.
        rewrite sorted_lookup_none in Hext; [discriminate|].
        eapply Forall_impl; [|exact Hall2]. intros a Ha.
        unfold key_lt in Ha. simpl in Ha. eapply kcmp_trans; eassumption.
      * exfalso. apply kcmp_Gt_Lt in E. specialize (Hext k2).
        rewrite lookup_head in Hext. simpl in Hext. rewrite E in Hext.
        rewrite sorted_lookup_none in Hext; [discriminate|].
        eapply Forall_impl; [|exact Hall1]. intros a Ha.
        unfold key_lt in Ha. simpl in Ha. eapply kcmp_trans; eassumption.
Qed.

Lemma groupby_sum_perm {R : Type} (key : R -> option K) (val : R -> Z)
  (rows rows' : list R) :
  Permutation rows rows' -> groupby_sum key val rows = groupby_sum key val rows'.
Proof.
  intros HP. apply sorted_lookup_ext; try apply groupby_sum_sorted.
  intros k. rewrite !lookup_groupby_sum.
  rewrite (existsb_perm _ _ _ HP).
  now rewrite (soma_perm _ _ (Permutation_map val (filter_perm (is_key key k) _ _ HP))).
Qed.

End GroupByOrder.

(** X5.  The time series, the grand total and the rows that are sorted into
    the ranking do not depend on the order of the records in the dataset. *)
Theorem agregacao_independe_da_ordem {rp : RoundPct}
  (f : Filtros) (df df' : list registro) :
  Permutation df df' ->
  grouped_df f df = grouped_df f df'
  /\ ies_com_share f df = ies_com_share f df'
  /\ total_geral f df = total_geral f df'.
Proof.
  intros HP.
  assert (HF : Permutation (filtered_df f df) (filtered_df f df')).
  { rewrite !filtered_df_passa. now apply filter_perm. }
  assert (HA : ies_agrupado f df = ies_agrupado f df')
    by (unfold ies_agrupado; now apply groupby_sum_perm).
  split; [unfold grouped_df; now apply groupby_sum_perm|].
  unfold ies_com_share, total_geral. now rewrite HA.
Qed.

Lemma agregacao_independe_da_ordem_witness :
  grouped_df f_doutorado (rev df_dois_programas) = grouped_df f_doutorado df_dois_programas.
Proof.
  apply (agregacao_independe_da_ordem f_doutorado).
  apply Permutation_sym, Permutation_rev.
Defined.

(* ================================================================= *)
(** ** The rows of the time series *)

Lemma is_key_chave_serie (d : Dimensao) (a : Z) (v : string) (r : registro) :
  is_key (chave_serie d) (a, v) r = na_celula d a v r.
Proof.
  unfold is_key, na_celula. destruct (chave_serie d r) as [[a' v']|]; [|reflexivity].
  unfold kcmp, pair_KeyCmp, kcmp, Z_KeyCmp, string_KeyCmp. cbn [fst snd].
  rewrite (Z.eqb_sym a' a), Z.eqb_compare.
  destruct (a ?= a'); try reflexivity. cbn [andb].
  destruct (String.compare v v') eqn:E.
  - apply String.compare_eq_iff in E. subst. now rewrite String.eqb_refl.
  - destruct (String.eqb_spec v' v) as [Heq|]; [|reflexivity].
    rewrite Heq, string_compare_refl in E. discriminate.
  - destruct (String.eqb_spec v' v) as [Heq|]; [|reflexivity].
    rewrite Heq, string_compare_refl in E. discriminate.
Qed.

(** X6.  The time series has one row for each pair (year, dimension value)
    observed among the filtered records that have a dimension value, sorted by
    year and then by value; the row carries the sum of the metric over the
    records of that pair, and its year lies in the selected range. *)
Theorem grouped_df_rows (f : Filtros) (df : list registro) :
  StronglySorted key_lt (grouped_df f df)
  /\ NoDup (map fst (grouped_df f df))
  /\ (forall a v x,
        In ((a, v), x) (grouped_df f df) <->
        (exists r, In r (filtered_df f df) /\ Ano r = Some a
                   /\ coluna_dimensao (dimensao f) r = Some v)
        /\ x = soma (map (coluna_metrica (metrica f))
                       (filter (na_celula (dimensao f) a v) (filtered_df f df))))
  /\ (forall a v x, In ((a, v), x) (grouped_df f df) ->
        fst (ano_range f) <= a <= snd (ano_range f)).
Proof.
  pose proof (groupby_sum_sorted (chave_serie (dimensao f)) (coluna_metrica (metrica f))
                (filtered_df f df)) as Hs.
  fold (grouped_df f df) in Hs.
  assert (Hrow : forall a v x,
        In ((a, v), x) (grouped_df f df) <->
        (exists r, In r (filtered_df f df) /\ Ano r = Some a
                   /\ coluna_dimensao (dimensao f) r = Some v)
        /\ x = soma (map (coluna_metrica (metrica f))
                       (filter (na_celula (dimensao f) a v) (filtered_df f df)))).
  { intros a v x. rewrite (sorted_In_lookup _ _ _ Hs). unfold grouped_df.
    rewrite lookup_groupby_sum.
    rewrite (filter_ext_in_list _ (na_celula (dimensao f) a v))
      by (intros; apply is_key_chave_serie).
    assert (Hex : existsb (is_key (chave_serie (dimensao f)) (a, v)) (filtered_df f df) = true
                  <-> exists r, In r (filtered_df f df) /\ Ano r = Some a
                                /\ coluna_dimensao (dimensao f) r = Some v).
    { rewrite existsb_exists. split; intros [r [Hr Hk]]; exists r; (split; [exact Hr|]).
      - rewrite is_key_chave_serie in Hk. unfold na_celula, chave_serie in Hk.
        destruct (Ano r) as [a'|]; [|discriminate].
        destruct (coluna_dimensao (dimensao f) r) as [v'|]; [|discriminate].
        apply andb_true_iff in Hk. destruct Hk as [Ha Hv].
        apply Z.eqb_eq in Ha. apply String.eqb_eq in Hv. now subst.
      - rewrite is_key_chave_serie. unfold na_celula, chave_serie.
        destruct Hk as [-> ->]. now rewrite Z.eqb_refl, String.eqb_refl. }
    destruct (existsb _ _).
    - split.
      + intros E. injection E as <-. split; [now apply Hex | reflexivity].
      + intros [_ ->]. reflexivity.
    - split; [discriminate|]. intros [Hr _]. apply Hex in Hr. discriminate. }
  split; [exact Hs | split; [now apply sorted_keys_NoDup | split; [exact Hrow|]]].
  intros a v x Hin. apply Hrow in Hin. destruct Hin as [[r [Hr [Ha _]]] _].
  rewrite filtered_df_passa in Hr. apply filter_In in Hr. destruct Hr as [_ Hp].
  unfold passa in Hp. rewrite !andb_true_iff in Hp.
  destruct Hp as [[[[[Hp _] _] _] _] _].
  apply ano_no_intervalo_spec in Hp. destruct Hp as [a' [Ea Hr]]. congruence.
Qed.

(* ================================================================= *)
(** ** Totals *)

Lemma soma_map_add {A : Type} (g h : A -> Z) (l : list A) :
  soma (map (fun x => g x + h x) l) = soma (map g l) + soma (map h l).
Proof. induction l as [|a l IH]; simpl; lia. Qed.

Lemma filtered_df_com_metrica (f : Filtros) (m : Metrica) (df : list registro) :
  filtered_df (com_metrica f m) df = filtered_df f df.
Proof. reflexivity. Qed.

(** X7.  With the metric "Total Matriculados" the total of the time series is
    the sum of the totals obtained with each of the four counts, the filters
    and the dimension being the same. *)
Theorem total_matriculados_soma (f : Filtros) (df : list registro) :
  total_serie (com_metrica f MTotalMatriculados) df
  = total_serie (com_metrica f MDoutorado) df
    + total_serie (com_metrica f MDoutoradoProfissional) df
    + total_serie (com_metrica f MMestrado) df
    + total_serie (com_metrica f MMestradoProfissional) df.
Proof.
  unfold total_serie, grouped_df. rewrite !soma_groupby_sum.
  rewrite !filtered_df_com_metrica. cbn [com_metrica dimensao metrica].
  set (l := filter _ _). unfold coluna_metrica.
  rewrite <- !soma_map_add. reflexivity.
Qed.

(** X8.  The ranking counts every filtered record, the time series only
    those that have a value in the chosen dimension: for counts that are not
    negative the total of the time series is at most the grand total of the
    ranking, and the two are equal when no filtered record lacks the
    dimension. *)
Theorem total_serie_le_total_geral (f : Filtros) (df : list registro) :
  (forall r, In r df -> 0 <= coluna_metrica (metrica f) r) ->
  total_serie f df <= total_geral f df
  /\ ((forall r, In r (filtered_df f df) -> coluna_dimensao (dimensao f) r <> None) ->
      total_serie f df = total_geral f df).
Proof.
  intros Hpos. unfold total_serie, grouped_df. rewrite total_geral_filtered.
  rewrite soma_groupby_sum. split.
  - rewrite <- (filter_true (fun _ => true) (filtered_df f df)) at 2 by reflexivity.
    apply soma_filter_mono; [|reflexivity].
    intros r Hr. apply Hpos. rewrite filtered_df_passa in Hr.
    apply filter_In in Hr. tauto.
  - intros Hdim. f_equal. f_equal.
    rewrite <- (filter_true (fun _ => true) (filtered_df f df)) at 2 by reflexivity.
    apply filter_ext_in_list. intros r Hr. unfold has_key, chave_serie.
    specialize (Hdim r Hr).
    assert (Ha : exists a, Ano r = Some a).
    { rewrite filtered_df_passa in Hr. apply filter_In in Hr. destruct Hr as [_ Hp].
      unfold passa in Hp. rewrite !andb_true_iff in Hp.
      destruct Hp as [[[[[Hp _] _] _] _] _].
      apply ano_no_intervalo_spec in Hp. destruct Hp as [a [Ea _]]. eauto. }
    destruct Ha as [a ->]. now destruct (coluna_dimensao (dimensao f) r).
Qed.

Lemma total_serie_le_total_geral_witness :
  total_serie (sem_filtros DimPrograma MDoutorado 2020 2021) df_com_nulos = 10
  /\ total_geral (sem_filtros DimPrograma MDoutorado 2020 2021) df_com_nulos = 15
  /\ total_serie (sem_filtros DimPrograma MDoutorado 2020 2021) df_com_nulos
     <= total_geral (sem_filtros DimPrograma MDoutorado 2020 2021) df_com_nulos.
Proof.
  split; [reflexivity | split; [reflexivity|]].
  apply (total_serie_le_total_geral (sem_filtros DimPrograma MDoutorado 2020 2021)).
  intros r Hr. simpl in Hr.
  repeat (destruct Hr as [<-|Hr]; [simpl; lia|]). contradiction.
Defined.

(* ================================================================= *)
(** ** Composing filters *)

(** X9.  Filtering is idempotent, two filter specs can be applied in either
    order, and the result of filtering two datasets put end to end is the two
    results put end to end. *)
Theorem filtered_df_compose (f g : Filtros) (df df' : list registro) :
  filtered_df f (filtered_df f df) = filtered_df f df
  /\ filtered_df f (filtered_df g df) = filtered_df g (filtered_df f df)
  /\ filtered_df f (df ++ df')%list = (filtered_df f df ++ filtered_df f df')%list.
Proof.
  rewrite !filtered_df_passa, !filter_filter_andb. repeat split.
  - apply filter_ext_in_list. intros r _. now destruct (passa f r).
  - apply filter_ext_in_list. intros r _. apply andb_comm.
  - apply filter_app.
Qed.

(** X10.  No filter spec retains a record whose year is null, and a year range
    whose lower bound exceeds its upper bound retains nothing: the time series
    is then empty and neither a rate nor a ranking is produced. *)
Theorem filtered_df_year_edges {srt : SortValues} {rp : RoundPct}
  (f : Filtros) (df : list registro) :
  (forall r, In r (filtered_df f df) -> Ano r <> None)
  /\ (snd (ano_range f) < fst (ano_range f) ->
      filtered_df f df = [] /\ grouped_df f df = []
      /\ cagr_exibido f df = Ok None /\ ranking_exibido f df = None).
Proof.
  split.
  - intros r Hr. rewrite filtered_df_passa in Hr. apply filter_In in Hr.
    destruct Hr as [_ Hp]. unfold passa in Hp. rewrite !andb_true_iff in Hp.
    destruct Hp as [[[[[Hp _] _] _] _] _].
    apply ano_no_intervalo_spec in Hp. destruct Hp as [a [-> _]]. discriminate.
  - intros Hinv.
    assert (He : filtered_df f df = []).
    { rewrite filtered_df_passa. induction df as [|r df IH]; simpl; [reflexivity|].
      destruct (passa f r) eqn:Hp; [|exact IH]. exfalso.
      unfold passa in Hp. rewrite !andb_true_iff in Hp.
      destruct Hp as [[[[[Hp _] _] _] _] _].
      apply ano_no_intervalo_spec in Hp. destruct Hp as [a [_ Hr]]. lia. }
    assert (Hg : grouped_df f df = []) by (unfold grouped_df; now rewrite He).
    repeat split; try assumption.
    + unfold cagr_exibido. now rewrite Hg.
    + unfold ranking_exibido. now rewrite He.
Qed.

Lemma filtered_df_year_edges_witness :
  filtered_df (sem_filtros DimPrograma MDoutorado 2021 2020) df_ABC = [].
Proof.
  apply (filtered_df_year_edges (sem_filtros DimPrograma MDoutorado 2021 2020) df_ABC).
  simpl. lia.
Defined.

(* ================================================================= *)
(** ** The slider bounds and the first run *)

Lemma serie_min_spec (s : list (option Z)) :
  match serie_min s with
  | Some lo => In (Some lo) s /\ forall a, In (Some a) s -> lo <= a
  | None => forall a, ~ In (Some a) s
  end.
Proof.
  induction s as [|x s IH]; simpl; [tauto|].
  destruct x as [a|]; destruct (serie_min s) as [b|].
  - destruct IH as [Hin Hle]. split.
    + destruct (Z.min_spec a b) as [[_ ->]|[_ ->]]; auto.
    + intros c [E|Hc]; [injection E as ->; lia | specialize (Hle c Hc); lia].
  - split; [now left|]. intros c [E|Hc]; [injection E as ->; lia | now apply IH in Hc].
  - destruct IH as [Hin Hle]. split; [now right|].
    intros c [E|Hc]; [discriminate | auto].
  - intros c [E|Hc]; [discriminate | now apply IH in Hc].
Qed.

Lemma serie_max_spec (s : list (option Z)) :
  match serie_max s with
  | Some hi => In (Some hi) s /\ forall a, In (Some a) s -> a <= hi
  | None => forall a, ~ In (Some a) s
  end.
Proof.
  induction s as [|x s IH]; simpl; [tauto|].
  destruct x as [a|]; destruct (serie_max s) as [b|].
  - destruct IH as [Hin Hle]. split.
    + destruct (Z.max_spec a b) as [[_ ->]|[_ ->]]; auto.
    + intros c [E|Hc]; [injection E as ->; lia | specialize (Hle c Hc); lia].
  - split; [now left|]. intros c [E|Hc]; [injection E as ->; lia | now apply IH in Hc].
  - destruct IH as [Hin Hle]. split; [now right|].
    intros c [E|Hc]; [discriminate | auto].
  - intros c [E|Hc]; [discriminate | now apply IH in Hc].
Qed.

Lemma slider_Ok (lo hi : Z) (value v : Z * Z) :
  slider lo hi value = Ok v -> v = value /\ lo < hi.
Proof.
  unfold slider. destruct (lo <? hi) eqn:E; [|intros H; discriminate H].
  intros H. injection H as <-. split; [reflexivity | now apply Z.ltb_lt].
Qed.

Lemma ano_limites_Ok (df : list registro) (lo hi : Z) :
  ano_limites df = Ok (lo, hi) ->
  lo < hi
  /\ (exists r, In r df /\ Ano r = Some lo)
  /\ (exists r, In r df /\ Ano r = Some hi)
  /\ (forall r a, In r df -> Ano r = Some a -> lo <= a <= hi).
Proof.
  unfold ano_limites. intros H.
  pose proof (serie_min_spec (map Ano df)) as Hmin.
  pose proof (serie_max_spec (map Ano df)) as Hmax.
  destruct (serie_min (map Ano df)) as [lo'|]; [|discriminate].
  destruct (serie_max (map Ano df)) as [hi'|]; [|discriminate].
  cbn [int_float bind] in H. apply slider_Ok in H. destruct H as [E Hlt].
  injection E as -> ->.
  destruct Hmin as [Hlo Hmin], Hmax as [Hhi Hmax].
  apply in_map_iff in Hlo, Hhi.
  destruct Hlo as [rl [El Hl]], Hhi as [rh [Eh Hh]].
  split; [exact Hlt | split; [eauto | split; [eauto|]]].
  intros r a Hr Ea.
  assert (Hin : In (Some a) (map Ano df)) by (rewrite <- Ea; now apply in_map).
  split; [now apply Hmin | now apply Hmax].
Qed.

(** X11.  The slider bounds are the least and the greatest year of the
    dataset, nulls apart, so the lower bound is at most the upper one; with the
    widgets at their initial values (nothing selected, the full range) the
    filter retains exactly the records that have a year, in their order. *)
Theorem primeira_execucao (d : Dimensao) (m : Metrica) (df : list registro) (f : Filtros) :
  filtros_iniciais d m df = Ok f ->
  fst (ano_range f) <= snd (ano_range f)
  /\ (exists r, In r df /\ Ano r = Some (fst (ano_range f)))
  /\ (exists r, In r df /\ Ano r = Some (snd (ano_range f)))
  /\ filtered_df f df = filter tem_ano df.
Proof.
  unfold filtros_iniciais. intros H.
  apply result_bind_Ok in H. destruct H as [[lo hi] [Hlim H]]. injection H as <-.
  cbn [ano_range fst snd].
  destruct (ano_limites_Ok df lo hi Hlim) as (Hlt & Hlo & Hhi & Hall).
  split; [|split; [exact Hlo | split; [exact Hhi|]]].
  - lia.
  - rewrite filtered_df_passa. apply filter_ext_in_list. intros r Hr.
    unfold passa, permitido, ano_no_intervalo, tem_ano. cbn.
    rewrite !andb_true_r. destruct (Ano r) as [a|] eqn:Ea; [|reflexivity].
    destruct (Hall r a Hr Ea) as [H1 H2].
    apply Z.leb_le in H1, H2. now rewrite H1, H2.
Qed.

Lemma primeira_execucao_witness :
  exists f, filtros_iniciais DimPrograma MDoutorado df_com_nulos = Ok f
            /\ ano_range f = (2020, 2021)
            /\ List.length (filtered_df f df_com_nulos) = 2%nat.
Proof.
  eexists. split; [reflexivity | split; [reflexivity|]].
  destruct (primeira_execucao DimPrograma MDoutorado df_com_nulos _ eq_refl)
    as (_ & _ & _ & ->).
  reflexivity.
Defined.

(** X12.  Building the year slider raises a ValueError (int of NaN) exactly
    when no record of the dataset has a year, an empty dataset included, and a
    StreamlitAPIException (the bounds are not in increasing order) exactly
    when some record has a year and all the years are the same; it raises
    nothing else, and bounds that are returned are distinct. *)
Theorem ano_limites_raises (df : list registro) :
  (ano_limites df = Raise ValueError <-> forall r, In r df -> Ano r = None)
  /\ (ano_limites df = Raise StreamlitAPIException
      <-> exists a, (exists r, In r df /\ Ano r = Some a)
                    /\ forall r b, In r df -> Ano r = Some b -> b = a)
  /\ (forall e, ano_limites df = Raise e -> e = ValueError \/ e = StreamlitAPIException)
  /\ (forall lo hi, ano_limites df = Ok (lo, hi) -> lo < hi).
Proof.
  split; [|split; [|split]].
  4: { intros lo hi H. now apply ano_limites_Ok in H. }
  all: unfold ano_limites;
    pose proof (serie_min_spec (map Ano df)) as Hmin;
    pose proof (serie_max_spec (map Ano df)) as Hmax;
    destruct (serie_min (map Ano df)) as [lo|];
    [ destruct (serie_max (map Ano df)) as [hi|];
      [ | exfalso; destruct Hmin as [Hin _]; exact (Hmax lo Hin) ] | ];
    cbn [int_float bind]; unfold slider.
  - split.
    + intros H. destruct (lo <? hi); discriminate H.
    + intros Hall. exfalso. destruct Hmin as [Hin _].
      apply in_map_iff in Hin. destruct Hin as [r [E Hr]].
      rewrite (Hall r Hr) in E. discriminate E.
  - split; [|reflexivity]. intros _ r Hr.
    destruct (Ano r) as [a|] eqn:E; [|reflexivity].
    exfalso. apply (Hmin a). rewrite <- E. now apply in_map.
  - destruct Hmin as [Hlo Hmin], Hmax as [Hhi Hmax].
    destruct (lo <? hi) eqn:E.
    + apply Z.ltb_lt in E. split; [intros H; discriminate H|].
      intros [a [_ Hall]]. exfalso.
      apply in_map_iff in Hlo, Hhi.
      destruct Hlo as [rl [El Hl]], Hhi as [rh [Eh Hh]].
      pose proof (Hall rl lo Hl El). pose proof (Hall rh hi Hh Eh). lia.
    + apply Z.ltb_ge in E. split; [intros _|reflexivity].
      pose proof (Hmin hi Hhi) as Hle.
      assert (hi = lo) by lia. subst hi.
      exists lo. split.
      * apply in_map_iff in Hlo. destruct Hlo as [r [Er Hr]]. eauto.
      * intros r b Hr Eb.
        assert (Hin : In (Some b) (map Ano df)) by (rewrite <- Eb; now apply in_map).
        pose proof (Hmin b Hin). pose proof (Hmax b Hin). lia.
  - split; [intros H; discriminate H|].
    intros [a [[r [Hr Er]] _]]. exfalso. apply (Hmin a). rewrite <- Er. now apply in_map.
  - intros e H. destruct (lo <? hi); [discriminate H|]. injection H as <-. now right.
  - intros e H. injection H as <-. now left.
Qed.

(* ================================================================= *)
(** ** The options of the multiselects *)

Lemma unique_In {A : Type} (eqb : A -> A -> bool) (l : list A) (x : A) :
  (forall a b, eqb a b = true <-> a = b) ->
  In x (unique eqb l) <-> In x l.
Proof.
  intros Heq. induction l as [|a l IH]; simpl; [tauto|].
  rewrite filter_In, IH, negb_true_iff. split.
  - intros [E|[Hx _]]; auto.
  - intros [E|Hx]; [now left|].
    destruct (eqb x a) eqn:E; [left; symmetry; now apply Heq | right; auto].
Qed.

Lemma unique_NoDup {A : Type} (eqb : A -> A -> bool) (l : list A) :
  (forall a b, eqb a b = true <-> a = b) -> NoDup (unique eqb l).
Proof.
  intros Heq. induction l as [|a l IH]; simpl; constructor.
  - rewrite filter_In, negb_true_iff. intros [_ E].
    assert (E' : eqb a a = true) by now apply Heq. congruence.
  - now apply NoDup_filter.
Qed.

Lemma insert_str_perm (x : string) (l : list string) :
  Permutation (x :: l) (insert_str x l).
Proof.
  induction l as [|y l IH]; simpl; [apply Permutation_refl|].
  destruct (String.leb x y); [apply Permutation_refl|].
  eapply perm_trans; [apply perm_swap | apply perm_skip, IH].
Qed.

Lemma sorted_str_perm (l : list string) : Permutation l (sorted_str l).
Proof.
  induction l as [|x l IH]; simpl; [constructor|].
  eapply perm_trans; [apply perm_skip, IH | apply insert_str_perm].
Qed.

Lemma filter_all_pass {A : Type} (p : A -> bool) (l : list A) :
  (forall x, In x l -> p x = true) -> filter p l = l.
Proof.
  intros Hp. induction l as [|a l IH]; simpl; [reflexivity|].
  rewrite (Hp a (or_introl eq_refl)), IH; [reflexivity|].
  intros x Hx. apply Hp. now right.
Qed.

(** X13.  Each multiselect offers every value of its column once, and
    selecting all the options of the five multiselects retains the same
    records as selecting none. *)
Theorem selecionar_tudo (f : Filtros) (df : list registro) :
  (NoDup (opcoes_estados df) /\ NoDup (opcoes_municipios df)
   /\ NoDup (opcoes_coredes df) /\ NoDup (opcoes_ies df) /\ NoDup (opcoes_status df))
  /\ (forall r, In r df ->
        In (Estado r) (opcoes_estados df) /\ In (Municipio r) (opcoes_municipios df)
        /\ In (COREDE r) (opcoes_coredes df) /\ In (IES r) (opcoes_ies df)
        /\ In (Status_Juridico r) (opcoes_status df))
  /\ filtered_df (mkFiltros (dimensao f) (metrica f) (opcoes_estados df)
                    (opcoes_municipios df) (opcoes_coredes df) (opcoes_ies df)
                    (opcoes_status df) (ano_range f)) df
     = filtered_df (sem_categoricos f) df.
Proof.
  assert (Hs : forall a b, String.eqb a b = true <-> a = b) by apply String.eqb_eq.
  assert (Hin : forall r, In r df ->
        In (Estado r) (opcoes_estados df) /\ In (Municipio r) (opcoes_municipios df)
        /\ In (COREDE r) (opcoes_coredes df) /\ In (IES r) (opcoes_ies df)
        /\ In (Status_Juridico r) (opcoes_status df)).
  { intros r Hr. unfold opcoes_estados, opcoes_municipios, opcoes_coredes,
      opcoes_ies, opcoes_status.
    repeat split.
    - apply unique_In; [apply opt_eqb_eq | now apply in_map].
    - apply unique_In; [apply opt_eqb_eq | now apply in_map].
    - apply unique_In; [exact Hs | now apply in_map].
    - apply (Permutation_in _ (sorted_str_perm _)).
      apply unique_In; [exact Hs | now apply in_map].
    - apply (Permutation_in _ (sorted_str_perm _)).
      apply unique_In; [exact Hs | now apply in_map]. }
  split; [|split; [exact Hin|]].
  - unfold opcoes_estados, opcoes_municipios, opcoes_coredes, opcoes_ies, opcoes_status.
    repeat split;
      try (eapply Permutation_NoDup; [apply sorted_str_perm|]);
      apply unique_NoDup; auto using opt_eqb_eq.
  - rewrite !filtered_df_passa. apply filter_ext_in_list. intros r Hr.
    destruct (Hin r Hr) as (H1 & H2 & H3 & H4 & H5).
    unfold passa, ano_no_intervalo. cbn [estados municipios coredes ies_list
      status_juridico ano_range sem_categoricos].
    assert (P1 : forall x l, In x l -> permitido isin_opt x l = true).
    { intros x l Hx. apply (permitido_spec isin_opt); [apply isin_opt_In | now right]. }
    assert (P2 : forall x l, In x l -> permitido isin x l = true).
    { intros x l Hx. apply (permitido_spec isin); [apply isin_In | now right]. }
    rewrite !P1, !P2 by assumption. reflexivity.
Qed.

(* ================================================================= *)
(** ** The display view and the shares *)

(** X14.  The display view holds the institutions of greatest value: an
    institution left out of the first 15 rows has a value no greater than any
    institution shown, and the table is cut only when there are more than 15
    institutions. *)
Theorem top_ies_greatest {srt : SortValues} {rp : RoundPct}
  (f : Filtros) (df : list registro) :
  (forall shown out, In shown (top_ies f df) -> In out (skipn 15 (ies_stats f df)) ->
                     ies_valor out <= ies_valor shown)
  /\ ies_stats f df = (top_ies f df ++ skipn 15 (ies_stats f df))%list
  /\ ((List.length (ies_stats f df) <= 15)%nat -> top_ies f df = ies_stats f df).
Proof.
  unfold top_ies. split; [|split].
  - intros shown out Hs Ho.
    exact (sorted_firstn_skipn _ 15 _ (ies_stats_desc f df) shown out Hs Ho).
  - symmetry. apply firstn_skipn.
  - intros Hlen. now apply firstn_all2.
Qed.

Lemma top_ies_greatest_witness :
  top_ies f_doutorado df_ABC = ies_stats f_doutorado df_ABC.
Proof.
  apply (top_ies_greatest f_doutorado df_ABC). vm_compute. lia.
Defined.

Lemma StronglySorted_impl_in {A : Type} (R R' : A -> A -> Prop) (l : list A) :
  StronglySorted R l ->
  (forall a b, In a l -> In b l -> R a b -> R' a b) ->
  StronglySorted R' l.
Proof.
  induction 1 as [|a l Hs IH Hall]; intros Himp; constructor.
  - apply IH. intros x y Hx Hy. apply Himp; now right.
  - rewrite Forall_forall in Hall |- *. intros b Hb.
    apply Himp; [now left | now right | now apply Hall].
Qed.

Lemma In_le_soma (l : list Z) (z : Z) :
  Forall (fun x => 0 <= x) l -> In z l -> z <= soma l.
Proof.
  induction 1 as [|a l Ha Hl IH]; simpl; [contradiction|].
  pose proof (soma_nonneg l Hl). intros [->|Hz]; [lia|]. specialize (IH Hz). lia.
Qed.

(** X15.  For counts that are not negative and a grand total that is not 0,
    every market share lies between 0.00 and 100.00, and the shares decrease
    (weakly) down the ranking, as the values do. *)
Theorem market_share_ordered {srt : SortValues} {rp : RoundPct}
  (f : Filtros) (df : list registro) :
  (forall r, In r df -> 0 <= coluna_metrica (metrica f) r) ->
  total_geral f df <> 0 ->
  (forall row, In row (ies_stats f df) ->
     exists s, market_share row = Some s /\ 0 <= s <= 10000)
  /\ StronglySorted (fun a b => forall sa sb, market_share a = Some sa ->
                                 market_share b = Some sb -> sb <= sa)
       (ies_stats f df).
Proof.
  intros Hpos HT.
  pose proof (ies_stats_nonneg f df Hpos) as Hnn.
  assert (HTpos : 0 < total_geral f df).
  { pose proof (soma_nonneg _ Hnn) as H0. rewrite ies_stats_total in H0. lia. }
  assert (Hshare : forall row, In row (ies_stats f df) ->
            market_share row = Some (round_pct (ies_valor row) (total_geral f df))).
  { intros row Hrow. destruct (ies_stats_row f df row Hrow) as (_ & _ & ->).
    unfold market_share_pct. now destruct (Z.eqb_spec (total_geral f df) 0). }
  split.
  - intros row Hrow. eexists. split; [now apply Hshare|].
    apply round_pct_range; [exact HTpos|].
    rewrite Forall_forall in Hnn.
    assert (H0 : 0 <= ies_valor row) by (apply Hnn; now apply in_map).
    split; [exact H0|].
    rewrite <- ies_stats_total. apply In_le_soma; [|now apply in_map].
    now apply Forall_forall.
  - apply (StronglySorted_impl_in _ _ _ (ies_stats_desc f df)).
    intros a b Ha Hb Hab sa sb Ea Eb.
    rewrite (Hshare a Ha) in Ea. rewrite (Hshare b Hb) in Eb.
    assert (Esa : sa = round_pct (ies_valor a) (total_geral f df)) by congruence.
    assert (Esb : sb = round_pct (ies_valor b) (total_geral f df)) by congruence.
    subst sa sb. cbv beta in Hab. apply round_pct_mono; [exact HTpos | lia].
Qed.

Lemma market_share_ordered_witness :
  exists s, market_share (mkLinha "A" 300 (Some 7500)) = Some s /\ 0 <= s <= 10000.
Proof.
  apply (market_share_ordered f_doutorado df_ABC).
  - intros r Hr. simpl in Hr.
    repeat (destruct Hr as [<-|Hr]; [simpl; lia|]). contradiction.
  - vm_compute. discriminate.
  - vm_compute. auto.
Defined.

(* ================================================================= *)
(** ** Labels along the normalizer *)

Lemma labels_setitem_present (df : DataFrame) (l : string) (c c' : column) :
  find_col l (columns df) = Some c' -> labels (setitem df l c) = labels df.
Proof.
  unfold labels, setitem. simpl. induction (columns df) as [|[n x] cols IH]; simpl.
  - discriminate.
  - destruct (String.eqb n l); simpl; [reflexivity|].
    intros Hf. now rewrite IH.
Qed.

Lemma labels_setitem_absent (df : DataFrame) (l : string) (c : column) :
  find_col l (columns df) = None -> labels (setitem df l c) = (labels df ++ [l])%list.
Proof.
  unfold labels, setitem. simpl. induction (columns df) as [|[n x] cols IH]; simpl.
  - reflexivity.
  - destruct (String.eqb n l); simpl; [discriminate|].
    intros Hf. now rewrite IH.
Qed.

Lemma labels_rename_map (df : DataFrame) :
  labels (rename mapa_colunas df) = map renomeado (labels df).
Proof. unfold labels, rename. simpl. rewrite !map_map. reflexivity. Qed.

Lemma In_labels_find (df : DataFrame) (l : string) :
  In l (labels df) -> exists c, find_col l (columns df) = Some c.
Proof.
  unfold labels. induction (columns df) as [|[n x] cols IH]; simpl; [contradiction|].
  intros [->|Hin].
  - rewrite String.eqb_refl. eauto.
  - destruct (String.eqb n l); eauto.
Qed.

Lemma lookup_label_In (k v : string) (m : list (string * string)) :
  lookup_label k m = Some v -> In (k, v) m.
Proof.
  induction m as [|[k' v'] m IH]; simpl; [discriminate|].
  destruct (String.eqb_spec k' k) as [->|N].
  - intros E. injection E as ->. now left.
  - intros E. right. now apply IH.
Qed.

Lemma alheio_lookup (parece : string -> bool) (k v : string) :
  alheio_ao_mapa parece -> lookup_label k mapa_colunas = Some v ->
  parece k = false /\ parece v = false.
Proof.
  intros Ha Hl. apply lookup_label_In in Hl. unfold alheio_ao_mapa in Ha.
  rewrite Forall_forall in Ha. exact (Ha _ Hl).
Qed.

Lemma filter_renomeado (parece : string -> bool) (ls : list string) :
  alheio_ao_mapa parece -> filter parece (map renomeado ls) = filter parece ls.
Proof.
  intros Ha. induction ls as [|l ls IH]; simpl; [reflexivity|].
  rewrite IH. unfold renomeado.
  destruct (lookup_label l mapa_colunas) as [v|] eqn:E; [|reflexivity].
  destruct (alheio_lookup parece l v Ha E) as [-> ->]. reflexivity.
Qed.

Lemma find_col_rename_parece (parece : string -> bool) (df : DataFrame) (c0 : string) :
  alheio_ao_mapa parece -> parece c0 = true ->
  find_col c0 (columns (rename mapa_colunas df)) = find_col c0 (columns df).
Proof.
  intros Ha Hp. apply find_col_rename.
  - destruct (lookup_label c0 mapa_colunas) as [v|] eqn:E; [|reflexivity].
    destruct (alheio_lookup parece c0 v Ha E) as [Hk _]. congruence.
  - intros k v E ->. destruct (alheio_lookup parece k c0 Ha E) as [_ Hv]. congruence.
Qed.

Section NormalizerSource.
Context {py : PyConv}.

(** What a test that the intermediate assignments do not pass sees of the
    frame is what it sees of the source. *)
Lemma deriva_facts (parece : string -> bool) (raw d : DataFrame) :
  parece "Ano" = false -> alheio_ao_mapa parece -> deriva parece raw d ->
  nrows d = nrows raw
  /\ filter parece (labels d) = filter parece (labels raw)
  /\ (forall c0, parece c0 = true ->
        find_col c0 (columns d) = find_col c0 (columns raw)).
Proof.
  intros HA Ha Hd. induction Hd as [ano Hano|d l c Hd IH Hl].
  - split; [reflexivity | split].
    + rewrite labels_rename_map, (labels_setitem_present raw "Ano" _ ano Hano).
      now apply filter_renomeado.
    + intros c0 Hc0. rewrite (find_col_rename_parece parece) by assumption.
      apply find_col_setitem_other. intros ->. congruence.
  - destruct IH as (Hn & Hf & Hc). split; [exact Hn | split].
    + destruct (find_col l (columns d)) as [c'|] eqn:E.
      * now rewrite (labels_setitem_present d l c c' E).
      * rewrite (labels_setitem_absent d l c E), filter_app. simpl. rewrite Hl.
        now rewrite app_nil_r.
    + intros c0 Hc0. rewrite find_col_setitem_other; [now apply Hc|].
      intros ->. congruence.
Qed.

Lemma garantir_corede_eq (df : DataFrame) :
  garantir_corede df = Ok (setitem df "COREDE" (coluna_corede df)).
Proof.
  unfold garantir_corede, coluna_corede.
  destruct (find_col "COREDE" (columns df)) as [src|] eqn:E.
  - rewrite (proj2 (has_col_find "COREDE" df)) by eauto. cbn [negb].
    now rewrite (proj2 (getitem_Ok df "COREDE" src) E).
  - assert (Hh : has_col "COREDE" df = false).
    { destruct (has_col "COREDE" df) eqn:Hh; [|reflexivity].
      apply has_col_find in Hh. destruct Hh as [c Hc]. congruence. }
    rewrite Hh. cbn [negb]. unfold corede_cols.
    change (fun col : string => contains "COREDE" col) with parece_corede.
    destruct (filter parece_corede (labels df)) as [|c0 cs] eqn:Ef; [reflexivity|].
    assert (Hin : In c0 (labels df)).
    { assert (H0 : In c0 (filter parece_corede (labels df))) by (rewrite Ef; now left).
      apply filter_In in H0. tauto. }
    destruct (In_labels_find df c0 Hin) as [src Hsrc].
    now rewrite (proj2 (getitem_Ok df c0 src) Hsrc), Hsrc.
Qed.

Lemma garantir_coluna_eq (label : string) (parece : string -> bool) (df : DataFrame) :
  exists d', garantir_coluna label (fun d => filter parece (labels d)) df = Ok d'
             /\ find_col label (columns d') = Some (coluna_garantida label parece df)
             /\ (d' = df \/ d' = setitem df label (coluna_garantida label parece df)).
Proof.
  unfold garantir_coluna, coluna_garantida.
  destruct (find_col label (columns df)) as [src|] eqn:E.
  - rewrite (proj2 (has_col_find label df)) by eauto. cbn [negb].
    exists df. auto.
  - assert (Hh : has_col label df = false).
    { destruct (has_col label df) eqn:Hh; [|reflexivity].
      apply has_col_find in Hh. destruct Hh as [c Hc]. congruence. }
    rewrite Hh. cbn [negb].
    destruct (filter parece (labels df)) as [|c0 cs] eqn:Ef.
    + eexists. split; [reflexivity | split; [apply find_col_setitem_same | now right]].
    + assert (Hin : In c0 (labels df)).
      { assert (H0 : In c0 (filter parece (labels df))) by (rewrite Ef; now left).
        apply filter_In in H0. tauto. }
      destruct (In_labels_find df c0 Hin) as [src Hsrc].
      rewrite (proj2 (getitem_Ok df c0 src) Hsrc), Hsrc. cbn [bind].
      eexists. split; [reflexivity | split; [apply find_col_setitem_same | now right]].
Qed.

Lemma tratar_nulos_eq (label : string) (df : DataFrame) (c : column) :
  find_col label (columns df) = Some c ->
  tratar_nulos label df = Ok (setitem df label (fillna (Str "Não informado") c)).
Proof.
  intros Hc. unfold tratar_nulos. now rewrite (proj2 (getitem_Ok df label c) Hc).
Qed.

Lemma conversivel_cases (c : cell) :
  conversivel c \/ nao_numeral c \/ fora_de_int64 c.
Proof.
  destruct c as [| |z|s]; simpl; auto.
  - destruct (in_int64 z); auto.
  - destruct (int_str s) as [z|]; [|auto].
    destruct (in_int64 z) eqn:Ez; [left | right; right]; eauto.
Qed.

Lemma conversivel_excludes (c : cell) :
  conversivel c -> ~ nao_numeral c /\ ~ fora_de_int64 c.
Proof.
  destruct c as [| |z|s]; simpl; try tauto.
  - intros ->. split; [tauto | discriminate].
  - intros [z [-> Hz]]. split; [discriminate|].
    intros [z' [E Hz']]. injection E as <-. congruence.
Qed.

Lemma astype_int_cases (c : cell) :
  match astype_int (if isna c then Num 0 else c) with
  | Ok b => convertido c b /\ conversivel c
  | Raise ValueError => nao_numeral c
  | Raise OverflowError => fora_de_int64 c
  | Raise _ => False
  end.
Proof.
  destruct c as [| |z|s]; simpl; auto.
  - unfold to_int64. destruct (in_int64 z); simpl; auto.
  - destruct (int_str s) as [z|]; [|reflexivity].
    unfold to_int64. destruct (in_int64 z) eqn:Ez; simpl; [split|]; eauto.
Qed.

Lemma mapM_astype_int_cases (src : column) :
  match mapM astype_int (fillna (Num 0) src) with
  | Ok col => Forall2 convertido src col /\ Forall conversivel src
  | Raise ValueError => Exists nao_numeral src
  | Raise OverflowError => Exists fora_de_int64 src
  | Raise _ => False
  end.
Proof.
  induction src as [|c src IH]; [simpl; split; constructor|].
  cbn [fillna map mapM].
  pose proof (astype_int_cases c) as Hc.
  destruct (astype_int (if isna c then Num 0 else c)) as [b|e]; cbn [bind].
  - destruct Hc as [Hb Hc].
    unfold fillna in IH.
    destruct (mapM astype_int (map (fun c0 => if isna c0 then Num 0 else c0) src))
      as [col|e]; cbn [bind].
    + destruct IH as [IH1 IH2]. split; constructor; assumption.
    + destruct e; try exact IH; now apply Exists_cons_tl.
  - destruct e; try exact Hc; now apply Exists_cons_hd.
Qed.

Lemma convertido_conversivel (src col : column) :
  mapM astype_int (fillna (Num 0) src) = Ok col -> Forall conversivel src.
Proof.
  intros H. pose proof (mapM_astype_int_cases src) as Hc. rewrite H in Hc. tauto.
Qed.

Lemma conversivel_mapM_Ok (src : column) :
  Forall conversivel src -> exists col, mapM astype_int (fillna (Num 0) src) = Ok col.
Proof.
  intros Hall. pose proof (mapM_astype_int_cases src) as Hc.
  destruct (mapM astype_int (fillna (Num 0) src)) as [col|e]; [eauto|exfalso].
  rewrite Forall_forall in Hall.
  destruct e; try exact Hc; apply Exists_exists in Hc; destruct Hc as [c [Hin Hc]];
    destruct (conversivel_excludes c (Hall c Hin)); contradiction.
Qed.

Lemma converter_matriculados_cases (df : DataFrame) (c : string) :
  match converter_matriculados df c with
  | Ok d' => exists src col, find_col c (columns df) = Some src
                             /\ d' = setitem df c col /\ Forall2 convertido src col
                             /\ Forall conversivel src
  | Raise (KeyError l) => l = c /\ find_col c (columns df) = None
  | Raise ValueError => exists src, find_col c (columns df) = Some src
                                    /\ Exists nao_numeral src
  | Raise OverflowError => exists src, find_col c (columns df) = Some src
                                       /\ Exists fora_de_int64 src
  | Raise _ => False
  end.
Proof.
  unfold converter_matriculados, getitem.
  destruct (find_col c (columns df)) as [src|]; simpl; [|auto].
  pose proof (mapM_astype_int_cases src) as H.
  destruct (mapM astype_int (fillna (Num 0) src)) as [col|e]; simpl.
  - destruct H. exists src, col. auto.
  - destruct e; try contradiction; exists src; auto.
Qed.

End NormalizerSource.

Ltac acha_coluna :=
  repeat first [ rewrite find_col_setitem_other by neq_label
               | rewrite find_col_rename_mapa by (reflexivity || neq_label) ].
Ltac acha_coluna_em H :=
  repeat first [ rewrite find_col_setitem_other in H by neq_label
               | rewrite find_col_rename_mapa in H by (reflexivity || neq_label) ].

Lemma alheio_corede : alheio_ao_mapa parece_corede.
Proof. unfold alheio_ao_mapa, mapa_colunas. repeat constructor. Qed.

Lemma alheio_ies : alheio_ao_mapa parece_ies.
Proof. unfold alheio_ao_mapa, mapa_colunas. repeat constructor. Qed.

Lemma alheio_status : alheio_ao_mapa parece_status.
Proof. unfold alheio_ao_mapa, mapa_colunas. repeat constructor. Qed.

Section NormalizerShape.
Context {py : PyConv}.

Lemma coluna_corede_deriva (raw d : DataFrame) :
  deriva parece_corede raw d -> coluna_corede d = coluna_corede raw.
Proof.
  intros Hd.
  destruct (deriva_facts parece_corede raw d eq_refl alheio_corede Hd) as (Hn & Hf & Hc).
  unfold coluna_corede. rewrite (Hc "COREDE"%string eq_refl), Hf, Hn.
  destruct (find_col "COREDE" (columns raw)); [reflexivity|].
  destruct (filter parece_corede (labels raw)) as [|c0 cs] eqn:Ef; [reflexivity|].
  rewrite Hc; [reflexivity|].
  assert (H0 : In c0 (filter parece_corede (labels raw))) by (rewrite Ef; now left).
  apply filter_In in H0. tauto.
Qed.

Lemma coluna_garantida_deriva (label : string) (parece : string -> bool)
  (raw d : DataFrame) :
  parece label = true -> parece "Ano" = false -> alheio_ao_mapa parece ->
  deriva parece raw d ->
  coluna_garantida label parece d = coluna_garantida label parece raw.
Proof.
  intros Hl HA Ha Hd.
  destruct (deriva_facts parece raw d HA Ha Hd) as (Hn & Hf & Hc).
  unfold coluna_garantida. rewrite (Hc label Hl), Hf, Hn.
  destruct (find_col label (columns raw)); [reflexivity|].
  destruct (filter parece (labels raw)) as [|c0 cs] eqn:Ef; [reflexivity|].
  rewrite Hc; [reflexivity|].
  assert (H0 : In c0 (filter parece (labels raw))) by (rewrite Ef; now left).
  apply filter_In in H0. tauto.
Qed.

(** The four conversions, when they succeed. *)
Lemma foldM_converter_Ok (d3 d7 : DataFrame) :
  foldM converter_matriculados colunas_matriculados d3 = Ok d7 ->
  exists s1 x1 s2 x2 s3 x3 s4 x4,
    d7 = setitem (setitem (setitem (setitem d3
           "Doutorado - Matriculado" x1)
           "Doutorado Profissional - Matriculado" x2)
           "Mestrado - Matriculado" x3)
           "Mestrado Profissional - Matriculado" x4
    /\ find_col "Doutorado - Matriculado" (columns d3) = Some s1
    /\ find_col "Doutorado Profissional - Matriculado" (columns d3) = Some s2
    /\ find_col "Mestrado - Matriculado" (columns d3) = Some s3
    /\ find_col "Mestrado Profissional - Matriculado" (columns d3) = Some s4
    /\ Forall2 convertido s1 x1 /\ Forall2 convertido s2 x2
    /\ Forall2 convertido s3 x3 /\ Forall2 convertido s4 x4
    /\ Forall conversivel s1 /\ Forall conversivel s2
    /\ Forall conversivel s3 /\ Forall conversivel s4.
Proof.
  cbn [foldM colunas_matriculados]. intros Hf.
  apply result_bind_Ok in Hf. destruct Hf as [d4 [H4 Hf]].
  apply result_bind_Ok in Hf. destruct Hf as [d5 [H5 Hf]].
  apply result_bind_Ok in Hf. destruct Hf as [d6 [H6 Hf]].
  apply result_bind_Ok in Hf. destruct Hf as [d7' [H7 Hf]]. injection Hf as <-.
  pose proof (converter_matriculados_cases d3 "Doutorado - Matriculado") as C1.
  rewrite H4 in C1. destruct C1 as (s1 & x1 & Hs1 & -> & Hc1 & Hv1).
  pose proof (converter_matriculados_cases
                (setitem d3 "Doutorado - Matriculado" x1)
                "Doutorado Profissional - Matriculado") as C2.
  rewrite H5 in C2. destruct C2 as (s2 & x2 & Hs2 & -> & Hc2 & Hv2).
  pose proof (converter_matriculados_cases
                (setitem (setitem d3 "Doutorado - Matriculado" x1)
                   "Doutorado Profissional - Matriculado" x2)
                "Mestrado - Matriculado") as C3.
  rewrite H6 in C3. destruct C3 as (s3 & x3 & Hs3 & -> & Hc3 & Hv3).
  pose proof (converter_matriculados_cases
                (setitem (setitem (setitem d3 "Doutorado - Matriculado" x1)
                   "Doutorado Profissional - Matriculado" x2)
                   "Mestrado - Matriculado" x3)
                "Mestrado Profissional - Matriculado") as C4.
  rewrite H7 in C4. destruct C4 as (s4 & x4 & Hs4 & -> & Hc4 & Hv4).
  acha_coluna_em Hs2. acha_coluna_em Hs3. acha_coluna_em Hs4.
  exists s1, x1, s2, x2, s3, x3, s4, x4. repeat split; assumption.
Qed.

(** The four conversions, when one of them raises. *)
Lemma foldM_converter_Raise (d3 : DataFrame) (e : exn) :
  foldM converter_matriculados colunas_matriculados d3 = Raise e ->
  exists c, In c colunas_matriculados
            /\ ((e = KeyError c /\ find_col c (columns d3) = None)
                \/ (e = ValueError
                    /\ exists src, find_col c (columns d3) = Some src
                                   /\ Exists nao_numeral src)
                \/ (e = OverflowError
                    /\ exists src, find_col c (columns d3) = Some src
                                   /\ Exists fora_de_int64 src)).
Proof.
  cbn [foldM colunas_matriculados]. intros Hf.
  pose proof (converter_matriculados_cases d3 "Doutorado - Matriculado") as C1.
  destruct (converter_matriculados d3 "Doutorado - Matriculado") as [d4|e1]; simpl in Hf.
  2:{ injection Hf as ->. exists "Doutorado - Matriculado"%string.
      split; [simpl; auto|].
      destruct e as [l| | | |]; try contradiction; [destruct C1 as [-> C1]|..]; auto. }
  destruct C1 as (s1 & x1 & _ & -> & _).
  pose proof (converter_matriculados_cases
                (setitem d3 "Doutorado - Matriculado" x1)
                "Doutorado Profissional - Matriculado") as C2.
  destruct (converter_matriculados _ "Doutorado Profissional - Matriculado")
    as [d5|e2]; simpl in Hf.
  2:{ injection Hf as ->. exists "Doutorado Profissional - Matriculado"%string.
      split; [simpl; auto|]. acha_coluna_em C2.
      destruct e as [l| | | |]; try contradiction; [destruct C2 as [-> C2]|..]; auto. }
  destruct C2 as (s2 & x2 & _ & -> & _).
  pose proof (converter_matriculados_cases
                (setitem (setitem d3 "Doutorado - Matriculado" x1)
                   "Doutorado Profissional - Matriculado" x2)
                "Mestrado - Matriculado") as C3.
  destruct (converter_matriculados _ "Mestrado - Matriculado") as [d6|e3]; simpl in Hf.
  2:{ injection Hf as ->. exists "Mestrado - Matriculado"%string.
      split; [simpl; auto|]. acha_coluna_em C3.
      destruct e as [l| | | |]; try contradiction; [destruct C3 as [-> C3]|..]; auto. }
  destruct C3 as (s3 & x3 & _ & -> & _).
  pose proof (converter_matriculados_cases
                (setitem (setitem (setitem d3 "Doutorado - Matriculado" x1)
                   "Doutorado Profissional - Matriculado" x2)
                   "Mestrado - Matriculado" x3)
                "Mestrado Profissional - Matriculado") as C4.
  destruct (converter_matriculados _ "Mestrado Profissional - Matriculado")
    as [d7|e4]; simpl in Hf; [discriminate|].
  injection Hf as ->. exists "Mestrado Profissional - Matriculado"%string.
  split; [simpl; auto|]. acha_coluna_em C4.
  destruct e as [l| | | |]; try contradiction; [destruct C4 as [-> C4]|..]; auto.
Qed.

End NormalizerShape.

Section NormalizerRun.
Context {py : PyConv}.

(** Lines 80-98 never raise: they end with [IES] and [Status Jurídico]
    filled from the columns the frame had on entry. *)
Lemma garantir_e_tratar (d7 : DataFrame) :
  exists d8 d9,
    (d8 = d7 \/ d8 = setitem d7 "IES" (coluna_garantida "IES" parece_ies d7))
    /\ (d9 = d8
        \/ d9 = setitem d8 "Status Jurídico"
                  (coluna_garantida "Status Jurídico" parece_status d8))
    /\ (df <- garantir_coluna "IES" ies_cols d7 ;;
        df <- garantir_coluna "Status Jurídico" status_cols df ;;
        df <- tratar_nulos "IES" df ;;
        df <- tratar_nulos "Status Jurídico" df ;;
        Ok df)
       = Ok (setitem
               (setitem d9 "IES"
                  (fillna (Str "Não informado") (coluna_garantida "IES" parece_ies d7)))
               "Status Jurídico"
               (fillna (Str "Não informado")
                  (coluna_garantida "Status Jurídico" parece_status d8))).
Proof.
  change ies_cols with (fun d => filter parece_ies (labels d)).
  change status_cols with (fun d => filter parece_status (labels d)).
  destruct (garantir_coluna_eq "IES" parece_ies d7) as (d8 & E8 & F8 & S8).
  destruct (garantir_coluna_eq "Status Jurídico" parece_status d8) as (d9 & E9 & F9 & S9).
  exists d8, d9. split; [exact S8 | split; [exact S9|]].
  rewrite E8. cbn [bind]. rewrite E9. cbn [bind].
  assert (F8' : find_col "IES" (columns d9)
                = Some (coluna_garantida "IES" parece_ies d7)).
  { destruct S9 as [->| ->]; [exact F8|]. now acha_coluna. }
  rewrite (tratar_nulos_eq "IES" d9 _ F8'). cbn [bind].
  rewrite (tratar_nulos_eq "Status Jurídico" _
             (coluna_garantida "Status Jurídico" parece_status d8)); [reflexivity|].
  now acha_coluna.
Qed.

(** The frame on which the conversions of lines 76-77 run. *)
Lemma carregar_dados_run (raw : DataFrame) (ano : column) :
  find_col "Ano" (columns raw) = Some ano ->
  let d2 := rename mapa_colunas (setitem raw "Ano" (map to_numeric_coerce ano)) in
  let d3 := setitem d2 "COREDE" (coluna_corede d2) in
  carregar_dados raw
  = (d7 <- foldM converter_matriculados colunas_matriculados d3 ;;
     df <- garantir_coluna "IES" ies_cols d7 ;;
     df <- garantir_coluna "Status Jurídico" status_cols df ;;
     df <- tratar_nulos "IES" df ;;
     df <- tratar_nulos "Status Jurídico" df ;;
     Ok df).
Proof.
  intros Hano d2 d3. unfold carregar_dados.
  rewrite (proj2 (getitem_Ok raw "Ano" ano) Hano). cbn [bind].
  fold d2. rewrite garantir_corede_eq. reflexivity.
Qed.

Lemma find_col_matriculados (raw : DataFrame) (x y : column) (c : string) :
  In c colunas_matriculados ->
  find_col c (columns (setitem (rename mapa_colunas (setitem raw "Ano" x)) "COREDE" y))
  = find_col c (columns raw).
Proof.
  intros Hc. simpl in Hc.
  repeat (destruct Hc as [<-|Hc]; [now acha_coluna|]). contradiction.
Qed.

(** X16.  On a source with distinct labels whose enrollment numbers are
    [int64] values, the normalizer returns a frame exactly when the source has
    the year column and the four enrollment columns, these holding only nulls,
    numbers and strings that [int] reads as an integer that fits [int64]; the
    three categorical columns are never needed. *)
Theorem carregar_dados_succeeds_iff (raw : DataFrame) :
  NoDup (labels raw) ->
  fonte_int64 raw ->
  ((exists df, carregar_dados raw = Ok df)
   <-> (exists ano, find_col "Ano" (columns raw) = Some ano)
       /\ Forall (fun c => exists src, find_col c (columns raw) = Some src
                                       /\ Forall conversivel src)
            colunas_matriculados).
Proof.
  intros _ _. split.
  - intros [df Hdf].
    destruct (find_col "Ano" (columns raw)) as [ano|] eqn:Hano.
    2:{ unfold carregar_dados, getitem in Hdf. rewrite Hano in Hdf. discriminate. }
    split; [eauto|].
    rewrite (carregar_dados_run raw ano Hano) in Hdf. cbv zeta in Hdf.
    apply result_bind_Ok in Hdf. destruct Hdf as [d7 [H7 _]].
    apply foldM_converter_Ok in H7.
    destruct H7 as (s1 & x1 & s2 & x2 & s3 & x3 & s4 & x4 & _
                    & Hs1 & Hs2 & Hs3 & Hs4 & _ & _ & _ & _ & Hc1 & Hc2 & Hc3 & Hc4).
    rewrite find_col_matriculados in Hs1, Hs2, Hs3, Hs4 by (simpl; auto).
    repeat constructor; eauto.
  - intros [[ano Hano] Hall].
    rewrite (carregar_dados_run raw ano Hano). cbv zeta.
    destruct (foldM converter_matriculados colunas_matriculados _) as [d7|e] eqn:Hf.
    + cbn [bind]. destruct (garantir_e_tratar d7) as (d8 & d9 & _ & _ & ->). eauto.
    + exfalso. apply foldM_converter_Raise in Hf.
      destruct Hf as (c & Hc & Hcase). rewrite find_col_matriculados in Hcase by exact Hc.
      rewrite Forall_forall in Hall. destruct (Hall c Hc) as (src & Hsrc & Hconv).
      rewrite Forall_forall in Hconv.
      destruct Hcase as [[_ Hn]|[[_ (src' & Hsrc' & Hex)]|[_ (src' & Hsrc' & Hex)]]];
        [congruence | |];
        assert (src' = src) by congruence; subst src';
        apply Exists_exists in Hex; destruct Hex as [x [Hin Hx]];
        destruct (conversivel_excludes x (Hconv x Hin)); contradiction.
Qed.

(** X17.  On a source with distinct labels whose enrollment numbers are
    [int64] values, the only exceptions the normalizer raises are a KeyError
    for the year column or for one of the four enrollment columns, that column
    being absent from the source; a ValueError, an enrollment cell being a
    string that [int] rejects; and an OverflowError, an enrollment cell being
    a string that [int] reads as an integer outside [int64].  The absence of
    [COREDE], [IES] or [Status Jurídico] never raises. *)
Theorem carregar_dados_exceptions (raw : DataFrame) (e : exn) :
  NoDup (labels raw) ->
  fonte_int64 raw ->
  carregar_dados raw = Raise e ->
  (exists c, In c ("Ano"%string :: colunas_matriculados)
             /\ e = KeyError c /\ find_col c (columns raw) = None)
  \/ (e = ValueError
      /\ exists c src s, In c colunas_matriculados
                         /\ find_col c (columns raw) = Some src
                         /\ In (Str s) src /\ int_str s = None)
  \/ (e = OverflowError
      /\ exists c src s z, In c colunas_matriculados
                           /\ find_col c (columns raw) = Some src
                           /\ In (Str s) src /\ int_str s = Some z
                           /\ in_int64 z = false).
Proof.
  intros _ Hnum He.
  destruct (find_col "Ano" (columns raw)) as [ano|] eqn:Hano.
  2:{ unfold carregar_dados, getitem in He. rewrite Hano in He. injection He as <-.
      left. exists "Ano"%string. simpl. auto. }
  rewrite (carregar_dados_run raw ano Hano) in He. cbv zeta in He.
  destruct (foldM converter_matriculados colunas_matriculados _) as [d7|e'] eqn:Hf.
  - cbn [bind] in He. destruct (garantir_e_tratar d7) as (d8 & d9 & _ & _ & Ht).
    rewrite Ht in He. discriminate.
  - cbn [bind] in He. injection He as ->.
    apply foldM_converter_Raise in Hf. destruct Hf as (c & Hc & Hcase).
    rewrite find_col_matriculados in Hcase by exact Hc.
    destruct Hcase as [[-> Hn]|[[-> (src & Hsrc & Hex)]|[-> (src & Hsrc & Hex)]]].
    + left. exists c. split; [now right | auto].
    + right. left. split; [reflexivity|].
      apply Exists_exists in Hex. destruct Hex as [x [Hin Hx]].
      destruct x as [| |z|s]; simpl in Hx; try contradiction.
      exists c, src, s. auto.
    + right. right. split; [reflexivity|].
      apply Exists_exists in Hex. destruct Hex as [x [Hin Hx]].
      unfold fonte_int64 in Hnum. rewrite Forall_forall in Hnum.
      pose proof (Hnum c Hc src Hsrc) as Hsrc64. rewrite Forall_forall in Hsrc64.
      specialize (Hsrc64 x Hin).
      destruct x as [| |z|s]; simpl in Hx, Hsrc64; try contradiction.
      * congruence.
      * destruct Hx as [z [Hz Hout]]. exists c, src, s, z. auto.
Qed.

End NormalizerRun.

Ltac rotulos_distintos :=
  repeat constructor; simpl; intuition discriminate.
Ltac numeros_int64 :=
  repeat constructor; intros src E; vm_compute in E; injection E as <-;
  repeat constructor.

Lemma carregar_dados_succeeds_iff_witness :
  (exists df, carregar_dados raw_completo = Ok df)
  <-> (exists ano, find_col "Ano" (columns raw_completo) = Some ano)
      /\ Forall (fun c => exists src, find_col c (columns raw_completo) = Some src
                                      /\ Forall conversivel src)
           colunas_matriculados.
Proof.
  apply (carregar_dados_succeeds_iff raw_completo);
    [rotulos_distintos | numeros_int64].
Defined.

Lemma carregar_dados_exceptions_witness :
  (exists c, In c ("Ano"%string :: colunas_matriculados)
             /\ OverflowError = KeyError c
             /\ find_col c (columns raw_estouro) = None)
  \/ (OverflowError = ValueError
      /\ exists c src s, In c colunas_matriculados
                         /\ find_col c (columns raw_estouro) = Some src
                         /\ In (Str s) src /\ int_str s = None)
  \/ (OverflowError = OverflowError
      /\ exists c src s z, In c colunas_matriculados
                           /\ find_col c (columns raw_estouro) = Some src
                           /\ In (Str s) src /\ int_str s = Some z
                           /\ in_int64 z = false).
Proof.
  apply (carregar_dados_exceptions raw_estouro);
    [rotulos_distintos | numeros_int64 | vm_compute; reflexivity].
Defined.

Section NormalizerResult.
Context {py : PyConv}.

(** The frame returned, step by step. *)
Lemma carregar_dados_final (raw df : DataFrame) :
  carregar_dados raw = Ok df ->
  exists ano s1 x1 s2 x2 s3 x3 s4 x4 d8 d9,
    find_col "Ano" (columns raw) = Some ano
    /\ find_col "Doutorado - Matriculado" (columns raw) = Some s1
    /\ find_col "Doutorado Profissional - Matriculado" (columns raw) = Some s2
    /\ find_col "Mestrado - Matriculado" (columns raw) = Some s3
    /\ find_col "Mestrado Profissional - Matriculado" (columns raw) = Some s4
    /\ Forall2 convertido s1 x1 /\ Forall2 convertido s2 x2
    /\ Forall2 convertido s3 x3 /\ Forall2 convertido s4 x4
    /\ let d2 := rename mapa_colunas (setitem raw "Ano" (map to_numeric_coerce ano)) in
       let d7 := setitem (setitem (setitem (setitem
                   (setitem d2 "COREDE" (coluna_corede d2))
                   "Doutorado - Matriculado" x1)
                   "Doutorado Profissional - Matriculado" x2)
                   "Mestrado - Matriculado" x3)
                   "Mestrado Profissional - Matriculado" x4 in
       (d8 = d7 \/ d8 = setitem d7 "IES" (coluna_garantida "IES" parece_ies d7))
       /\ (d9 = d8
           \/ d9 = setitem d8 "Status Jurídico"
                     (coluna_garantida "Status Jurídico" parece_status d8))
       /\ df = setitem
                 (setitem d9 "IES"
                    (fillna (Str "Não informado")
                       (coluna_garantida "IES" parece_ies d7)))
                 "Status Jurídico"
                 (fillna (Str "Não informado")
                    (coluna_garantida "Status Jurídico" parece_status d8)).
Proof.
  intros Hdf.
  destruct (find_col "Ano" (columns raw)) as [ano|] eqn:Hano.
  2:{ unfold carregar_dados, getitem in Hdf. rewrite Hano in Hdf. discriminate. }
  rewrite (carregar_dados_run raw ano Hano) in Hdf. cbv zeta in Hdf.
  apply result_bind_Ok in Hdf. destruct Hdf as [d7 [H7 Hdf]].
  apply foldM_converter_Ok in H7.
  destruct H7 as (s1 & x1 & s2 & x2 & s3 & x3 & s4 & x4 & ->
                  & Hs1 & Hs2 & Hs3 & Hs4 & Hc1 & Hc2 & Hc3 & Hc4 & _).
  rewrite find_col_matriculados in Hs1, Hs2, Hs3, Hs4 by (simpl; auto).
  destruct (garantir_e_tratar
              (setitem (setitem (setitem (setitem
                 (setitem (rename mapa_colunas
                             (setitem raw "Ano" (map to_numeric_coerce ano)))
                    "COREDE"
                    (coluna_corede (rename mapa_colunas
                                      (setitem raw "Ano" (map to_numeric_coerce ano)))))
                 "Doutorado - Matriculado" x1)
                 "Doutorado Profissional - Matriculado" x2)
                 "Mestrado - Matriculado" x3)
                 "Mestrado Profissional - Matriculado" x4))
    as (d8 & d9 & S8 & S9 & Ht).
  rewrite Ht in Hdf. injection Hdf as <-.
  exists ano, s1, x1, s2, x2, s3, x3, s4, x4, d8, d9.
  repeat split; assumption.
Qed.

(** The frame returned derives from the source by assignments to the
    labels of [rotulos_atribuidos] only. *)
Lemma carregar_dados_deriva (parece : string -> bool) (raw df : DataFrame) :
  carregar_dados raw = Ok df ->
  Forall (fun l => parece l = false) rotulos_atribuidos ->
  deriva parece raw df.
Proof.
  intros Hdf Hp. apply carregar_dados_final in Hdf.
  destruct Hdf as (ano & s1 & x1 & s2 & x2 & s3 & x3 & s4 & x4 & d8 & d9
                   & Hano & _ & _ & _ & _ & _ & _ & _ & _ & S8 & S9 & ->).
  unfold rotulos_atribuidos in Hp. cbn [colunas_matriculados app] in Hp.
  inversion Hp as [|? ? Pc Hp1]; subst. inversion Hp1 as [|? ? P1 Hp2]; subst.
  inversion Hp2 as [|? ? P2 Hp3]; subst. inversion Hp3 as [|? ? P3 Hp4]; subst.
  inversion Hp4 as [|? ? P4 Hp5]; subst. inversion Hp5 as [|? ? Pi Hp6]; subst.
  inversion Hp6 as [|? ? Ps _]; subst.
  assert (H7 : deriva parece raw
            (setitem (setitem (setitem (setitem
               (setitem (rename mapa_colunas
                           (setitem raw "Ano" (map to_numeric_coerce ano)))
                  "COREDE"
                  (coluna_corede (rename mapa_colunas
                                    (setitem raw "Ano" (map to_numeric_coerce ano)))))
               "Doutorado - Matriculado" x1)
               "Doutorado Profissional - Matriculado" x2)
               "Mestrado - Matriculado" x3)
               "Mestrado Profissional - Matriculado" x4)).
  { repeat (apply deriva_setitem; [|assumption]). now apply deriva_base. }
  assert (H8 : deriva parece raw d8).
  { destruct S8 as [->| ->]; [exact H7 | now apply deriva_setitem]. }
  assert (H9 : deriva parece raw d9).
  { destruct S9 as [->| ->]; [exact H8 | now apply deriva_setitem]. }
  repeat (apply deriva_setitem; [|assumption]). exact H9.
Qed.

End NormalizerResult.

(* ================================================================= *)
(** ** The columns of the normalized frame, read off the source *)

Lemma find_col_In_labels (df : DataFrame) (l : string) (c : column) :
  find_col l (columns df) = Some c -> In l (labels df).
Proof.
  unfold labels. induction (columns df) as [|[n x] cols IH]; simpl; [discriminate|].
  destruct (String.eqb_spec n l) as [->|N]; [now left | right; auto].
Qed.

Lemma find_col_In (df : DataFrame) (l : string) (c : column) :
  find_col l (columns df) = Some c -> In c (map snd (columns df)).
Proof.
  induction (columns df) as [|[n x] cols IH]; simpl; [discriminate|].
  destruct (String.eqb n l); [intros E; injection E as ->; now left | right; auto].
Qed.

Lemma find_col_rename_key (m : list (string * string)) (df : DataFrame) (k v : string) :
  lookup_label k m = Some v ->
  (forall k', lookup_label k' m = Some v -> k' = k) ->
  find_col v (columns df) = None ->
  find_col v (columns (rename m df)) = find_col k (columns df).
Proof.
  intros Hk Hinj. unfold rename. simpl.
  induction (columns df) as [|[n c] cols IH]; simpl; [reflexivity|].
  destruct (String.eqb_spec n v) as [->|Nv]; [discriminate|]. intros Hnone.
  destruct (lookup_label n m) as [x|] eqn:E.
  - destruct (String.eqb_spec x v) as [->|Nx].
    + rewrite (Hinj n E), String.eqb_refl. reflexivity.
    + destruct (String.eqb_spec n k) as [->|Nk]; [congruence | now apply IH].
  - destruct (String.eqb_spec n v) as [->|_]; [contradiction|].
    destruct (String.eqb_spec n k) as [->|Nk]; [congruence | now apply IH].
Qed.

Section NormalizerColumns.
Context {py : PyConv}.

(** X18.  The [COREDE] column of the normalized frame is decided by the
    source alone: the source's [COREDE] column with nulls replaced by "NA"
    and the rest printed as strings; else the first source column whose label
    contains "COREDE", printed as strings, nulls included; else "NA" on every
    row.  The renaming and the later steps do not interfere. *)
Theorem corede_tres_niveis (raw df : DataFrame) :
  carregar_dados raw = Ok df ->
  find_col "COREDE" (columns df) = Some (coluna_corede raw)
  /\ (forall src, find_col "COREDE" (columns raw) = Some src ->
        find_col "COREDE" (columns df) = Some (map astype_str (fillna (Str "NA") src)))
  /\ (forall c0 rest src,
        find_col "COREDE" (columns raw) = None ->
        filter parece_corede (labels raw) = c0 :: rest ->
        find_col c0 (columns raw) = Some src ->
        find_col "COREDE" (columns df) = Some (map astype_str src))
  /\ (filter parece_corede (labels raw) = [] ->
      find_col "COREDE" (columns df) = Some (repeat (Str "NA") (nrows raw))).
Proof.
  intros Hdf.
  assert (Hc : find_col "COREDE" (columns df) = Some (coluna_corede raw)).
  { apply carregar_dados_final in Hdf.
    destruct Hdf as (ano & s1 & x1 & s2 & x2 & s3 & x3 & s4 & x4 & d8 & d9
                     & Hano & _ & _ & _ & _ & _ & _ & _ & _ & S8 & S9 & ->).
    rewrite <- (coluna_corede_deriva raw _ (deriva_base parece_corede raw ano Hano)).
    destruct S8 as [->| ->]; destruct S9 as [->| ->];
      acha_coluna; apply find_col_setitem_same. }
  split; [exact Hc|]. rewrite Hc. unfold coluna_corede. repeat split.
  - intros src ->. reflexivity.
  - intros c0 rest src -> -> ->. reflexivity.
  - intros Hf. destruct (find_col "COREDE" (columns raw)) as [src|] eqn:E.
    + exfalso. apply find_col_In_labels in E.
      assert (H0 : In "COREDE"%string (filter parece_corede (labels raw)))
        by (apply filter_In; split; [exact E | reflexivity]).
      rewrite Hf in H0. contradiction.
    + now rewrite Hf.
Qed.

Lemma deriva_conversoes (parece : string -> bool) (raw : DataFrame)
  (ano cc x1 x2 x3 x4 : column) :
  find_col "Ano" (columns raw) = Some ano ->
  Forall (fun l => parece l = false) ("COREDE"%string :: colunas_matriculados) ->
  deriva parece raw
    (setitem (setitem (setitem (setitem
       (setitem (rename mapa_colunas (setitem raw "Ano" (map to_numeric_coerce ano)))
          "COREDE" cc)
       "Doutorado - Matriculado" x1)
       "Doutorado Profissional - Matriculado" x2)
       "Mestrado - Matriculado" x3)
       "Mestrado Profissional - Matriculado" x4).
Proof.
  intros Hano Hp. cbn [colunas_matriculados] in Hp.
  inversion Hp as [|? ? Pc Hp1]; subst. inversion Hp1 as [|? ? P1 Hp2]; subst.
  inversion Hp2 as [|? ? P2 Hp3]; subst. inversion Hp3 as [|? ? P3 Hp4]; subst.
  inversion Hp4 as [|? ? P4 _]; subst.
  repeat (apply deriva_setitem; [|assumption]). now apply deriva_base.
Qed.

(** X19.  The [IES] and [Status Jurídico] columns of the normalized frame
    are decided by the source alone: the source's column of that name, else
    the first source column whose label passes the test of line 82 or 90, else
    the default on every row; in the three cases the nulls are replaced by
    "Não informado" and the other cells kept as they are. *)
Theorem ies_status_tres_niveis (raw df : DataFrame) :
  carregar_dados raw = Ok df ->
  find_col "IES" (columns df)
  = Some (fillna (Str "Não informado") (coluna_garantida "IES" parece_ies raw))
  /\ find_col "Status Jurídico" (columns df)
     = Some (fillna (Str "Não informado")
               (coluna_garantida "Status Jurídico" parece_status raw))
  /\ (forall label parece,
        (forall src, find_col label (columns raw) = Some src ->
           coluna_garantida label parece raw = src)
        /\ (forall c0 rest src,
              find_col label (columns raw) = None ->
              filter parece (labels raw) = c0 :: rest ->
              find_col c0 (columns raw) = Some src ->
              coluna_garantida label parece raw = src)
        /\ (find_col label (columns raw) = None ->
            filter parece (labels raw) = [] ->
            fillna (Str "Não informado") (coluna_garantida label parece raw)
            = repeat (Str "Não informado") (nrows raw))).
Proof.
  intros Hdf. apply carregar_dados_final in Hdf.
  destruct Hdf as (ano & s1 & x1 & s2 & x2 & s3 & x3 & s4 & x4 & d8 & d9
                   & Hano & _ & _ & _ & _ & _ & _ & _ & _ & S8 & S9 & ->).
  pose proof (deriva_conversoes parece_ies raw ano
                (coluna_corede (rename mapa_colunas
                                  (setitem raw "Ano" (map to_numeric_coerce ano))))
                x1 x2 x3 x4 Hano ltac:(repeat constructor)) as D7i.
  pose proof (deriva_conversoes parece_status raw ano
                (coluna_corede (rename mapa_colunas
                                  (setitem raw "Ano" (map to_numeric_coerce ano))))
                x1 x2 x3 x4 Hano ltac:(repeat constructor)) as D7s.
  assert (D8 : deriva parece_status raw d8).
  { destruct S8 as [->| ->]; [exact D7s | now apply deriva_setitem]. }
  rewrite <- (coluna_garantida_deriva "IES" parece_ies raw _ eq_refl eq_refl alheio_ies D7i).
  rewrite <- (coluna_garantida_deriva "Status Jurídico" parece_status raw d8
                eq_refl eq_refl alheio_status D8).
  split; [|split].
  - acha_coluna. apply find_col_setitem_same.
  - apply find_col_setitem_same.
  - intros label parece. unfold coluna_garantida. repeat split.
    + intros src ->. reflexivity.
    + intros c0 rest src -> -> ->. reflexivity.
    + intros -> ->. unfold fillna. rewrite map_repeat. reflexivity.
Qed.

End NormalizerColumns.

Lemma corede_tres_niveis_witness :
  exists df, carregar_dados raw_completo = Ok df
             /\ find_col "COREDE" (columns df) = Some [Str "Sul"; Str "NA"].
Proof.
  eexists. split; [exact carregar_dados_completo|].
  destruct (corede_tres_niveis raw_completo _ carregar_dados_completo) as (_ & H & _).
  exact (H _ eq_refl).
Defined.

Example carregar_dados_ies_similar :
  carregar_dados raw_ies_similar
  = Ok (mkDataFrame 2
          [ ("Ano", [Num 2020; Num 2021]);
            ("Estado", [Str "RS"; Str "SC"]);
            ("Doutorado - Matriculado", [Num 10; Num 12]);
            ("Doutorado Profissional - Matriculado", [Num 0; Num 1]);
            ("Mestrado - Matriculado", [Num 20; Num 0]);
            ("Mestrado Profissional - Matriculado", [Num 0; Num 3]);
            ("Nome da Instituição", [PyNone; Str "UFSC"]);
            ("Categoria Administrativa", [Str "Pública"; NaN]);
            ("COREDE", [Str "NA"; Str "NA"]);
            ("IES", [Str "Não informado"; Str "UFSC"]);
            ("Status Jurídico", [Str "Pública"; Str "Não informado"]) ]).
Proof. vm_compute. reflexivity. Qed.

Lemma ies_status_tres_niveis_witness :
  coluna_garantida "IES" parece_ies raw_ies_similar = [PyNone; Str "UFSC"]
  /\ find_col "IES" (columns (mkDataFrame 2
          [ ("Ano", [Num 2020; Num 2021]);
            ("Estado", [Str "RS"; Str "SC"]);
            ("Doutorado - Matriculado", [Num 10; Num 12]);
            ("Doutorado Profissional - Matriculado", [Num 0; Num 1]);
            ("Mestrado - Matriculado", [Num 20; Num 0]);
            ("Mestrado Profissional - Matriculado", [Num 0; Num 3]);
            ("Nome da Instituição", [PyNone; Str "UFSC"]);
            ("Categoria Administrativa", [Str "Pública"; NaN]);
            ("COREDE", [Str "NA"; Str "NA"]);
            ("IES", [Str "Não informado"; Str "UFSC"]);
            ("Status Jurídico", [Str "Pública"; Str "Não informado"]) ]))
     = Some (fillna (Str "Não informado")
               (coluna_garantida "IES" parece_ies raw_ies_similar)).
Proof.
  split; [reflexivity|].
  apply (ies_status_tres_niveis raw_ies_similar _ carregar_dados_ies_similar).
Defined.

(* ================================================================= *)
(** ** What the normalizer keeps of the source *)

Lemma bem_formado_setitem (df : DataFrame) (l : string) (c : column) :
  bem_formado df -> List.length c = nrows df -> bem_formado (setitem df l c).
Proof.
  unfold bem_formado, setitem. simpl. intros Hwf Hc.
  induction (columns df) as [|[n x] cols IH]; simpl.
  - constructor; [exact Hc | constructor].
  - inversion Hwf; subst. destruct (String.eqb n l); constructor; auto.
Qed.

Lemma bem_formado_rename (m : list (string * string)) (df : DataFrame) :
  bem_formado df -> bem_formado (rename m df).
Proof.
  unfold bem_formado, rename. simpl. intros Hwf.
  apply Forall_forall. intros nc Hin. apply in_map_iff in Hin.
  destruct Hin as [[n c] [<- Hin]]. simpl.
  rewrite Forall_forall in Hwf. exact (Hwf _ Hin).
Qed.

Lemma bem_formado_find (df : DataFrame) (l : string) (c : column) :
  bem_formado df -> find_col l (columns df) = Some c -> List.length c = nrows df.
Proof.
  unfold bem_formado. intros Hwf. induction (columns df) as [|[n x] cols IH]; simpl.
  - discriminate.
  - inversion Hwf; subst. destruct (String.eqb n l); [|auto].
    intros E. injection E as <-. assumption.
Qed.

Lemma fillna_length (v : cell) (c : column) : List.length (fillna v c) = List.length c.
Proof. apply length_map. Qed.

Lemma coluna_garantida_length (label : string) (parece : string -> bool) (df : DataFrame) :
  bem_formado df -> List.length (coluna_garantida label parece df) = nrows df.
Proof.
  intros Hwf. unfold coluna_garantida.
  destruct (find_col label (columns df)) as [src|] eqn:E.
  - exact (bem_formado_find df label src Hwf E).
  - destruct (filter parece (labels df)) as [|c0 cs] eqn:Ef; [apply repeat_length|].
    assert (Hin : In c0 (labels df)).
    { assert (H0 : In c0 (filter parece (labels df))) by (rewrite Ef; now left).
      apply filter_In in H0. tauto. }
    destruct (In_labels_find df c0 Hin) as [src Hsrc]. rewrite Hsrc.
    exact (bem_formado_find df c0 src Hwf Hsrc).
Qed.

Section NormalizerKeeps.
Context {py : PyConv}.

Lemma coluna_corede_length (df : DataFrame) :
  bem_formado df -> List.length (coluna_corede df) = nrows df.
Proof.
  intros Hwf. unfold coluna_corede.
  destruct (find_col "COREDE" (columns df)) as [src|] eqn:E.
  - rewrite length_map, fillna_length. exact (bem_formado_find df _ src Hwf E).
  - destruct (filter parece_corede (labels df)) as [|c0 cs] eqn:Ef; [apply repeat_length|].
    assert (Hin : In c0 (labels df)).
    { assert (H0 : In c0 (filter parece_corede (labels df))) by (rewrite Ef; now left).
      apply filter_In in H0. tauto. }
    destruct (In_labels_find df c0 Hin) as [src Hsrc]. rewrite Hsrc, length_map.
    exact (bem_formado_find df c0 src Hwf Hsrc).
Qed.

(** X20.  The normalizer keeps the number of rows, and when every column of
    the source has one cell per row, so has every column of the frame it
    returns, those it adds included. *)
Theorem carregar_dados_bem_formado (raw df : DataFrame) :
  bem_formado raw -> carregar_dados raw = Ok df ->
  nrows df = nrows raw /\ bem_formado df.
Proof.
  intros Hwf Hdf. apply carregar_dados_final in Hdf.
  destruct Hdf as (ano & s1 & x1 & s2 & x2 & s3 & x3 & s4 & x4 & d8 & d9
                   & Hano & Hs1 & Hs2 & Hs3 & Hs4 & Hc1 & Hc2 & Hc3 & Hc4
                   & S8 & S9 & ->).
  set (d2 := rename mapa_colunas (setitem raw "Ano" (map to_numeric_coerce ano))) in *.
  assert (W2 : bem_formado d2).
  { apply bem_formado_rename, bem_formado_setitem; [exact Hwf|].
    rewrite length_map. exact (bem_formado_find raw _ ano Hwf Hano). }
  assert (Hx : forall c s x, find_col c (columns raw) = Some s -> Forall2 convertido s x ->
                             List.length x = nrows raw).
  { intros c s x Hs Hc. rewrite <- (Forall2_length Hc).
    exact (bem_formado_find raw c s Hwf Hs). }
  set (d7 := setitem (setitem (setitem (setitem (setitem d2 "COREDE" (coluna_corede d2))
               "Doutorado - Matriculado" x1) "Doutorado Profissional - Matriculado" x2)
               "Mestrado - Matriculado" x3) "Mestrado Profissional - Matriculado" x4) in *.
  assert (W7 : bem_formado d7).
  { unfold d7. repeat apply bem_formado_setitem; eauto using coluna_corede_length. }
  assert (N7 : nrows d7 = nrows raw) by reflexivity.
  assert (W8 : bem_formado d8 /\ nrows d8 = nrows raw).
  { destruct S8 as [->| ->]; split; auto.
    apply bem_formado_setitem; [exact W7 | now apply coluna_garantida_length]. }
  destruct W8 as [W8 N8].
  assert (W9 : bem_formado d9 /\ nrows d9 = nrows raw).
  { destruct S9 as [->| ->]; split; auto.
    apply bem_formado_setitem; [exact W8 | now apply coluna_garantida_length]. }
  destruct W9 as [W9 N9].
  split; [exact N9|].
  apply bem_formado_setitem; [apply bem_formado_setitem; [exact W9|]|].
  - rewrite fillna_length, coluna_garantida_length by exact W7. simpl. congruence.
  - rewrite fillna_length, coluna_garantida_length by exact W8. simpl. congruence.
Qed.

(** X21.  The normalizer leaves every other column of the source as it is:
    a column whose label is none of [Ano], [COREDE], [IES],
    [Status Jurídico], the four enrollment labels and the six labels of the
    renaming is found in the result with the same cells; the year column holds
    the source's years converted; and a source column [UF] is found under
    [Estado] when the source has no [Estado] column. *)
Theorem carregar_dados_keeps (raw df : DataFrame) :
  carregar_dados raw = Ok df ->
  (forall l,
     ~ In l ("Ano"%string :: rotulos_atribuidos
             ++ map fst mapa_colunas ++ map snd mapa_colunas)%list ->
     find_col l (columns df) = find_col l (columns raw))
  /\ (exists ano, find_col "Ano" (columns raw) = Some ano
                  /\ find_col "Ano" (columns df) = Some (map to_numeric_coerce ano))
  /\ (find_col "Estado" (columns raw) = None ->
      find_col "Estado" (columns df) = find_col "UF" (columns raw)).
Proof.
  intros Hdf. split; [|split].
  - intros l Hl.
    assert (Hneq : forall x, In x ("Ano"%string :: rotulos_atribuidos
                              ++ map fst mapa_colunas ++ map snd mapa_colunas)%list ->
                             String.eqb x l = false).
    { intros x Hx. apply String.eqb_neq. intros ->. contradiction. }
    pose proof (carregar_dados_deriva (fun x => String.eqb x l) raw df Hdf) as Hd.
    assert (Hrot : Forall (fun x => String.eqb x l = false) rotulos_atribuidos).
    { apply Forall_forall. intros x Hx. apply Hneq. right.
      apply in_or_app. now left. }
    specialize (Hd Hrot).
    assert (Ha : alheio_ao_mapa (fun x => String.eqb x l)).
    { apply Forall_forall. intros [k v] Hkv. simpl. split; apply Hneq; right;
        apply in_or_app; right; apply in_or_app.
      - left. apply in_map_iff. now exists (k, v).
      - right. apply in_map_iff. now exists (k, v). }
    destruct (deriva_facts _ raw df (Hneq "Ano"%string (or_introl eq_refl)) Ha Hd)
      as (_ & _ & Hc).
    apply Hc. apply String.eqb_refl.
  - apply carregar_dados_final in Hdf.
    destruct Hdf as (ano & s1 & x1 & s2 & x2 & s3 & x3 & s4 & x4 & d8 & d9
                     & Hano & _ & _ & _ & _ & _ & _ & _ & _ & S8 & S9 & ->).
    exists ano. split; [exact Hano|].
    destruct S8 as [->| ->]; destruct S9 as [->| ->];
      acha_coluna; apply find_col_setitem_same.
  - intros Hnone. apply carregar_dados_final in Hdf.
    destruct Hdf as (ano & s1 & x1 & s2 & x2 & s3 & x3 & s4 & x4 & d8 & d9
                     & Hano & _ & _ & _ & _ & _ & _ & _ & _ & S8 & S9 & ->).
    assert (Hren : find_col "Estado"
                     (columns (rename mapa_colunas
                                 (setitem raw "Ano" (map to_numeric_coerce ano))))
                   = find_col "UF" (columns raw)).
    { rewrite (find_col_rename_key mapa_colunas _ "UF" "Estado").
      - now acha_coluna.
      - reflexivity.
      - intros k'. unfold mapa_colunas. cbn [lookup_label].
        destruct (String.eqb_spec "UF" k') as [<-|_]; [reflexivity|].
        destruct (String.eqb "Área Avaliação" k'); [discriminate|].
        destruct (String.eqb "Área Conhecimento" k'); discriminate.
      - now acha_coluna. }
    rewrite <- Hren.
    destruct S8 as [->| ->]; destruct S9 as [->| ->];
      repeat (rewrite find_col_setitem_other by neq_label); reflexivity.
Qed.

End NormalizerKeeps.

Lemma carregar_dados_bem_formado_witness :
  exists df, carregar_dados raw_completo = Ok df /\ nrows df = 2%nat /\ bem_formado df.
Proof.
  eexists. split; [exact carregar_dados_completo|].
  apply (carregar_dados_bem_formado raw_completo _); [|exact carregar_dados_completo].
  unfold bem_formado. simpl. repeat constructor.
Defined.

Lemma carregar_dados_keeps_witness :
  exists df, carregar_dados raw_ies_similar = Ok df
             /\ find_col "Nome da Instituição" (columns df) = Some [PyNone; Str "UFSC"]
             /\ find_col "Estado" (columns df) = Some [Str "RS"; Str "SC"].
Proof.
  eexists. split; [exact carregar_dados_ies_similar|].
  destruct (carregar_dados_keeps raw_ies_similar _ carregar_dados_ies_similar)
    as (H1 & _ & H3).
  split.
  - rewrite H1; [reflexivity|]. vm_compute. intuition discriminate.
  - rewrite H3; reflexivity.
Defined.

(* ================================================================= *)
(** ** The order of the columns *)

Lemma has_col_match (l : string) (df : DataFrame) :
  has_col l df = match find_col l (columns df) with Some _ => true | None => false end.
Proof.
  destruct (find_col l (columns df)) as [c|] eqn:E.
  - apply has_col_find. eauto.
  - destruct (has_col l df) eqn:Hh; [|reflexivity].
    apply has_col_find in Hh. destruct Hh as [c Hc]. congruence.
Qed.

Lemma labels_setitem_match (df : DataFrame) (l : string) (c : column) :
  labels (setitem df l c)
  = (labels df ++ match find_col l (columns df) with Some _ => [] | None => [l] end)%list.
Proof.
  destruct (find_col l (columns df)) as [c'|] eqn:E.
  - rewrite (labels_setitem_present df l c c' E). now rewrite app_nil_r.
  - now apply labels_setitem_absent.
Qed.

Section NormalizerLabels.
Context {py : PyConv}.

Lemma garantir_coluna_labels (label : string) (similares : DataFrame -> list string)
  (df d' : DataFrame) :
  garantir_coluna label similares df = Ok d' ->
  labels d'
  = (labels df ++ match find_col label (columns df) with Some _ => [] | None => [label] end)%list
  /\ (forall l, l <> label -> find_col l (columns d') = find_col l (columns df))
  /\ exists c, find_col label (columns d') = Some c.
Proof.
  unfold garantir_coluna. rewrite has_col_match.
  destruct (find_col label (columns df)) as [c|] eqn:E; cbn [negb].
  - intros H. injection H as <-. rewrite app_nil_r. eauto.
  - assert (Hset : forall col, labels (setitem df label col) = (labels df ++ [label])%list
                    /\ (forall l, l <> label ->
                          find_col l (columns (setitem df label col)) = find_col l (columns df))
                    /\ exists c, find_col label (columns (setitem df label col)) = Some c).
    { intros col. split; [now apply labels_setitem_absent | split].
      - intros l N. now apply find_col_setitem_other.
      - eexists. apply find_col_setitem_same. }
    destruct (similares df) as [|c0 cs].
    + intros H. injection H as <-. apply Hset.
    + intros H. apply result_bind_Ok in H. destruct H as [col [_ H]].
      injection H as <-. apply Hset.
Qed.

(** X22.  The normalized frame has the source's columns in the source's
    order, under their new names where the renaming applies, followed by those
    of [COREDE], [IES] and [Status Jurídico], in this order, that the source
    lacks. *)
Theorem carregar_dados_labels (raw df : DataFrame) :
  carregar_dados raw = Ok df ->
  labels df = (map renomeado (labels raw) ++ novas_colunas raw)%list.
Proof.
  intros Hdf. apply carregar_dados_Ok in Hdf.
  destruct Hdf as (ano & d3 & d4 & d5 & d6 & d7 & d8 & d9 & d10
                   & Hano & H3 & H4 & H5 & H6 & H7 & H8 & H9 & H10 & H11).
  apply getitem_Ok in Hano.
  rewrite garantir_corede_eq in H3. injection H3 as <-.
  apply converter_matriculados_Ok in H4. destruct H4 as (s1 & x1 & Hs1 & -> & _).
  apply converter_matriculados_Ok in H5. destruct H5 as (s2 & x2 & Hs2 & -> & _).
  apply converter_matriculados_Ok in H6. destruct H6 as (s3 & x3 & Hs3 & -> & _).
  apply converter_matriculados_Ok in H7. destruct H7 as (s4 & x4 & Hs4 & -> & _).
  apply garantir_coluna_labels in H8. destruct H8 as (L8 & F8 & [ci Hci]).
  apply garantir_coluna_labels in H9. destruct H9 as (L9 & F9 & [cs Hcs]).
  rewrite (tratar_nulos_eq "IES" d9 ci) in H10
    by (rewrite F9 by neq_label; exact Hci).
  injection H10 as <-.
  rewrite (tratar_nulos_eq "Status Jurídico" _ cs) in H11
    by (rewrite find_col_setitem_other by neq_label; exact Hcs).
  injection H11 as <-.
  rewrite (labels_setitem_present _ "Status Jurídico" _ cs)
    by (rewrite find_col_setitem_other by neq_label; exact Hcs).
  rewrite (labels_setitem_present _ "IES" _ ci) by (rewrite F9 by neq_label; exact Hci).
  rewrite L9, F8 by neq_label. rewrite L8.
  rewrite (labels_setitem_present _ _ _ s4 Hs4), (labels_setitem_present _ _ _ s3 Hs3),
    (labels_setitem_present _ _ _ s2 Hs2), (labels_setitem_present _ _ _ s1 Hs1).
  rewrite labels_setitem_match, labels_rename_map.
  rewrite (labels_setitem_present raw "Ano" _ ano Hano).
  acha_coluna. unfold novas_colunas. cbn [filter]. rewrite !has_col_match.
  rewrite <- !app_assoc.
  destruct (find_col "COREDE" (columns raw)), (find_col "IES" (columns raw)),
    (find_col "Status Jurídico" (columns raw)); reflexivity.
Qed.

End NormalizerLabels.

Lemma carregar_dados_labels_witness :
  exists df, carregar_dados raw_ies_similar = Ok df
             /\ labels df
                = [ "Ano"; "Estado"; "Doutorado - Matriculado";
                    "Doutorado Profissional - Matriculado"; "Mestrado - Matriculado";
                    "Mestrado Profissional - Matriculado"; "Nome da Instituição";
                    "Categoria Administrativa"; "COREDE"; "IES"; "Status Jurídico" ]%string.
Proof.
  eexists. split; [exact carregar_dados_ies_similar|].
  rewrite (carregar_dados_labels raw_ies_similar _ carregar_dados_ies_similar).
  reflexivity.
Defined.
